(** * socialmedia_generator: the post generation workflow, in Rocq

    A shallow embedding of
      - helper/jsonhelper.py            (parse_json_from_string)
      - services/post_service.py        (PostService)
      - services/gemini_agent_service.py (GeminiAgentService.generate_post)
      - routes/posts.py                 (choose_variation)
    together with the tables of database/post_models.py.

    Python [str] is modelled by [string] (a text is the sequence of its
    UTF-8 bytes), Python [int] by [Z], [Optional[T]] by [option T], SQL tables
    by lists of rows in insertion order. *)

From Stdlib Require Import ZArith List String Ascii Bool Lia DecimalString.
From Stdlib Require Import Permutation Sorted.
Import ListNotations.
#[local] Set Warnings "-register-all".
Open Scope string_scope.

(** ** Python strings *)

Module PyStr.

Definition LF : ascii := "010"%char.
Definition CR : ascii := "013"%char.
Definition TAB : ascii := "009"%char.
Definition DQUOTE : ascii := "034"%char.
Definition BACKSLASH : ascii := "092"%char.

(** [s.replace(c, by)] for a one-character pattern [c]. *)
Fixpoint replace (c : ascii) (by_ : string) (s : string) : string :=
  match s with
  | EmptyString => EmptyString
  | String a r =>
      if Ascii.eqb a c then by_ ++ replace c by_ r
      else String a (replace c by_ r)
  end.

(** [c in s] for a one-character [c]. *)
Fixpoint mem (c : ascii) (s : string) : bool :=
  match s with
  | EmptyString => false
  | String a r => Ascii.eqb a c || mem c r
  end.

(** Truthiness of a [str]: non-empty. *)
Definition truthy (s : string) : bool :=
  match s with EmptyString => false | _ => true end.

(** [sep.join(l)]. *)
Definition join (sep : string) (l : list string) : string :=
  String.concat sep l.

(** [str(n)] for an [int]. *)
Definition of_int (n : Z) : string := NilZero.string_of_int (Z.to_int n).

Definition of_nat (n : nat) : string := of_int (Z.of_nat n).

(** [x in l] for a list of strings. *)
Definition mem_list (x : string) (l : list string) : bool :=
  existsb (String.eqb x) l.

End PyStr.

(** ** JSON values, as [json.loads] returns them *)

Inductive json : Type :=
| JNull
| JBool (b : bool)
| JInt (n : Z)
| JFloat (lexeme : string)        (* a float, kept as the text it was written with *)
| JStr (s : string)
| JArr (items : list json)
| JObj (members : list (string * json)).   (* a dict: insertion order, keys distinct *)

Module PyDict.

(** [d.get(k)] on the members of a dict. *)
Fixpoint lookup (k : string) (d : list (string * json)) : option json :=
  match d with
  | [] => None
  | (k', v) :: r => if String.eqb k k' then Some v else lookup k r
  end.

(** [d[k] = v]: overwrite in place, or append a new key. *)
Fixpoint set (k : string) (v : json) (d : list (string * json))
  : list (string * json) :=
  match d with
  | [] => [(k, v)]
  | (k', v') :: r =>
      if String.eqb k k' then (k', v) :: r else (k', v') :: set k v r
  end.

End PyDict.

(** ** The regular expression of jsonhelper.py

    [re.search(r'\{.*\}', s, re.DOTALL)]: the leftmost match starts at the
    first '{' that has a '}' after it, and the greedy [.*] (DOTALL: any
    character) carries the match to the last '}' of the input. *)

Module Re.

(** The suffix of [s] that starts at its first '{'. *)
Fixpoint from_first_open (s : string) : option string :=
  match s with
  | EmptyString => None
  | String a r =>
      if Ascii.eqb a "{" then Some s else from_first_open r
  end.

(** The longest prefix of [s] that ends in '}'. *)
Fixpoint upto_last_close (s : string) : option string :=
  match s with
  | EmptyString => None
  | String a r =>
      match upto_last_close r with
      | Some t => Some (String a t)
      | None => if Ascii.eqb a "}" then Some (String a EmptyString) else None
      end
  end.

(** [json_match.group()] when the search succeeds. *)
Definition search_braces (s : string) : option string :=
  match from_first_open s with
  | Some t => upto_last_close t
  | None => None
  end.

End Re.

(** ** A reference decoder for [json.loads]

    The workflow is parametric in the decoder (see [Env] below); this one
    follows json/decoder.py and json/scanner.py of CPython and is what the
    concrete runs use.  A [JSONDecodeError] keeps the head of its message;
    the ": line L column C (char P)" suffix CPython appends is left out. *)

Inductive loads_result : Type :=
| Decoded (v : json)
| JSONDecodeError (msg : string)
| OtherError (msg : string).

Module Json.

Definition res (A : Type) : Type := (string + A)%type.

Definition is_ws (a : ascii) : bool :=
  Ascii.eqb a " " || Ascii.eqb a PyStr.TAB
  || Ascii.eqb a PyStr.LF || Ascii.eqb a PyStr.CR.

Fixpoint skip_ws (s : string) : string :=
  match s with
  | String a r => if is_ws a then skip_ws r else s
  | EmptyString => s
  end.

Definition is_digit (a : ascii) : bool :=
  let n := nat_of_ascii a in (48 <=? n)%nat && (n <=? 57)%nat.

Definition digit_val (a : ascii) : Z := Z.of_nat (nat_of_ascii a) - 48.

(** The leading run of digits of [s], and what follows it. *)
Fixpoint span_digits (s : string) : string * string :=
  match s with
  | String a r =>
      if is_digit a then
        let (d, t) := span_digits r in (String a d, t)
      else (EmptyString, s)
  | EmptyString => (EmptyString, EmptyString)
  end.

Fixpoint digits_value (acc : Z) (d : string) : Z :=
  match d with
  | EmptyString => acc
  | String a r => digits_value (10 * acc + digit_val a) r
  end.

(** The integer part of NUMBER_RE at the head of [s]: a single 0, or a
    non-zero digit followed by digits. *)
Definition int_part (s : string) : option (string * string) :=
  match s with
  | String a r =>
      if Ascii.eqb a "0" then Some ("0", r)
      else if is_digit a then Some (span_digits s)
      else None
  | EmptyString => None
  end.

(** The optional fraction of NUMBER_RE: a dot and at least one digit. *)
Definition frac_part (s : string) : string * string :=
  match s with
  | String "." r =>
      match span_digits r with
      | (EmptyString, _) => (EmptyString, s)
      | (d, t) => (String "." d, t)
      end
  | _ => (EmptyString, s)
  end.

(** The optional exponent of NUMBER_RE: e or E, an optional sign and at
    least one digit. *)
Definition exp_part (s : string) : string * string :=
  match s with
  | String e r =>
      if Ascii.eqb e "e" || Ascii.eqb e "E" then
        let (sign, r') :=
          match r with
          | String c r'' =>
              if Ascii.eqb c "+" || Ascii.eqb c "-"
              then (String c EmptyString, r'') else (EmptyString, r)
          | EmptyString => (EmptyString, r)
          end in
        match span_digits r' with
        | (EmptyString, _) => (EmptyString, s)
        | (d, t) => (String e (sign ++ d), t)
        end
      else (EmptyString, s)
  | EmptyString => (EmptyString, s)
  end.

(** NUMBER_RE of scanner.py: an [int] without fraction and exponent, a
    [float] otherwise. *)
Definition scan_number (s : string) : option (json * string) :=
  let (neg, body) :=
    match s with
    | String "-" r => (true, r)
    | _ => (false, s)
    end in
  match int_part body with
  | None => None
  | Some (i, r1) =>
      let (f, r2) := frac_part r1 in
      let (e, r3) := exp_part r2 in
      let sign := if neg then "-" else "" in
      match f, e with
      | EmptyString, EmptyString =>
          let v := digits_value 0 i in
          Some (JInt (if neg then - v else v), r3)
      | _, _ => Some (JFloat (sign ++ i ++ f ++ e), r3)
      end
  end.

Definition hex_val (a : ascii) : option N :=
  let n := N_of_ascii a in
  if (48 <=? n)%N && (n <=? 57)%N then Some (n - 48)%N
  else if (97 <=? n)%N && (n <=? 102)%N then Some (n - 87)%N
  else if (65 <=? n)%N && (n <=? 70)%N then Some (n - 55)%N
  else None.

(** [_decode_uXXXX]: four hexadecimal digits. *)
Definition decode_uXXXX (s : string) : option (N * string) :=
  match s with
  | String a (String b (String c (String d r))) =>
      match hex_val a, hex_val b, hex_val c, hex_val d with
      | Some x, Some y, Some z, Some w =>
          Some ((((x * 16 + y) * 16 + z) * 16 + w)%N, r)
      | _, _, _, _ => None
      end
  | _ => None
  end.

(** [chr(n)], as UTF-8 bytes. *)
Definition chr (n : N) : string :=
  let b (k : N) := ascii_of_N k in
  let cont (k : N) := b (128 + k mod 64)%N in
  if (n <? 128)%N then String (b n) EmptyString
  else if (n <? 2048)%N then
    String (b (192 + n / 64)%N) (String (cont n) EmptyString)
  else if (n <? 65536)%N then
    String (b (224 + n / 4096)%N)
      (String (cont (n / 64)%N) (String (cont n) EmptyString))
  else
    String (b (240 + n / 262144)%N)
      (String (cont (n / 4096)%N)
         (String (cont (n / 64)%N) (String (cont n) EmptyString))).

(** BACKSLASH of decoder.py. *)
Definition simple_escape (a : ascii) : option ascii :=
  if Ascii.eqb a PyStr.DQUOTE then Some PyStr.DQUOTE
  else if Ascii.eqb a PyStr.BACKSLASH then Some PyStr.BACKSLASH
  else if Ascii.eqb a "/" then Some "/"%char
  else if Ascii.eqb a "b" then Some "008"%char
  else if Ascii.eqb a "f" then Some "012"%char
  else if Ascii.eqb a "n" then Some PyStr.LF
  else if Ascii.eqb a "r" then Some PyStr.CR
  else if Ascii.eqb a "t" then Some PyStr.TAB
  else None.

(** [scanstring(s, end, strict=True)], entered after the opening quote. *)
Fixpoint scanstring (fuel : nat) (s : string) : res (string * string) :=
  match fuel with
  | O => inl "Unterminated string starting at"
  | S fuel' =>
      match s with
      | EmptyString => inl "Unterminated string starting at"
      | String a r =>
          if Ascii.eqb a PyStr.DQUOTE then inr (EmptyString, r)
          else if Ascii.eqb a PyStr.BACKSLASH then
            match r with
            | EmptyString => inl "Unterminated string starting at"
            | String e r' =>
                if Ascii.eqb e "u" then
                  match decode_uXXXX r' with
                  | None => inl "Invalid \uXXXX escape"
                  | Some (u1, r1) =>
                      let plain :=
                        match scanstring fuel' r1 with
                        | inr (t, rest) => inr (chr u1 ++ t, rest)
                        | inl m => inl m
                        end in
                      if (55296 <=? u1)%N && (u1 <=? 56319)%N then
                        match r1 with
                        | String b1 (String b2 r2) =>
                            if negb (Ascii.eqb b1 PyStr.BACKSLASH
                                     && Ascii.eqb b2 "u") then plain
                            else
                            match decode_uXXXX r2 with
                            | None => inl "Invalid \uXXXX escape"
                            | Some (u2, r3) =>
                                if (56320 <=? u2)%N && (u2 <=? 57343)%N then
                                  let u := (65536 + ((u1 - 55296) * 1024
                                                     + (u2 - 56320)))%N in
                                  match scanstring (Nat.pred fuel') r3 with
                                  | inr (t, rest) => inr (chr u ++ t, rest)
                                  | inl m => inl m
                                  end
                                else plain
                            end
                        | _ => plain
                        end
                      else plain
                  end
                else
                  match simple_escape e with
                  | None => inl "Invalid \escape"
                  | Some c =>
                      match scanstring fuel' r' with
                      | inr (t, rest) => inr (String c t, rest)
                      | inl m => inl m
                      end
                  end
            end
          else if (nat_of_ascii a <? 32)%nat then
            inl "Invalid control character at"
          else
            match scanstring fuel' r with
            | inr (t, rest) => inr (String a t, rest)
            | inl m => inl m
            end
      end
  end.

(** [s[idx:idx+len(p)] == p]: what follows the prefix [p] of [s]. *)
Fixpoint strip_prefix (p s : string) : option string :=
  match p, s with
  | EmptyString, _ => Some s
  | String a p', String b s' =>
      if Ascii.eqb a b then strip_prefix p' s' else None
  | String _ _, EmptyString => None
  end.

(** The literals and numbers of [_scan_once], tried in its order. *)
Definition scan_atom (s : string) : res (json * string) :=
  match strip_prefix "null" s with
  | Some r => inr (JNull, r)
  | None =>
  match strip_prefix "true" s with
  | Some r => inr (JBool true, r)
  | None =>
  match strip_prefix "false" s with
  | Some r => inr (JBool false, r)
  | None =>
  match scan_number s with
  | Some vr => inr vr
  | None =>
  match strip_prefix "NaN" s with
  | Some r => inr (JFloat "NaN", r)
  | None =>
  match strip_prefix "Infinity" s with
  | Some r => inr (JFloat "Infinity", r)
  | None =>
  match strip_prefix "-Infinity" s with
  | Some r => inr (JFloat "-Infinity", r)
  | None => inl "Expecting value"
  end end end end end end end.

(** [_scan_once], [JSONObject] and [JSONArray].  [members] is entered
    after the opening quote of a key, [elements] at the start of a value;
    [fuel] bounds the number of nested calls and [loads] passes the length
    of the document. *)
Fixpoint scan_once (fuel : nat) (s : string) {struct fuel}
  : res (json * string) :=
  match fuel with
  | O => inl "Expecting value"
  | S fuel' =>
      match s with
      | EmptyString => inl "Expecting value"
      | String a r =>
          if Ascii.eqb a PyStr.DQUOTE then
            match scanstring (S (String.length r)) r with
            | inr (t, rest) => inr (JStr t, rest)
            | inl m => inl m
            end
          else if Ascii.eqb a "{" then
            match skip_ws r with
            | String b r' =>
                if Ascii.eqb b "}" then inr (JObj [], r')
                else if Ascii.eqb b PyStr.DQUOTE then members fuel' r' []
                else inl "Expecting property name enclosed in double quotes"
            | EmptyString =>
                inl "Expecting property name enclosed in double quotes"
            end
          else if Ascii.eqb a "[" then
            match skip_ws r with
            | String b r' =>
                if Ascii.eqb b "]" then inr (JArr [], r')
                else elements fuel' (String b r') []
            | EmptyString => inl "Expecting value"
            end
          else scan_atom s
      end
  end
with members (fuel : nat) (s : string) (acc : list (string * json))
       {struct fuel} : res (json * string) :=
  match fuel with
  | O => inl "Expecting value"
  | S fuel' =>
      match scanstring (S (String.length s)) s with
      | inl m => inl m
      | inr (key, r0) =>
          match skip_ws r0 with
          | String c r1 =>
              if negb (Ascii.eqb c ":") then inl "Expecting ':' delimiter"
              else
                match scan_once fuel' (skip_ws r1) with
                | inl m => inl m
                | inr (v, r2) =>
                    let acc' := PyDict.set key v acc in
                    match skip_ws r2 with
                    | String d r3 =>
                        if Ascii.eqb d "}" then inr (JObj acc', r3)
                        else if Ascii.eqb d "," then
                          match skip_ws r3 with
                          | String q r4 =>
                              if Ascii.eqb q PyStr.DQUOTE
                              then members fuel' r4 acc'
                              else inl "Expecting property name enclosed in double quotes"
                          | EmptyString =>
                              inl "Expecting property name enclosed in double quotes"
                          end
                        else inl "Expecting ',' delimiter"
                    | EmptyString => inl "Expecting ',' delimiter"
                    end
                end
          | EmptyString => inl "Expecting ':' delimiter"
          end
      end
  end
with elements (fuel : nat) (s : string) (acc : list json)
       {struct fuel} : res (json * string) :=
  match fuel with
  | O => inl "Expecting value"
  | S fuel' =>
      match scan_once fuel' s with
      | inl m => inl m
      | inr (v, r0) =>
          match skip_ws r0 with
          | String d r1 =>
              if Ascii.eqb d "]" then inr (JArr (acc ++ [v]), r1)
              else if Ascii.eqb d "," then elements fuel' (skip_ws r1) (acc ++ [v])
              else inl "Expecting ',' delimiter"
          | EmptyString => inl "Expecting ',' delimiter"
          end
      end
  end.

(** [json.loads(s)]: one value, surrounded by white space only. *)
Definition loads (s : string) : loads_result :=
  match scan_once (S (String.length s)) (skip_ws s) with
  | inl m => JSONDecodeError m
  | inr (v, r) =>
      match skip_ws r with
      | EmptyString => Decoded v
      | String _ _ => JSONDecodeError "Extra data"
      end
  end.

End Json.

(** ** Python exceptions and dynamic operations on decoded values *)

(** An exception: its class and [str(e)]. *)
Inductive exn : Type := Exception (cls : string) (msg : string).

Definition str_of_exn (e : exn) : string :=
  match e with Exception _ m => m end.

Definition ValueError (m : string) : exn := Exception "ValueError" m.
Definition TypeError (m : string) : exn := Exception "TypeError" m.
Definition AttributeError (m : string) : exn := Exception "AttributeError" m.
(** [str(KeyError(k))] is the repr of the key. *)
Definition KeyError (k : string) : exn := Exception "KeyError" ("'" ++ k ++ "'").

Module Py.

Definition type_name (v : json) : string :=
  match v with
  | JNull => "NoneType" | JBool _ => "bool" | JInt _ => "int"
  | JFloat _ => "float" | JStr _ => "str" | JArr _ => "list"
  | JObj _ => "dict"
  end.

(** [v.get(k, default)]: only a dict has [get]. *)
Definition get (v : json) (k : string) (default : json) : exn + json :=
  match v with
  | JObj d =>
      inr (match PyDict.lookup k d with Some x => x | None => default end)
  | _ => inl (AttributeError
                ("'" ++ type_name v ++ "' object has no attribute 'get'"))
  end.

Fixpoint chars (s : string) : list json :=
  match s with
  | EmptyString => []
  | String a r => JStr (String a EmptyString) :: chars r
  end.

(** [for x in v]: a list yields its items, a dict its keys, a str its
    characters; the other values are not iterable. *)
Definition iter (v : json) : exn + list json :=
  match v with
  | JArr l => inr l
  | JObj d => inr (map (fun kv => JStr (fst kv)) d)
  | JStr s => inr (chars s)
  | _ => inl (TypeError ("'" ++ type_name v ++ "' object is not iterable"))
  end.

(** [v[k]] for a str key [k]. *)
Definition getitem (v : json) (k : string) : exn + json :=
  match v with
  | JObj d =>
      match PyDict.lookup k d with
      | Some x => inr x
      | None => inl (KeyError k)
      end
  | JArr _ =>
      inl (TypeError "list indices must be integers or slices, not str")
  | JStr _ => inl (TypeError "string indices must be integers, not 'str'")
  | _ => inl (TypeError ("'" ++ type_name v ++ "' object is not subscriptable"))
  end.

End Py.

(** ** jsonhelper.py and the sanitization of generate_post *)

Definition HASHTAG : string := "(Hashtag)".

(** [raw.replace('\n',' ').replace('\r',' ').replace('\t',' ')
        .replace('#','(Hashtag)')] *)
Definition sanitize (raw : string) : string :=
  PyStr.replace "#" HASHTAG
    (PyStr.replace PyStr.TAB " "
       (PyStr.replace PyStr.CR " "
          (PyStr.replace PyStr.LF " " raw))).

Section JsonHelper.

(** [json.loads], a library function. *)
Variable json_loads : string -> loads_result.

(** The [ValueError] raised when nothing matches is raised inside the
    [try] and caught by its [except Exception], which wraps it once more;
    the [ValueError] raised by the [JSONDecodeError] handler leaves the
    function as it is. *)
Definition parse_json_from_string (input_string : string) : exn + json :=
  match Re.search_braces input_string with
  | Some m =>
      match json_loads m with
      | Decoded json_data => inr json_data
      | JSONDecodeError e => inl (ValueError ("Failed to decode JSON: " ++ e))
      | OtherError e => inl (ValueError ("An error occurred: " ++ e))
      end
  | None =>
      inl (ValueError ("An error occurred: "
                       ++ "No JSON object found in the input string."))
  end.

End JsonHelper.

(** ** database/post_models.py *)

Inductive DataSourceType : Type := TEXT | LINK.

Inductive MediaType : Type := IMAGE | VIDEO | BOTH | NONE.

Inductive PostStatus : Type :=
| PENDING | PROCESSING_CONTEXT | GENERATING_TEXT | GENERATING_MEDIA
| COMPLETED | FAILED.

Inductive ContentType : Type := LONG_FORM | SHORT_FORM.

Definition DataSourceType_value (t : DataSourceType) : string :=
  match t with TEXT => "text" | LINK => "link" end.

Definition MediaType_value (t : MediaType) : string :=
  match t with
  | IMAGE => "image" | VIDEO => "video" | BOTH => "both" | NONE => "none"
  end.

Definition PostStatus_value (s : PostStatus) : string :=
  match s with
  | PENDING => "pending"
  | PROCESSING_CONTEXT => "processing_context"
  | GENERATING_TEXT => "generating_text"
  | GENERATING_MEDIA => "generating_media"
  | COMPLETED => "completed"
  | FAILED => "failed"
  end.

Definition ContentType_value (c : ContentType) : string :=
  match c with LONG_FORM => "LongForm" | SHORT_FORM => "ShortForm" end.

(** [DataSourceType(s)], [MediaType(s)] and [ContentType(s)]: the member
    with this value; Python raises ValueError when there is none. *)
Definition DataSourceType_of_value (s : string) : option DataSourceType :=
  if String.eqb s "text" then Some TEXT
  else if String.eqb s "link" then Some LINK
  else None.

Definition MediaType_of_value (s : string) : option MediaType :=
  if String.eqb s "image" then Some IMAGE
  else if String.eqb s "video" then Some VIDEO
  else if String.eqb s "both" then Some BOTH
  else if String.eqb s "none" then Some NONE
  else None.

Definition ContentType_of_value (s : string) : option ContentType :=
  if String.eqb s "LongForm" then Some LONG_FORM
  else if String.eqb s "ShortForm" then Some SHORT_FORM
  else None.

Definition PostStatus_eqb (a b : PostStatus) : bool :=
  match a, b with
  | PENDING, PENDING | PROCESSING_CONTEXT, PROCESSING_CONTEXT
  | GENERATING_TEXT, GENERATING_TEXT | GENERATING_MEDIA, GENERATING_MEDIA
  | COMPLETED, COMPLETED | FAILED, FAILED => true
  | _, _ => false
  end.

(** A [datetime] is a number of clock ticks. *)
Definition datetime : Type := Z.

(** The rows; [created_at] of the child tables and [session_id] of a post
    play no part in the workflow and are left out. *)

Module Post.
Record t : Type := mk {
  id : string;
  language_tone : string;
  media_content_needed : MediaType;
  content_type : ContentType;
  text_variations_count : Z;
  media_variations_count : Z;
  status : PostStatus;
  error_message : option string;
  current_step : option string;
  created_at : option datetime;
  started_at : option datetime;
  completed_at : option datetime
}.

Definition set_status (s : PostStatus) (p : t) : t :=
  mk (id p) (language_tone p) (media_content_needed p) (content_type p)
     (text_variations_count p) (media_variations_count p) s
     (error_message p) (current_step p) (created_at p) (started_at p)
     (completed_at p).

Definition set_error_message (e : option string) (p : t) : t :=
  mk (id p) (language_tone p) (media_content_needed p) (content_type p)
     (text_variations_count p) (media_variations_count p) (status p)
     e (current_step p) (created_at p) (started_at p) (completed_at p).

Definition set_current_step (c : option string) (p : t) : t :=
  mk (id p) (language_tone p) (media_content_needed p) (content_type p)
     (text_variations_count p) (media_variations_count p) (status p)
     (error_message p) c (created_at p) (started_at p) (completed_at p).

Definition set_started_at (d : option datetime) (p : t) : t :=
  mk (id p) (language_tone p) (media_content_needed p) (content_type p)
     (text_variations_count p) (media_variations_count p) (status p)
     (error_message p) (current_step p) (created_at p) d (completed_at p).

Definition set_completed_at (d : option datetime) (p : t) : t :=
  mk (id p) (language_tone p) (media_content_needed p) (content_type p)
     (text_variations_count p) (media_variations_count p) (status p)
     (error_message p) (current_step p) (created_at p) (started_at p) d.
End Post.

Module DataSource.
Record t : Type := mk {
  id : string;
  post_id : string;
  source_type : DataSourceType;
  content : string;
  is_valid : bool;
  extracted_text : option string
}.
End DataSource.

Module TextVariation.
Record t : Type := mk {
  id : string;
  post_id : string;
  variation_number : Z;
  text_content : string;
  image_generation_prompts : option json;
  is_selected : bool
}.

Definition set_is_selected (b : bool) (v : t) : t :=
  mk (id v) (post_id v) (variation_number v) (text_content v)
     (image_generation_prompts v) b.
End TextVariation.

Module MediaContent.
Record t : Type := mk {
  id : string;
  post_id : string;
  media_type : MediaType;
  variation_number : Z;
  file_path : option string;
  generation_prompt : option string;
  is_selected : bool
}.

Definition set_is_selected (b : bool) (m : t) : t :=
  mk (id m) (post_id m) (media_type m) (variation_number m) (file_path m)
     (generation_prompt m) b.
End MediaContent.

Module PostSelection.
Record t : Type := mk {
  id : string;
  post_id : string;             (* unique *)
  text_variation_id : string
}.
End PostSelection.

Module SelectedMedia.
Record t : Type := mk {
  id : string;
  selection_id : string;
  media_content_id : string
}.
End SelectedMedia.

Module UnwantedMedia.
Record t : Type := mk {
  id : string;
  media_content_id : string;
  file_path : string;           (* nullable=False *)
  post_id : string;
  marked_at : datetime
}.
End UnwantedMedia.

(** The committed state of the database. *)
Record DB : Type := mkDB {
  posts : list Post.t;
  data_sources : list DataSource.t;
  text_variations : list TextVariation.t;
  media_contents : list MediaContent.t;
  post_selections : list PostSelection.t;
  selected_media : list SelectedMedia.t;
  unwanted_media : list UnwantedMedia.t
}.

Definition set_posts (x : list Post.t) (db : DB) : DB :=
  mkDB x (data_sources db) (text_variations db) (media_contents db)
       (post_selections db) (selected_media db) (unwanted_media db).

Definition set_text_variations (x : list TextVariation.t) (db : DB) : DB :=
  mkDB (posts db) (data_sources db) x (media_contents db)
       (post_selections db) (selected_media db) (unwanted_media db).

Definition set_media_contents (x : list MediaContent.t) (db : DB) : DB :=
  mkDB (posts db) (data_sources db) (text_variations db) x
       (post_selections db) (selected_media db) (unwanted_media db).

Definition set_post_selections (x : list PostSelection.t) (db : DB) : DB :=
  mkDB (posts db) (data_sources db) (text_variations db) (media_contents db)
       x (selected_media db) (unwanted_media db).

Definition set_selected_media (x : list SelectedMedia.t) (db : DB) : DB :=
  mkDB (posts db) (data_sources db) (text_variations db) (media_contents db)
       (post_selections db) x (unwanted_media db).

Definition set_unwanted_media (x : list UnwantedMedia.t) (db : DB) : DB :=
  mkDB (posts db) (data_sources db) (text_variations db) (media_contents db)
       (post_selections db) (selected_media db) x.

(** [query.first()] and the change of the object it returned. *)
Fixpoint update_first {A : Type} (test : A -> bool) (f : A -> A) (l : list A)
  : list A :=
  match l with
  | [] => []
  | x :: r => if test x then f x :: r else x :: update_first test f r
  end.

(** [db.delete(obj)] of the object [query.first()] returned. *)
Fixpoint remove_first {A : Type} (test : A -> bool) (l : list A) : list A :=
  match l with
  | [] => []
  | x :: r => if test x then r else x :: remove_first test r
  end.

(** [query.filter(...).update(...)]: every matching row. *)
Definition update_where {A : Type} (test : A -> bool) (f : A -> A) (l : list A)
  : list A :=
  map (fun x => if test x then f x else x) l.

(** ** services/post_service.py

    Every method is a transaction on the committed [DB]: it returns its
    result and the state it leaves committed.  The inputs the methods draw
    from outside are arguments: the [uuid4()] values ([new_id], or the
    stream [uuid4] when several are drawn) and the reading [now] of
    [datetime.utcnow()].

    A [SQLAlchemyError] arises where a statement violates a constraint of
    post_models.py: NOT NULL, the UNIQUE of [post_selections.post_id], a
    column type, and, when the engine enforces them ([foreign_keys]; SQLite
    does not unless asked), the foreign keys.  Primary keys are not checked:
    [uuid4()] is taken to be fresh, as the code takes it. *)

(** A value bound to an [Integer] column: an [int]; anything else is
    refused by the statement (JSON null by NOT NULL). *)
Definition bind_integer (v : json) : option Z :=
  match v with JInt n => Some n | _ => None end.

(** A value bound to a [Text] column: a [str]. *)
Definition bind_text (v : json) : option string :=
  match v with JStr s => Some s | _ => None end.

(** [str(x)] for an [Optional[str]]. *)
Definition str_of_optional (x : option string) : string :=
  match x with Some s => s | None => "None" end.

Definition or_empty (l : option (list string)) : list string :=
  match l with Some x => x | None => [] end.

(** [order_by(key)]. *)
Fixpoint insert_by {A : Type} (key : A -> Z) (x : A) (l : list A) : list A :=
  match l with
  | [] => [x]
  | y :: r => if (key x <=? key y)%Z then x :: l else y :: insert_by key x r
  end.

Definition order_by {A : Type} (key : A -> Z) (l : list A) : list A :=
  fold_right (insert_by key) [] l.

Module PostService.
Section Engine.

(** Whether the database engine enforces FOREIGN KEY constraints. *)
Variable foreign_keys : bool.

Definition fk_ok (present : bool) : bool := negb foreign_keys || present.

Definition is_post (post_id : string) (p : Post.t) : bool :=
  String.eqb (Post.id p) post_id.

(** [db.query(Post).filter(Post.id == post_id).first()] *)
Definition find_post (db : DB) (post_id : string) : option Post.t :=
  find (is_post post_id) (posts db).

(** [source[k]] on a [Dict[str, str]]. *)
Fixpoint dict_get (k : string) (d : list (string * string)) : option string :=
  match d with
  | [] => None
  | (k', v) :: r => if String.eqb k k' then Some v else dict_get k r
  end.

(** The loop of [create_post] over the data sources: the rows it adds to
    the session, with the second, third, ... uuid drawn, or the exception
    that ends it (an unknown type, a missing key). *)
Fixpoint source_rows (uuid4 : nat -> string) (k : nat) (post_id : string)
    (sources : list (list (string * string))) : exn + list DataSource.t :=
  match sources with
  | [] => inr []
  | source :: r =>
      match dict_get "type" source with
      | None => inl (KeyError "type")
      | Some ty =>
          match DataSourceType_of_value ty with
          | None =>
              inl (ValueError ("'" ++ ty ++ "' is not a valid DataSourceType"))
          | Some source_type =>
              match dict_get "content" source with
              | None => inl (KeyError "content")
              | Some content =>
                  match source_rows uuid4 (S k) post_id r with
                  | inl e => inl e
                  | inr rows =>
                      inr (DataSource.mk (uuid4 k) post_id source_type content
                             false None :: rows)
                  end
              end
          end
      end
  end.

(** [create_post], the counts given as ints.  An exception other than a
    [SQLAlchemyError] leaves the method before the commit, and the session
    is closed with nothing written; the result is then the exception
    alone. *)
Definition create_post (db : DB) (uuid4 : nat -> string) (now : datetime)
    (data_sources_in : list (list (string * string)))
    (language_tone media_content_needed content_type : string)
    (text_variations_count media_variations_count : Z)
  : exn + Post.t * DB :=
  let post_id := uuid4 O in
  match MediaType_of_value media_content_needed with
  | None =>
      inl (ValueError ("'" ++ media_content_needed
                       ++ "' is not a valid MediaType"))
  | Some media =>
      match ContentType_of_value content_type with
      | None =>
          inl (ValueError ("'" ++ content_type
                           ++ "' is not a valid ContentType"))
      | Some ct =>
          let post :=
            Post.mk post_id language_tone media ct text_variations_count
              media_variations_count PENDING None None (Some now) None None in
          match source_rows uuid4 1 post_id data_sources_in with
          | inl e => inl e
          | inr rows =>
              inr (post,
                   mkDB (posts db ++ [post])%list
                     (data_sources db ++ rows)%list
                     (text_variations db) (media_contents db)
                     (post_selections db) (selected_media db)
                     (unwanted_media db))
          end
      end
  end.

Definition get_post (db : DB) (post_id : string) : option Post.t :=
  find_post db post_id.

Definition clear_progress_messages (db : DB) (post_id : string) : DB :=
  set_posts
    (update_first (is_post post_id) (Post.set_current_step None) (posts db))
    db.

(** Whether a selection refers to a text variation of the post, and a
    selected media row to one of its media rows: the two foreign keys into
    these tables, neither with an ON DELETE action. *)
Definition text_referenced (db : DB) (post_id : string) : bool :=
  existsb
    (fun v =>
       String.eqb (TextVariation.post_id v) post_id
       && existsb
            (fun s => String.eqb (PostSelection.text_variation_id s)
                        (TextVariation.id v))
            (post_selections db))
    (text_variations db).

Definition media_referenced (db : DB) (post_id : string) : bool :=
  existsb
    (fun m =>
       String.eqb (MediaContent.post_id m) post_id
       && existsb
            (fun s => String.eqb (SelectedMedia.media_content_id s)
                        (MediaContent.id m))
            (selected_media db))
    (media_contents db).

(** [query.filter(...).delete(); db.commit()]: one DELETE statement; where
    the engine enforces the foreign keys and a row to delete is referred
    to, the statement fails, the handler rolls back and nothing is
    deleted. *)
Definition delete_text_variations (db : DB) (post_id : string) : DB :=
  if foreign_keys && text_referenced db post_id then db
  else
    set_text_variations
      (filter (fun v => negb (String.eqb (TextVariation.post_id v) post_id))
         (text_variations db))
      db.

Definition delete_media_contents (db : DB) (post_id : string) : DB :=
  if foreign_keys && media_referenced db post_id then db
  else
    set_media_contents
      (filter (fun m => negb (String.eqb (MediaContent.post_id m) post_id))
         (media_contents db))
      db.

(** The assignments [update_post_status] makes on the post object. *)
Definition assign_status (status : PostStatus)
    (current_step error_message : option string) (now : datetime)
    (post : Post.t) : Post.t :=
  let post := Post.set_status status post in
  let post :=
    match current_step with
    | Some _ => Post.set_current_step current_step post
    | None => post
    end in
  let post :=
    match error_message with
    | Some _ => Post.set_error_message error_message post
    | None => post
    end in
  match status with
  | PROCESSING_CONTEXT =>
      match Post.started_at post with
      | None => Post.set_started_at (Some now) post
      | Some _ => post
      end
  | COMPLETED | FAILED => Post.set_completed_at (Some now) post
  | _ => post
  end.

Definition update_post_status (db : DB) (post_id : string)
    (status : PostStatus) (current_step error_message : option string)
    (now : datetime) : bool * DB :=
  match find_post db post_id with
  | None => (false, db)
  | Some _ =>
      (true,
       set_posts
         (update_first (is_post post_id)
            (assign_status status current_step error_message now)
            (posts db))
         db)
  end.

Definition post_exists (db : DB) (post_id : string) : bool :=
  existsb (is_post post_id) (posts db).

(** The engine hands over the decoded JSON values as they are. *)
Definition add_text_variation (db : DB) (new_id post_id : string)
    (variation_number text_content : json)
    (image_generation_prompts : option json) : option string * DB :=
  match bind_integer variation_number, bind_text text_content with
  | Some n, Some t =>
      if fk_ok (post_exists db post_id) then
        (Some new_id,
         set_text_variations
           (text_variations db
            ++ [TextVariation.mk new_id post_id n t
                  image_generation_prompts false])
           db)
      else (None, db)
  | _, _ => (None, db)
  end.

Definition add_media_content (db : DB) (new_id post_id : string)
    (media_type : MediaType) (variation_number : Z)
    (file_path generation_prompt : option string) : option string * DB :=
  if fk_ok (post_exists db post_id) then
    (Some new_id,
     set_media_contents
       (media_contents db
        ++ [MediaContent.mk new_id post_id media_type variation_number
              file_path generation_prompt false])
       db)
  else (None, db).

Definition selection_of (post_id : string) (s : PostSelection.t) : bool :=
  String.eqb (PostSelection.post_id s) post_id.

(** [db.delete(existing); db.commit()], with the delete-orphan cascade on
    [selected_media]. *)
Definition delete_existing_selection (db : DB) (post_id : string) : DB :=
  match find (selection_of post_id) (post_selections db) with
  | Some existing =>
      set_selected_media
        (filter
           (fun m => negb (String.eqb (SelectedMedia.selection_id m)
                             (PostSelection.id existing)))
           (selected_media db))
        (set_post_selections
           (remove_first (selection_of post_id) (post_selections db)) db)
  | None => db
  end.

(** The [SelectedMedia] rows, with the second, third, ... uuid drawn. *)
Fixpoint selected_rows (uuid4 : nat -> string) (k : nat)
    (selection_id : string) (ids : list string) : list SelectedMedia.t :=
  match ids with
  | [] => []
  | media_id :: r =>
      SelectedMedia.mk (uuid4 k) selection_id media_id
      :: selected_rows uuid4 (S k) selection_id r
  end.

(** [media.id not in (all_selected_ids or []) and str(media.file_path)] *)
Definition is_unwanted (all_selected_ids : list string)
    (media : MediaContent.t) : bool :=
  negb (PyStr.mem_list (MediaContent.id media) all_selected_ids)
  && PyStr.truthy (str_of_optional (MediaContent.file_path media)).

(** The [UnwantedMedia] rows of the loop; [None] when one of them has no
    [file_path] to store (NOT NULL fails at the commit). *)
Fixpoint unwanted_rows (uuid4 : nat -> string) (k : nat) (now : datetime)
    (post_id : string) (l : list MediaContent.t)
  : option (list UnwantedMedia.t) :=
  match l with
  | [] => Some []
  | media :: r =>
      match MediaContent.file_path media, unwanted_rows uuid4 (S k) now post_id r with
      | Some f, Some rows =>
          Some (UnwantedMedia.mk (uuid4 k) (MediaContent.id media) f
                  post_id now :: rows)
      | _, _ => None
      end
  end.

Definition media_exists (db : DB) (media_id : string) : bool :=
  existsb (fun m => String.eqb (MediaContent.id m) media_id)
    (media_contents db).

Definition text_variation_exists (db : DB) (tv_id : string) : bool :=
  existsb (fun v => String.eqb (TextVariation.id v) tv_id)
    (text_variations db).

Definition create_selection (db : DB) (uuid4 : nat -> string)
    (now : datetime) (post_id text_variation_id : string)
    (image_ids video_ids : option (list string))
  : option (string * nat) * DB :=
  (* the existing selection goes, and that is committed *)
  let db1 := delete_existing_selection db post_id in
  let selection := PostSelection.mk (uuid4 O) post_id text_variation_id in
  (* db.add(selection); db.flush() *)
  if negb (negb (existsb (selection_of post_id) (post_selections db1))
           && fk_ok (post_exists db1 post_id)
           && fk_ok (text_variation_exists db1 text_variation_id))
  then (None, db1)
  else
    let all_selected_ids := (or_empty image_ids ++ or_empty video_ids)%list in
    let selected :=
      selected_rows uuid4 1 (PostSelection.id selection) all_selected_ids in
    let tvs :=
      update_where
        (fun v => String.eqb (TextVariation.id v) text_variation_id)
        (TextVariation.set_is_selected true) (text_variations db1) in
    let mcs :=
      match all_selected_ids with
      | [] => media_contents db1
      | _ :: _ =>
          update_where
            (fun m => PyStr.mem_list (MediaContent.id m) all_selected_ids)
            (MediaContent.set_is_selected true) (media_contents db1)
      end in
    let unwanted :=
      match find_post db1 post_id with
      | Some _ =>
          filter (is_unwanted all_selected_ids)
            (filter
               (fun m => String.eqb (MediaContent.post_id m) post_id) mcs)
      | None => []
      end in
    let unwanted_count := List.length unwanted in
    (* db.commit() *)
    match unwanted_rows uuid4 (1 + List.length all_selected_ids) now post_id
            unwanted with
    | Some rows =>
        if forallb (fun i => fk_ok (media_exists db1 i)) all_selected_ids
        then
          (Some (PostSelection.id selection, unwanted_count),
           mkDB (posts db1) (data_sources db1) tvs mcs
             (post_selections db1 ++ [selection])%list
             (selected_media db1 ++ selected)%list
             (unwanted_media db1 ++ rows)%list)
        else (None, db1)
    | None => (None, db1)
    end.

Definition get_data_sources (db : DB) (post_id : string)
  : list DataSource.t :=
  filter (fun s => String.eqb (DataSource.post_id s) post_id)
    (data_sources db).

Definition get_text_variations (db : DB) (post_id : string)
  : list TextVariation.t :=
  order_by TextVariation.variation_number
    (filter (fun v => String.eqb (TextVariation.post_id v) post_id)
       (text_variations db)).

Definition get_media_contents (db : DB) (post_id : string)
  : list MediaContent.t :=
  order_by MediaContent.variation_number
    (filter (fun m => String.eqb (MediaContent.post_id m) post_id)
       (media_contents db)).

End Engine.
End PostService.

(** ** routes/posts.py: choose_variation and create_post *)

Module Routes.

(** A [ChooseVariationRequest] that passed its validators. *)
Record ChooseVariationRequest : Type := {
  text_variation_id : string;
  image_ids : list string;
  video_ids : list string
}.

Inductive response : Type :=
| ChooseVariationResponse (selection_id : string) (unwanted_media_count : nat)
| HTTPException (status_code : Z) (detail : string).

Definition choose_variation (foreign_keys : bool) (db : DB)
    (uuid4 : nat -> string) (now : datetime) (post_id : string)
    (request : ChooseVariationRequest) : response * DB :=
  match PostService.get_post db post_id with
  | None => (HTTPException 404 "Post not found", db)
  | Some post =>
      if negb (String.eqb (PostStatus_value (Post.status post)) "completed")
      then
        (HTTPException 400
           ("Post is not completed yet. Current status: "
            ++ PostStatus_value (Post.status post)), db)
      else
        match PostService.create_selection foreign_keys db uuid4 now post_id
                (text_variation_id request)
                (Some (image_ids request)) (Some (video_ids request)) with
        | (None, db') => (HTTPException 500 "Failed to create selection", db')
        | (Some (sid, n), db') => (ChooseVariationResponse sid n, db')
        end
  end.

(** The members of schemas_posts.py a [CreatePostRequest] is made of. *)
Inductive DataSourceTypeEnum : Type := DS_TEXT | DS_LINK.
Inductive MediaTypeEnum : Type := MT_IMAGE | MT_VIDEO | MT_BOTH | MT_NONE.
Inductive ContentTypeEnum : Type := CT_LONG_FORM | CT_SHORT_FORM.

Definition DataSourceTypeEnum_value (t : DataSourceTypeEnum) : string :=
  match t with DS_TEXT => "text" | DS_LINK => "link" end.

Definition MediaTypeEnum_value (t : MediaTypeEnum) : string :=
  match t with
  | MT_IMAGE => "image" | MT_VIDEO => "video" | MT_BOTH => "both"
  | MT_NONE => "none"
  end.

Definition ContentTypeEnum_value (t : ContentTypeEnum) : string :=
  match t with CT_LONG_FORM => "LongForm" | CT_SHORT_FORM => "ShortForm" end.

Record DataSourceInput : Type := {
  ds_type : DataSourceTypeEnum;
  ds_content : string
}.

(** A [CreatePostRequest] that passed its validators, with both counts
    given. *)
Record CreatePostRequest : Type := {
  cp_data_sources : list DataSourceInput;
  cp_language_tone : string;
  cp_media_content_needed : MediaTypeEnum;
  cp_content_type : ContentTypeEnum;
  cp_text_variations_count : Z;
  cp_media_variations_count : Z
}.

Inductive create_response : Type :=
| CreatePostResponse (post_id status message websocket_url : string)
| CreateHTTPException (status_code : Z) (detail : string).

Definition create_post (db : DB) (uuid4 : nat -> string) (now : datetime)
    (request : CreatePostRequest) : create_response * DB :=
  let data_sources :=
    map (fun ds => [("type", DataSourceTypeEnum_value (ds_type ds));
                    ("content", ds_content ds)])
      (cp_data_sources request) in
  match PostService.create_post db uuid4 now data_sources
          (cp_language_tone request)
          (MediaTypeEnum_value (cp_media_content_needed request))
          (ContentTypeEnum_value (cp_content_type request))
          (cp_text_variations_count request)
          (cp_media_variations_count request) with
  | inr (post, db') =>
      (CreatePostResponse (Post.id post) (PostStatus_value (Post.status post))
         "Post created successfully. Connect to WebSocket for live updates."
         ("/api/posts/" ++ Post.id post ++ "/updates"),
       db')
  | inl (Exception cls msg) =>
      if String.eqb cls "ValueError"
      then (CreateHTTPException 400 msg, db)
      else (CreateHTTPException 500 "Internal server error", db)
  end.

End Routes.

(** ** prompts.py: the step descriptions *)

Module Prompts.

(** A template of [str.format]: literal text and [{name}] fields. *)
Inductive segment : Type := Lit (s : string) | Field (name : string).

Definition STEP_DESCRIPTIONS : list (string * list segment) :=
  [ ("initializing", [Lit "Initializing post generation process..."]);
    ("validating_sources", [Lit "Validating data sources..."]);
    ("extracting_context",
      [Lit "Extracting content from source #"; Field "source_num";
       Lit ": "; Field "source_type"; Lit "..."]);
    ("saving_context", [Lit "Saving extracted context..."]);
    ("opening_gemini", [Lit "Opening Google Gemini..."]);
    ("logging_in", [Lit "Logging into Google account..."]);
    ("creating_new_chat", [Lit "Creating new chat session..."]);
    ("uploading_context", [Lit "Uploading context file to Gemini..."]);
    ("generating_text",
      [Lit "Generating text variation #"; Field "variation_num"; Lit "..."]);
    ("extracting_text_response", [Lit "Extracting generated text content..."]);
    ("saving_text_variations", [Lit "Saving text variations to database..."]);
    ("generating_image",
      [Lit "Generating image variation #"; Field "variation_num";
       Lit " using prompt: "; Field "prompt"; Lit "..."]);
    ("saving_image", [Lit "Saving generated image..."]);
    ("finalizing", [Lit "Finalizing post generation..."]);
    ("completed",
      [Lit "Post generation completed successfully! "; Field "content"]);
    ("error", [Lit "Error occurred: "; Field "error_message"]) ].

Fixpoint assoc {A : Type} (k : string) (l : list (string * A)) : option A :=
  match l with
  | [] => None
  | (k', v) :: r => if String.eqb k k' then Some v else assoc k r
  end.

(** [template.format] on the keyword arguments; [None] is the [KeyError] of a field
    without argument.  The arguments come as their [str()]. *)
Fixpoint format (template : list segment) (kwargs : list (string * string))
  : option string :=
  match template with
  | [] => Some ""
  | Lit s :: r =>
      match format r kwargs with Some t => Some (s ++ t) | None => None end
  | Field n :: r =>
      match assoc n kwargs, format r kwargs with
      | Some v, Some t => Some (v ++ t)
      | _, _ => None
      end
  end.

(** The template as it is written. *)
Fixpoint source_text (template : list segment) : string :=
  match template with
  | [] => ""
  | Lit s :: r => s ++ source_text r
  | Field n :: r => "{" ++ n ++ "}" ++ source_text r
  end.

Definition get_step_description (step : string)
    (kwargs : list (string * string)) : string :=
  let template :=
    match assoc step STEP_DESCRIPTIONS with
    | Some t => t
    | None => [Lit ("Processing step: " ++ step)]
    end in
  match format template kwargs with
  | Some s => s
  | None => source_text template
  end.

End Prompts.

(** ** services/gemini_agent_service.py

    [generate_post] is a computation on a [world]: the committed database,
    the number of uuids drawn, the clock, and two records kept for the
    proofs, the calls that left the process together with the statuses
    written ([w_calls]) and the invocations of the progress callback
    ([w_sent]).  What the workflow calls outside the repository is gathered
    in [Env]; these services answer as functions of their arguments, and
    [trafilatura] signals a failure by [None], as its documentation says,
    not by an exception.  The database fails only where a constraint of
    post_models.py is violated (see PostService above). *)

(** What the workflow calls outside this repository. *)
Record Env : Type := {
  (** the values [uuid.uuid4()] returns, in the order they are drawn *)
  uuid4 : nat -> string;
  (** whether the database engine enforces foreign keys *)
  foreign_keys : bool;
  json_loads : string -> loads_result;
  (** [repr()] of a float, list or dict *)
  repr : json -> string;
  (** [trafilatura.fetch_url] and [trafilatura.extract] *)
  fetch_url : string -> option string;
  extract : string -> option string;
  (** huggingface_tool, freepik_tool and file_upload_service: a result, or
      the exception raised *)
  generate_text_response : string -> exn + string;
  generate_image_freepik : string -> string -> exn + string;
  upload_image_to_storage : string -> exn + string;
  (** [TEXT_AND_IMAGE_GENERATION_PROMPT_TEMPLATE.format(content_type,
      context, num_variations, image_num_variations, language_tone)] *)
  text_and_image_prompt : string -> string -> Z -> Z -> string -> string;
  (** [IMAGE_GENERATION_PROMPT_TEMPLATE.format(post_text, image_prompt)] *)
  image_generation_prompt : string -> string -> string;
  work_dir : string;
  (** [str()] of the dict [get_generated_post_content] returns *)
  str_of_content : list TextVariation.t -> list MediaContent.t -> string
}.

(** A call that leaves the process, or a status written to a post, in the
    order they happen. *)
Inductive call : Type :=
| FetchUrl (url : string)
| GenerateText (prompt : string)
| GenerateImage (prompt fileName : string)
| UploadImage (image_path : string)
| StatusWrite (post_id : string) (status : PostStatus).

(** One invocation of the progress callback. *)
Record delivery : Type := {
  d_step : string;
  d_message : string;
  d_raised : option exn
}.

Record world : Type := mkWorld {
  w_db : DB;
  w_uuids : nat;                 (* how many uuids were drawn *)
  w_now : datetime;              (* the clock *)
  w_calls : list call;
  w_sent : list delivery
}.

(** The progress callback: what its n-th invocation does with a step and a
    message, [None] for a normal return, [Some e] when it raises [e]. *)
Definition callback : Type := nat -> string -> string -> option exn.

(** Computations that change the world and may raise. *)
Definition M (A : Type) : Type := world -> (exn + A) * world.

Definition ret {A : Type} (x : A) : M A := fun w => (inr x, w).

Definition raise {A : Type} (e : exn) : M A := fun w => (inl e, w).

Definition bind {A B : Type} (m : M A) (k : A -> M B) : M B :=
  fun w =>
    match m w with
    | (inr x, w') => k x w'
    | (inl e, w') => (inl e, w')
    end.

(** [try: m except Exception as e: h e] *)
Definition try_except {A : Type} (m : M A) (h : exn -> M A) : M A :=
  fun w =>
    match m w with
    | (inl e, w') => h e w'
    | r => r
    end.

Definition lift {A : Type} (r : exn + A) : M A := fun w => (r, w).

Declare Scope m_scope.
Delimit Scope m_scope with m.
Notation "x <- m ;; k" := (bind m (fun x => k))
  (at level 61, m at next level, right associativity) : m_scope.
Notation "m ;; k" := (bind m (fun _ => k))
  (at level 61, right associativity) : m_scope.
Open Scope m_scope.

Definition set_db (db : DB) (w : world) : world :=
  mkWorld db (w_uuids w) (w_now w) (w_calls w) (w_sent w).

Definition record_call (c : call) (w : world) : world :=
  mkWorld (w_db w) (w_uuids w) (w_now w) (w_calls w ++ [c])%list (w_sent w).

Definition record_delivery (d : delivery) (w : world) : world :=
  mkWorld (w_db w) (w_uuids w) (w_now w) (w_calls w) (w_sent w ++ [d])%list.

Definition draw_uuid (w : world) : world :=
  mkWorld (w_db w) (S (w_uuids w)) (w_now w) (w_calls w) (w_sent w).

(** [str(v)] of a decoded value. *)
Definition py_str (env : Env) (v : json) : string :=
  match v with
  | JStr s => s
  | JInt n => PyStr.of_int n
  | JNull => "None"
  | JBool true => "True"
  | JBool false => "False"
  | _ => repr env v
  end.

Definition CONTENT_TYPE_MAP : list (string * string) :=
  [ ("LongForm",
     "The generated content should be a long form post suitable for blogs or articles.");
    ("ShortForm",
     "The generated content should be a short form post suitable for social media or quick reads.") ].

Module GeminiAgentService.
Section Service.

Variable env : Env.
Variable progress_callback : option callback.

(** [await callback(step, full_message)] *)
Definition invoke (f : callback) (step full_message : string) : M unit :=
  fun w =>
    match f (List.length (w_sent w)) step full_message with
    | None => (inr tt, record_delivery (Build_delivery step full_message None) w)
    | Some e =>
        (inl e, record_delivery (Build_delivery step full_message (Some e)) w)
    end.

Definition _send_progress (step message : string)
    (kwargs : list (string * string)) : M unit :=
  match progress_callback with
  | Some f =>
      try_except
        (let full_message :=
           match kwargs with
           | _ :: _ => Prompts.get_step_description step kwargs
           | [] => message
           end in
         invoke f step full_message)
        (fun _ => ret tt)              (* logger.error *)
  | None => ret tt
  end.

(** [self.post_service.update_post_status(db, ...)]; a status that was
    written is recorded among the calls. *)
Definition update_post_status (post_id : string) (status : PostStatus)
    (current_step error_message : option string) : M bool :=
  fun w =>
    match PostService.update_post_status (w_db w) post_id status
            current_step error_message (w_now w) with
    | (true, db') => (inr true, record_call (StatusWrite post_id status) (set_db db' w))
    | (false, db') => (inr false, set_db db' w)
    end.

Definition _update_post_error (post_id error : string) : M unit :=
  update_post_status post_id FAILED None (Some error) ;; ret tt.

Definition add_text_variation (post_id : string)
    (variation_number text_content : json) (prompts : option json)
  : M (option string) :=
  fun w =>
    let (r, db') :=
      PostService.add_text_variation (foreign_keys env) (w_db w)
        (uuid4 env (w_uuids w)) post_id variation_number text_content
        prompts in
    (inr r, draw_uuid (set_db db' w)).

Definition add_media_content (post_id : string) (media_type : MediaType)
    (variation_number : Z) (file_path generation_prompt : option string)
  : M (option string) :=
  fun w =>
    let (r, db') :=
      PostService.add_media_content (foreign_keys env) (w_db w)
        (uuid4 env (w_uuids w)) post_id media_type variation_number
        file_path generation_prompt in
    (inr r, draw_uuid (set_db db' w)).

(** A call of an outside service. *)
Definition external {A : Type} (c : call) (r : exn + A) : M A :=
  fun w => (r, record_call c w).

Definition get_text_content_from_website (url : string) : M string :=
  external (FetchUrl url)
    (inr match fetch_url env url with
         | Some downloaded =>
             if PyStr.truthy downloaded then
               match extract env downloaded with
               | Some extracted_text =>
                   if PyStr.truthy extracted_text then extracted_text else ""
               | None => ""
               end
             else ""
         | None => ""
         end).

(** The loop over the data sources; [idx] counts from 1. *)
Fixpoint extract_contexts (idx total : nat) (sources : list DataSource.t)
    (extracted_contexts : list string) : M (list string) :=
  match sources with
  | [] => ret extracted_contexts
  | source :: rest =>
      let source_type := DataSource.source_type source in
      let content := DataSource.content source in
      _send_progress "extracting_context"
        ("Processing source " ++ PyStr.of_nat idx ++ "/"
         ++ PyStr.of_nat total ++ ": " ++ DataSourceType_value source_type)
        [("source_num", PyStr.of_nat idx);
         ("source_type", DataSourceType_value source_type)] ;;
      extracted_contexts <-
        match source_type with
        | LINK =>
            extracted_text <- get_text_content_from_website content ;;
            ret (if PyStr.truthy extracted_text
                 then (extracted_contexts ++ [extracted_text])%list
                 else extracted_contexts)
        | TEXT => ret (extracted_contexts ++ [content])%list
        end ;;
      extract_contexts (S idx) total rest extracted_contexts
  end.

(** The loop over [text_variations.get("variations", [])]. *)
Fixpoint persist_variations (post_id : string) (variations : list json)
  : M unit :=
  match variations with
  | [] => ret tt
  | var_data :: rest =>
      variation_number <- lift (Py.getitem var_data "variation_number") ;;
      text_content <- lift (Py.getitem var_data "text_content") ;;
      text_id <- add_text_variation post_id variation_number text_content
                   (Some (JObj [("prompts", JArr [])])) ;;
      match text_id with
      | Some (String _ _) =>
          _send_progress "generating_text"
            ("Generated text variation " ++ py_str env variation_number)
            [("variation_num", py_str env variation_number)]
      | _ => ret tt
      end ;;
      persist_variations post_id rest
  end.

(** [[v["text_content"] for v in variations]] *)
Fixpoint text_contents (variations : list json) : exn + list json :=
  match variations with
  | [] => inr []
  | v :: r =>
      match Py.getitem v "text_content" with
      | inl e => inl e
      | inr t =>
          match text_contents r with
          | inl e => inl e
          | inr ts => inr (t :: ts)
          end
      end
  end.

(** The strings of a list handed to [str.join]. *)
Fixpoint join_items (i : nat) (l : list json) : exn + list string :=
  match l with
  | [] => inr []
  | JStr s :: r =>
      match join_items (S i) r with
      | inl e => inl e
      | inr ss => inr (s :: ss)
      end
  | v :: _ =>
      inl (TypeError ("sequence item " ++ PyStr.of_nat i
                      ++ ": expected str instance, " ++ Py.type_name v
                      ++ " found"))
  end.

Definition str_join (sep : string) (l : list json) : exn + string :=
  match join_items 0 l with
  | inl e => inl e
  | inr ss => inr (PyStr.join sep ss)
  end.

(** The loop over [text_variations.get("image_prompts", [])]. *)
Fixpoint generate_images (post : Post.t) (post_id : string)
    (text_variations : json) (image_prompts : list json) (mediaCount : Z)
  : M unit :=
  match image_prompts with
  | [] => ret tt
  | var_data :: rest =>
      variations <- lift (Py.get text_variations "variations" (JArr [])) ;;
      variations <- lift (Py.iter variations) ;;
      texts <- lift (text_contents variations) ;;
      post_text <- lift (str_join ", " texts) ;;
      let prompt :=
        image_generation_prompt env post_text (py_str env var_data) in
      let fileName :=
        work_dir env ++ "/generated_image_post_" ++ Post.id post ++ ".png" in
      image_path <-
        external (GenerateImage prompt fileName)
          (generate_image_freepik env prompt fileName) ;;
      image_url <-
        external (UploadImage image_path)
          (upload_image_to_storage env image_path) ;;
      add_media_content post_id IMAGE mediaCount (Some image_url)
        (Some (py_str env var_data)) ;;
      generate_images post post_id text_variations rest (mediaCount + 1)
  end.

Definition wants_images (post : Post.t) : bool :=
  PyStr.mem_list (MediaType_value (Post.media_content_needed post))
    ["image"; "both"].

(** The context handed to the prompt. *)
Definition context_of (extracted_contexts : list string) : string :=
  PyStr.join (String PyStr.LF (String PyStr.LF
                ("---" ++ String PyStr.LF (String PyStr.LF ""))))
    extracted_contexts.

Definition text_prompt (post : Post.t) (context : string) : string :=
  text_and_image_prompt env
    (match Prompts.assoc (ContentType_value (Post.content_type post))
             CONTENT_TYPE_MAP with
     | Some d => d
     | None => "Long Form"
     end)
    context (Post.text_variations_count post)
    (Post.media_variations_count post) (Post.language_tone post).

(** The body of the [try], in three parts: up to the answer of the text
    gateway, from there to the last row written, and the finalization. *)
Definition gather (post : Post.t) : M string :=
  _send_progress "generating_text" "Generating text variations..." [] ;;
  data_sources <-
    (fun w => (inr (PostService.get_data_sources (w_db w) (Post.id post)), w)) ;;
  extracted_contexts <-
    extract_contexts 1 (List.length data_sources) data_sources [] ;;
  let context := context_of extracted_contexts in
  external (GenerateText (text_prompt post context))
    (generate_text_response env (text_prompt post context)).

Definition persist (post : Post.t) (post_id : string)
    (text_variations : json) : M unit :=
  variations <- lift (Py.get text_variations "variations" (JArr [])) ;;
  variations <- lift (Py.iter variations) ;;
  persist_variations post_id variations ;;
  if wants_images post then
    _send_progress "generating_media" "Generating images..." [] ;;
    image_prompts <-
      lift (Py.get text_variations "image_prompts" (JArr [])) ;;
    image_prompts <- lift (Py.iter image_prompts) ;;
    generate_images post post_id text_variations image_prompts 1
  else ret tt.

Definition produce (post : Post.t) (post_id : string) : M unit :=
  text_variations_raw <- gather post ;;
  let text_variations_raw := sanitize text_variations_raw in
  text_variations <-
    lift (parse_json_from_string (json_loads env) text_variations_raw) ;;
  persist post post_id text_variations.

Definition finalize (post : Post.t) : M bool :=
  update_post_status (Post.id post) COMPLETED
    (Some "Post generation completed") None ;;
  generated_content <-
    (fun w =>
       (inr (str_of_content env
               (PostService.get_text_variations (w_db w) (Post.id post))
               (PostService.get_media_contents (w_db w) (Post.id post))),
        w)) ;;
  _send_progress "completed" "Generated Post Content"
    [("content", generated_content)] ;;
  ret true.

Definition workflow (post : Post.t) (post_id : string) : M bool :=
  produce post post_id ;; finalize post.

Definition generate_post (post_id : string) : M bool :=
  fun w =>
    match PostService.find_post (w_db w) post_id with
    | None => (inr false, w)
    | Some post =>
        try_except (workflow post post_id)
          (fun e =>
             _update_post_error (Post.id post) (str_of_exn e) ;; ret false)
          w
    end.

End Service.
End GeminiAgentService.

(** ** A concrete installation, for the runs below *)

Module Demo.

(** JSON text is written with ' for the double quote. *)
Definition dq (s : string) : string :=
  PyStr.replace "'" (String PyStr.DQUOTE "") s.

(** The environment: the reference decoder, a gateway that answers
    [response], an unreachable web, image and storage services that
    succeed.  [repr] and [str_of_content] abbreviate the Python text of a
    container; the runs below apply them to progress messages only. *)
Definition env (response : exn + string) : Env := {|
  uuid4 := fun n => "uuid-" ++ PyStr.of_nat n;
  foreign_keys := true;
  json_loads := Json.loads;
  repr := fun v => "<" ++ Py.type_name v ++ ">";
  fetch_url := fun _ => None;
  extract := fun _ => None;
  generate_text_response := fun _ => response;
  generate_image_freepik := fun _ fileName => inr fileName;
  upload_image_to_storage := fun image_path => inr ("https://cdn" ++ image_path);
  text_and_image_prompt :=
    fun content_type context n m tone =>
      PyStr.join "|" [content_type; context; PyStr.of_int n; PyStr.of_int m; tone];
  image_generation_prompt := fun post_text image_prompt =>
      PyStr.join "|" [post_text; image_prompt];
  work_dir := "/tmp/post_generation";
  str_of_content := fun tvs mcs =>
      PyStr.join "," (map TextVariation.id tvs ++ map MediaContent.id mcs)%list
|}.

Definition post (media : MediaType) (status : PostStatus) : Post.t :=
  Post.mk "p1" "excited, casual" media LONG_FORM 2 3 status None None
    (Some 0%Z) None None.

Definition db0 (media : MediaType) (status : PostStatus) : DB :=
  mkDB [post media status]
    [DataSource.mk "d1" "p1" TEXT "Our product launches Friday." false None]
    [] [] [] [] [].

Definition world0 (media : MediaType) (status : PostStatus) : world :=
  mkWorld (db0 media status) 0 100%Z [] [].

(** An answer of the gateway: wrapper text, one variation numbered 2,
    one image prompt. *)
Definition answer : string :=
  dq "Sure! {'variations': [{'variation_number': 2, 'text_content': 'Launch #Friday'}], 'image_prompts': ['a rocket']}".

Definition deliver_all : callback := fun _ _ _ => None.
Definition raise_always : callback :=
  fun _ _ _ => Some (Exception "RuntimeError" "socket closed").

End Demo.

(** ** The properties, in the words of the specification *)

Module Spec.

(** Terminal states: completed, failed. *)
Definition terminal (s : PostStatus) : bool :=
  match s with COMPLETED | FAILED => true | _ => false end.

(** pending -> processing_context -> generating_text -> generating_media
    -> completed, generating_text -> completed when no media is asked
    for, and failed from any non-terminal state. *)
Definition lifecycle_step (a b : PostStatus) : bool :=
  match a, b with
  | PENDING, PROCESSING_CONTEXT
  | PROCESSING_CONTEXT, GENERATING_TEXT
  | GENERATING_TEXT, GENERATING_MEDIA
  | GENERATING_TEXT, COMPLETED
  | GENERATING_MEDIA, COMPLETED => true
  | _, FAILED => negb (terminal a)
  | _, _ => false
  end.

(** The statuses written to a post, one after the other, starting from
    [s], follow the lifecycle. *)
Fixpoint follows_lifecycle (s : PostStatus) (writes : list PostStatus)
  : bool :=
  match writes with
  | [] => true
  | t :: r => lifecycle_step s t && follows_lifecycle t r
  end.

(** The sequence numbers persisted for a post. *)
Definition persisted_numbers (db : DB) (post_id : string) : list Z :=
  map TextVariation.variation_number
    (filter (fun v => String.eqb (TextVariation.post_id v) post_id)
       (text_variations db)).

(** The set {1..K}. *)
Definition one_to (K : nat) : list Z := map Z.of_nat (seq 1 K).

Definition same_set (a b : list Z) : Prop := forall x, In x a <-> In x b.

(** A non-empty storage location. *)
Definition has_location (m : MediaContent.t) : bool :=
  match MediaContent.file_path m with
  | Some (String _ _) => true
  | _ => false
  end.

(** The tombstones of a media row. *)
Definition tombstones (db : DB) (m : MediaContent.t) : nat :=
  List.length
    (filter
       (fun u => String.eqb (UnwantedMedia.media_content_id u)
                   (MediaContent.id m))
       (unwanted_media db)).

(** Every media row of the post is selected or, exactly when it has a
    location, has one tombstone; a row without location is neither
    selected nor tombstoned. *)
Definition reconciled (db : DB) (post_id : string) : bool :=
  forallb
    (fun m =>
       (MediaContent.is_selected m
        || Bool.eqb (has_location m) (Nat.eqb (tombstones db m) 1))
       && (has_location m
           || (negb (MediaContent.is_selected m)
               && Nat.eqb (tombstones db m) 0)))
    (filter (fun m => String.eqb (MediaContent.post_id m) post_id)
       (media_contents db)).

(** A media row of the post that was not chosen and has a location. *)
Definition unchosen_located (chosen : list string) (post_id : string)
    (m : MediaContent.t) : bool :=
  String.eqb (MediaContent.post_id m) post_id
  && negb (PyStr.mem_list (MediaContent.id m) chosen)
  && has_location m.

(** What a tombstone records. *)
Definition tombstone_facts (u : UnwantedMedia.t)
  : string * option string * string * datetime :=
  (UnwantedMedia.media_content_id u, Some (UnwantedMedia.file_path u),
   UnwantedMedia.post_id u, UnwantedMedia.marked_at u).

(** How many of the rows are tombstones of the media row [m]. *)
Definition tombstones_in (rows : list UnwantedMedia.t) (m : MediaContent.t)
  : nat :=
  List.length
    (filter
       (fun u => String.eqb (UnwantedMedia.media_content_id u)
                   (MediaContent.id m))
       rows).

(** The text variations of a post that carry the selected flag. *)
Definition selected_variations (db : DB) (post_id : string)
  : list TextVariation.t :=
  filter
    (fun v => String.eqb (TextVariation.post_id v) post_id
              && TextVariation.is_selected v)
    (text_variations db).

End Spec.

(** The statuses a list of calls writes to a post. *)
Definition status_writes (post_id : string) (cs : list call)
  : list PostStatus :=
  flat_map
    (fun c =>
       match c with
       | StatusWrite p s => if String.eqb p post_id then [s] else []
       | _ => []
       end)
    cs.

(** A database after a completed run, for the selection examples: post p1
    with two text variations and three images, the second of which has an
    empty location (its upload failed), and post p2 with one variation. *)
Module Demo2.

Definition db : DB :=
  mkDB
    [ Demo.post IMAGE COMPLETED;
      Post.mk "p2" "formal" NONE SHORT_FORM 1 1 COMPLETED None None
        (Some 0%Z) None (Some 5%Z) ]
    []
    [ TextVariation.mk "t1" "p1" 1 "first" None false;
      TextVariation.mk "t2" "p1" 2 "second" None false;
      TextVariation.mk "t3" "p2" 1 "other" None false ]
    [ MediaContent.mk "m1" "p1" IMAGE 1 (Some "https://cdn/1.jpg") None false;
      MediaContent.mk "m2" "p1" IMAGE 2 (Some "") None false;
      MediaContent.mk "m3" "p1" IMAGE 3 (Some "https://cdn/3.jpg") None false ]
    [] [] [].

Definition uuids (tag : string) : nat -> string :=
  fun n => tag ++ "-" ++ PyStr.of_nat n.

Definition request (tv : string) (images : list string)
  : Routes.ChooseVariationRequest :=
  {| Routes.text_variation_id := tv;
     Routes.image_ids := images;
     Routes.video_ids := [] |}.

End Demo2.

(** The flags [create_selection] sets on the media rows. *)
Definition flag_chosen (chosen : list string) (m : MediaContent.t)
  : MediaContent.t :=
  if PyStr.mem_list (MediaContent.id m) chosen
  then MediaContent.set_is_selected true m else m.

(** *** Reading a run *)

(** The text [get_text_content_from_website] returns. *)
Definition website_text (env : Env) (url : string) : string :=
  match fetch_url env url with
  | Some downloaded =>
      if PyStr.truthy downloaded then
        match extract env downloaded with
        | Some extracted_text =>
            if PyStr.truthy extracted_text then extracted_text else ""
        | None => ""
        end
      else ""
  | None => ""
  end.

(** The Content Extractor of the specification: a text source verbatim, a
    link through the web. *)
Definition extractor (env : Env) (source : DataSource.t) : string :=
  match DataSource.source_type source with
  | TEXT => DataSource.content source
  | LINK => website_text env (DataSource.content source)
  end.

(** What the loop over the sources collects. *)
Definition extracted_of (env : Env) (sources : list DataSource.t)
  : list string :=
  flat_map
    (fun source =>
       match DataSource.source_type source with
       | TEXT => [DataSource.content source]
       | LINK =>
           if PyStr.truthy (website_text env (DataSource.content source))
           then [website_text env (DataSource.content source)] else []
       end)
    sources.

(** The fetches of the loop. *)
Definition fetch_calls (sources : list DataSource.t) : list call :=
  flat_map
    (fun source =>
       match DataSource.source_type source with
       | TEXT => []
       | LINK => [FetchUrl (DataSource.content source)]
       end)
    sources.

Definition record_calls (cs : list call) (w : world) : world :=
  mkWorld (w_db w) (w_uuids w) (w_now w) (w_calls w ++ cs)%list (w_sent w).

(** The prompt a run sends to the text gateway. *)
Definition prompt_of (env : Env) (db : DB) (post : Post.t) : string :=
  GeminiAgentService.text_prompt env post
    (GeminiAgentService.context_of
       (extracted_of env (PostService.get_data_sources db (Post.id post)))).

(** Number and text of a variation that has both, an int and a str. *)
Definition variation_fields (v : json) : option (Z * string) :=
  match v with
  | JObj d =>
      match PyDict.lookup "variation_number" d,
            PyDict.lookup "text_content" d with
      | Some (JInt n), Some (JStr t) => Some (n, t)
      | _, _ => None
      end
  | _ => None
  end.

Fixpoint all_fields (variations : list json) : option (list (Z * string)) :=
  match variations with
  | [] => Some []
  | v :: r =>
      match variation_fields v, all_fields r with
      | Some f, Some fs => Some (f :: fs)
      | _, _ => None
      end
  end.

(** The variations of a gateway response that decodes to an object whose
    [variations] are a list of such objects. *)
Definition decoded_variations (env : Env) (raw : string)
  : option (list (Z * string)) :=
  match parse_json_from_string (json_loads env) (sanitize raw) with
  | inr (JObj d) =>
      match PyDict.lookup "variations" d with
      | Some (JArr l) => all_fields l
      | Some _ => None
      | None => Some []
      end
  | _ => None
  end.

(** Two worlds that differ in the record of progress deliveries only. *)
Definition agree (w1 w2 : world) : Prop :=
  w_db w1 = w_db w2 /\ w_uuids w1 = w_uuids w2
  /\ w_now w1 = w_now w2 /\ w_calls w1 = w_calls w2.

(** Two computations that cannot be told apart but by the deliveries. *)
Definition sim {A : Type} (m1 m2 : M A) : Prop :=
  forall w1 w2, agree w1 w2 ->
    fst (m1 w1) = fst (m2 w2) /\ agree (snd (m1 w1)) (snd (m2 w2)).

(** A computation that keeps a relation between the world before and
    after. *)
Definition preserves (R : world -> world -> Prop) {A : Type} (m : M A) : Prop :=
  forall w, R w (snd (m w)).

(** The posts and the clock are untouched, and the calls made write no
    status. *)
Definition quiet (w w' : world) : Prop :=
  posts (w_db w') = posts (w_db w) /\ w_now w' = w_now w
  /\ exists cs, w_calls w' = (w_calls w ++ cs)%list
                /\ forall p, status_writes p cs = [].

(** The text variations are untouched. *)
Definition keeps_text (w w' : world) : Prop :=
  text_variations (w_db w') = text_variations (w_db w).

(** The world after the one status write that ends a run. *)
Definition status_written (post_id : string) (status : PostStatus)
    (current_step error_message : option string) (w : world) : world :=
  record_call (StatusWrite post_id status)
    (set_db
       (snd (PostService.update_post_status (w_db w) post_id status
               current_step error_message (w_now w)))
       w).

(** The invariant of §3 on a data source: its content is not empty. *)
Definition valid_source (source : DataSource.t) : Prop :=
  DataSource.content source <> "".

(** A sequence of calls of the select endpoint. *)
Record select_call : Type := {
  sc_uuid4 : nat -> string;
  sc_now : datetime;
  sc_post_id : string;
  sc_request : Routes.ChooseVariationRequest
}.

Fixpoint select_all (foreign_keys : bool) (db : DB) (calls : list select_call)
  : DB :=
  match calls with
  | [] => db
  | c :: r =>
      select_all foreign_keys
        (snd (Routes.choose_variation foreign_keys db (sc_uuid4 c) (sc_now c)
                (sc_post_id c) (sc_request c)))
        r
  end.

(** ** The routes and a whole run: further definitions *)

(** routes/posts.py, websocket_updates: the three calls that reset a post
    before the workflow runs. *)
Definition reset (foreign_keys : bool) (db : DB) (post_id : string) : DB :=
  PostService.delete_media_contents foreign_keys
    (PostService.delete_text_variations foreign_keys
       (PostService.clear_progress_messages db post_id) post_id)
    post_id.

(** The order [order_by] establishes. *)
Definition le_by {A : Type} (key : A -> Z) (a b : A) : Prop :=
  (key a <= key b)%Z.

(** A database with an earlier selection for p1 and a fourth image whose
    storage location is NULL. *)
Module Demo3.

Definition db : DB :=
  mkDB (posts Demo2.db) []
    (text_variations Demo2.db)
    (media_contents Demo2.db
     ++ [MediaContent.mk "m4" "p1" IMAGE 4 None None false])%list
    [PostSelection.mk "s0" "p1" "t1"]
    [SelectedMedia.mk "sm0" "s0" "m1"]
    [].

End Demo3.

(** The sequence numbers of the media rows persisted for a post. *)
Definition media_numbers (db : DB) (post_id : string) : list Z :=
  map MediaContent.variation_number
    (filter (fun m => String.eqb (MediaContent.post_id m) post_id)
       (media_contents db)).

(** The media rows are untouched. *)
Definition keeps_media (w w' : world) : Prop :=
  media_contents (w_db w') = media_contents (w_db w).

(** The database has grown by rows of one post and nothing else of it has
    changed but the record of that post. *)
Definition appends (post_id : string) (w w' : world) : Prop :=
  exists tv mc,
    text_variations (w_db w') = (text_variations (w_db w) ++ tv)%list
    /\ Forall (fun v => TextVariation.post_id v = post_id
                        /\ TextVariation.is_selected v = false) tv
    /\ media_contents (w_db w') = (media_contents (w_db w) ++ mc)%list
    /\ Forall (fun m => MediaContent.post_id m = post_id
                        /\ MediaContent.is_selected m = false) mc
    /\ data_sources (w_db w') = data_sources (w_db w)
    /\ post_selections (w_db w') = post_selections (w_db w)
    /\ selected_media (w_db w') = selected_media (w_db w)
    /\ unwanted_media (w_db w') = unwanted_media (w_db w)
    /\ forall q, q <> post_id ->
         PostService.find_post (w_db w') q = PostService.find_post (w_db w) q.

(** The exception a variation makes the loop raise: a missing key. *)
Definition variation_error (v : json) : option exn :=
  match Py.getitem v "variation_number" with
  | inl e => Some e
  | inr _ =>
      match Py.getitem v "text_content" with
      | inl e => Some e
      | inr _ => None
      end
  end.

(** The image prompts of a gateway response that decodes to an object
    whose [image_prompts] are a list. *)
Definition decoded_image_prompts (env : Env) (raw : string)
  : option (list json) :=
  match parse_json_from_string (json_loads env) (sanitize raw) with
  | inr (JObj d) =>
      match PyDict.lookup "image_prompts" d with
      | Some (JArr l) => Some l
      | Some _ => None
      | None => Some []
      end
  | _ => None
  end.

(** [n, n+1, ..., n+j-1] *)
Definition count_from (n : Z) (j : nat) : list Z :=
  map (fun i => (n + Z.of_nat i)%Z) (seq 0 j).

(** ** routes/posts.py: ConnectionManager and websocket_updates

    A websocket is what the handler can do with it: [accept()] and
    [send_json(message)], each of which returns or raises.  Whether the
    n-th attempt to send anything over any socket fails is up to the
    network; the attempts are logged in the order they are made.  The
    timestamp of a message is left out. *)

Record WebSocket : Type := {
  ws_id : nat;
  ws_accept : option exn;
  (** what [send_json] does when [n] attempts were made before it *)
  ws_send_json : nat -> option exn
}.

Inductive ws_message : Type :=
| WSConnected (post_id : string)
| WSProgress (post_id step message : string)
| WSComplete (post_id : string) (text_variation_ids : list TextVariation.t)
    (media_content_ids : list MediaContent.t)
| WSError (post_id : string) (error : option string).

Record attempt : Type := {
  a_socket : nat;
  a_message : ws_message;
  a_raised : option exn
}.

(** The manager and the log of the attempts to send. *)
Record net : Type := mkNet {
  active_connections : list (string * WebSocket);
  sends : list attempt
}.

Module ConnectionManager.

(** [post_id in d], [d[post_id]], [d[post_id] = ws], [del d[post_id]] on a
    dict. *)
Fixpoint lookup (k : string) (d : list (string * WebSocket))
  : option WebSocket :=
  match d with
  | [] => None
  | (k', v) :: r => if String.eqb k k' then Some v else lookup k r
  end.

Fixpoint store (k : string) (v : WebSocket) (d : list (string * WebSocket))
  : list (string * WebSocket) :=
  match d with
  | [] => [(k, v)]
  | (k', v') :: r =>
      if String.eqb k k' then (k, v) :: r else (k', v') :: store k v r
  end.

Definition remove (k : string) (d : list (string * WebSocket))
  : list (string * WebSocket) :=
  filter (fun kv => negb (String.eqb k (fst kv))) d.

(** [await websocket.send_json(message)] *)
Definition send_json (ws : WebSocket) (message : ws_message) (n : net)
  : option exn * net :=
  let raised := ws_send_json ws (List.length (sends n)) in
  (raised,
   mkNet (active_connections n)
     (sends n ++ [Build_attempt (ws_id ws) message raised])%list).

Definition connect (post_id : string) (websocket : WebSocket) (n : net)
  : exn + net :=
  match ws_accept websocket with
  | Some e => inl e
  | None =>
      inr (mkNet (store post_id websocket (active_connections n)) (sends n))
  end.

Definition disconnect (post_id : string) (n : net) : net :=
  match lookup post_id (active_connections n) with
  | Some _ => mkNet (remove post_id (active_connections n)) (sends n)
  | None => n
  end.

Definition send_message (post_id : string) (message : ws_message) (n : net)
  : net :=
  match lookup post_id (active_connections n) with
  | Some ws =>
      match send_json ws message n with
      | (None, n') => n'
      | (Some _, n') => disconnect post_id n'
      end
  | None => n
  end.

End ConnectionManager.

(** The progress callback of websocket_updates hands its message to
    [manager.send_message], which raises nothing: to the workflow it is a
    callback that always returns. *)
Definition progress_callback : callback := fun _ _ _ => None.

(** The messages the callback was called with during a run, sent through
    the manager in their order. *)
Definition forward (post_id : string) (events : list delivery) (n : net)
  : net :=
  fold_left
    (fun n d =>
       ConnectionManager.send_message post_id
         (WSProgress post_id (d_step d) (d_message d)) n)
    events n.

(** [except WebSocketDisconnect: ...; except Exception as e: try to send
    the error; finally: manager.disconnect(post_id)] *)
Definition closing (websocket : WebSocket) (post_id : string)
    (raised : option exn) (n : net) : net :=
  let n :=
    match raised with
    | None => n
    | Some (Exception cls msg) =>
        if String.eqb cls "WebSocketDisconnect" then n
        else snd (ConnectionManager.send_json websocket
                    (WSError post_id (Some msg)) n)
    end in
  ConnectionManager.disconnect post_id n.

(** The handler, run from its start to its end with no other handler in
    between.  The result is the exception that leaves it, if any. *)
Definition websocket_updates (env : Env) (websocket : WebSocket)
    (post_id : string) (w : world) (n : net) : option exn * world * net :=
  match ConnectionManager.connect post_id websocket n with
  | inl e => (Some e, w, n)
  | inr n =>
      let w := set_db (reset (foreign_keys env) (w_db w) post_id) w in
      match ConnectionManager.send_json websocket (WSConnected post_id) n with
      | (Some e, n) => (None, w, closing websocket post_id (Some e) n)
      | (None, n) =>
          let before := List.length (w_sent w) in
          let (success, w) :=
            GeminiAgentService.generate_post env (Some progress_callback)
              post_id w in
          let n := forward post_id (skipn before (w_sent w)) n in
          match success with
          | inl e => (None, w, closing websocket post_id (Some e) n)
          | inr success =>
              let message :=
                if success then
                  WSComplete post_id
                    (PostService.get_text_variations (w_db w) post_id)
                    (PostService.get_media_contents (w_db w) post_id)
                else
                  WSError post_id
                    match PostService.get_post (w_db w) post_id with
                    | Some post_data => Post.error_message post_data
                    | None => Some "Unknown error"
                    end in
              let (raised, n) :=
                ConnectionManager.send_json websocket message n in
              (None, w, closing websocket post_id raised n)
          end
      end
  end.

(** A media row as the loop over the image prompts writes it: an image
    whose [file_path] is what the storage returned for the file the image
    gateway returned. *)
Definition uploaded_image (env : Env) (post_id : string)
    (m : MediaContent.t) : Prop :=
  MediaContent.post_id m = post_id
  /\ MediaContent.media_type m = IMAGE
  /\ exists prompt fileName image_path image_url,
       generate_image_freepik env prompt fileName = inr image_path
       /\ upload_image_to_storage env image_path = inr image_url
       /\ MediaContent.file_path m = Some image_url.

(** ** What the progress callback is called with *)

Definition event (d : delivery) : string * string := (d_step d, d_message d).

Definition events_of (w : world) : list (string * string) :=
  map event (w_sent w).

(** The events of the loop over the data sources, [idx] counting on. *)
Fixpoint source_events (idx : nat) (sources : list DataSource.t)
  : list (string * string) :=
  match sources with
  | [] => []
  | source :: rest =>
      ("extracting_context",
       Prompts.get_step_description "extracting_context"
         [("source_num", PyStr.of_nat idx);
          ("source_type", DataSourceType_value (DataSource.source_type source))])
      :: source_events (S idx) rest
  end.

(** The event of a stored text variation. *)
Definition variation_event (nt : Z * string) : string * string :=
  ("generating_text",
   Prompts.get_step_description "generating_text"
     [("variation_num", PyStr.of_int (fst nt))]).

(** No call of the progress callback is made. *)
Definition keeps_sent (w w' : world) : Prop := w_sent w' = w_sent w.

(** ** schemas_posts.py: ChooseVariationRequest.validate_media_ids

    [if v and len(v) != len(set(v)): raise ValueError(...)], then
    [return v or []]. *)
Definition validate_media_ids (v : option (list string))
  : exn + list string :=
  match v with
  | None | Some [] => inr []
  | Some l =>
      if Nat.eqb (List.length l) (List.length (nodup string_dec l))
      then inr l
      else inl (ValueError "Duplicate media IDs are not allowed")
  end.

(** * Theorems *)

(** ** PostService.update_post_status *)

Lemma PostStatus_eqb_eq (a b : PostStatus) :
  PostStatus_eqb a b = true <-> a = b.
Proof. destruct a, b; simpl; split; intro H; congruence. Qed.

Lemma find_update_first {A : Type} (test : A -> bool) (f : A -> A)
    (l : list A) (x : A) :
  find test l = Some x -> test (f x) = true ->
  find test (update_first test f l) = Some (f x).
Proof.
  induction l as [|y l IH]; simpl; [discriminate|].
  destruct (test y) eqn:E; intros H Hf.
  - inversion H; subst. simpl. now rewrite Hf.
  - simpl. rewrite E. now apply IH.
Qed.

Lemma update_first_twice {A : Type} (test : A -> bool) (f g : A -> A)
    (l : list A) :
  (forall x, test x = true -> test (f x) = true) ->
  update_first test g (update_first test f l)
  = update_first test (fun x => g (f x)) l.
Proof.
  intros Hf. induction l as [|y l IH]; simpl; [reflexivity|].
  destruct (test y) eqn:E; simpl.
  - now rewrite (Hf y E).
  - now rewrite E, IH.
Qed.

Lemma update_first_ext {A : Type} (test : A -> bool) (f g : A -> A)
    (l : list A) :
  (forall x, test x = true -> f x = g x) ->
  update_first test f l = update_first test g l.
Proof.
  intros H. induction l as [|y l IH]; simpl; [reflexivity|].
  destruct (test y) eqn:E; [now rewrite H | now rewrite IH].
Qed.

Lemma update_first_id {A : Type} (test : A -> bool) (f : A -> A)
    (l : list A) :
  (forall x, test x = true -> f x = x) -> update_first test f l = l.
Proof.
  intros H. induction l as [|y l IH]; simpl; [reflexivity|].
  destruct (test y) eqn:E; [now rewrite H | now rewrite IH].
Qed.

(** The cases of [assign_status]. *)
Ltac by_cases_on_post p status step err :=
  unfold PostService.assign_status;
  destruct p as [? ? ? ? ? ? ? ? ? ? [?|] ?];
  destruct status, step, err; try discriminate; reflexivity.

Lemma is_post_assign_status post_id status step err now p :
  PostService.is_post post_id
    (PostService.assign_status status step err now p)
  = PostService.is_post post_id p.
Proof.
  unfold PostService.is_post. now by_cases_on_post p status step err.
Qed.

Lemma find_post_some db post_id post :
  PostService.find_post db post_id = Some post ->
  PostService.is_post post_id post = true.
Proof.
  unfold PostService.find_post. intros H.
  now apply find_some in H.
Qed.

Lemma find_post_id db post_id post :
  PostService.find_post db post_id = Some post -> Post.id post = post_id.
Proof.
  intros H. apply find_post_some in H.
  now apply String.eqb_eq in H.
Qed.

Lemma update_post_status_found db post_id status step err now post :
  PostService.find_post db post_id = Some post ->
  PostService.update_post_status db post_id status step err now
  = (true,
     set_posts
       (update_first (PostService.is_post post_id)
          (PostService.assign_status status step err now) (posts db)) db)
  /\ PostService.find_post
       (snd (PostService.update_post_status db post_id status step err now))
       post_id
     = Some (PostService.assign_status status step err now post).
Proof.
  intros H. unfold PostService.update_post_status. rewrite H. split; [reflexivity|].
  simpl. unfold PostService.find_post in *. simpl.
  apply find_update_first; [exact H|].
  rewrite is_post_assign_status. now apply find_some in H.
Qed.

(** C9, as amended: [update_post_status] returns false and changes nothing
    for an unknown post id; for a known one it returns true, sets the status,
    sets [started_at] to the time of the call only when the status is
    processing_context and [started_at] was empty, and sets [completed_at] to
    the time of the call when the status is completed or failed.  A repeated
    identical call at a later time [now'] leaves the database unchanged when
    the status is not terminal; when it is completed or failed the post keeps
    all fields except [completed_at], which becomes [now']. *)
Theorem update_post_status_effect
    (db : DB) (post_id : string) (status : PostStatus)
    (current_step error_message : option string) (now now' : datetime) :
  let r := PostService.update_post_status db post_id status current_step
             error_message now in
  let r2 := PostService.update_post_status (snd r) post_id status current_step
              error_message now' in
  match PostService.find_post db post_id with
  | None => r = (false, db)
  | Some post =>
      fst r = true /\
      exists post',
        PostService.find_post (snd r) post_id = Some post' /\
        Post.status post' = status /\
        Post.started_at post'
        = match status, Post.started_at post with
          | PROCESSING_CONTEXT, None => Some now
          | _, before => before
          end /\
        Post.completed_at post'
        = (if Spec.terminal status then Some now else Post.completed_at post) /\
        fst r2 = true /\
        if Spec.terminal status then
          PostService.find_post (snd r2) post_id
          = Some (Post.set_completed_at (Some now') post')
        else snd r2 = snd r
  end.
Proof.
  intros r r2.
  destruct (PostService.find_post db post_id) as [post|] eqn:F.
  2:{ subst r. unfold PostService.update_post_status. now rewrite F. }
  destruct (update_post_status_found db post_id status current_step
              error_message now post F) as [E1 E2].
  fold r in E1, E2.
  destruct (update_post_status_found (snd r) post_id status current_step
              error_message now' _ E2) as [E3 E4].
  fold r2 in E3, E4.
  split; [now rewrite E1|].
  exists (PostService.assign_status status current_step error_message now post).
  split; [exact E2|].
  split.
  { now by_cases_on_post post status current_step error_message. }
  split.
  { now by_cases_on_post post status current_step error_message. }
  split.
  { now by_cases_on_post post status current_step error_message. }
  split; [now rewrite E3|].
  destruct (Spec.terminal status) eqn:T.
  - rewrite E4. f_equal.
    now by_cases_on_post post status current_step error_message.
  - rewrite E3, E1. simpl.
    destruct db as [ps ds tv mc sel sm um]. unfold set_posts. simpl. f_equal.
    rewrite update_first_twice
      by (intros x Hx; now rewrite is_post_assign_status).
    apply update_first_ext. intros x _.
    now by_cases_on_post x status current_step error_message.
Qed.

(** C9, the claim as stated fails: a second identical call with status
    completed, one tick later, changes the post record ([completed_at] moves
    from 1 to 2). *)
Lemma update_post_status_not_idempotent :
  let db1 := snd (PostService.update_post_status (Demo.db0 NONE PENDING) "p1"
                    COMPLETED None None 1%Z) in
  let db2 := snd (PostService.update_post_status db1 "p1"
                    COMPLETED None None 2%Z) in
  option_map Post.completed_at (PostService.find_post db1 "p1") = Some (Some 1%Z)
  /\ option_map Post.completed_at (PostService.find_post db2 "p1")
     = Some (Some 2%Z)
  /\ db2 <> db1.
Proof.
  cbv zeta. split; [reflexivity|]. split; [reflexivity|].
  intros H. discriminate H.
Qed.

(** ** Sanitization and parse_json_from_string *)

Lemma append_assoc (a b c : string) : (a ++ b) ++ c = a ++ (b ++ c).
Proof. induction a as [|x a IH]; simpl; [reflexivity | now rewrite IH]. Qed.

Lemma replace_append (c : ascii) (by_ a b : string) :
  PyStr.replace c by_ (a ++ b) = PyStr.replace c by_ a ++ PyStr.replace c by_ b.
Proof.
  induction a as [|x a IH]; simpl; [reflexivity|].
  destruct (Ascii.eqb x c); rewrite IH; [now rewrite append_assoc | reflexivity].
Qed.

Lemma sanitize_append (a b : string) :
  sanitize (a ++ b) = sanitize a ++ sanitize b.
Proof. unfold sanitize. now rewrite !replace_append. Qed.

(** What sanitization makes of one character. *)
Lemma sanitize_char (c : ascii) :
  sanitize (String c "")
  = if Ascii.eqb c PyStr.LF || Ascii.eqb c PyStr.CR || Ascii.eqb c PyStr.TAB
    then " "
    else if Ascii.eqb c "#" then HASHTAG else String c "".
Proof.
  unfold sanitize. simpl.
  destruct (Ascii.eqb_spec c PyStr.LF) as [->|H1]; [reflexivity|].
  destruct (Ascii.eqb_spec c PyStr.CR) as [->|H2]; [reflexivity|].
  destruct (Ascii.eqb_spec c PyStr.TAB) as [->|H3]; [reflexivity|].
  simpl. rewrite (proj2 (Ascii.eqb_neq _ _) H2).
  simpl. rewrite (proj2 (Ascii.eqb_neq _ _) H3).
  simpl. reflexivity.
Qed.

Lemma mem_append (c : ascii) (a b : string) :
  PyStr.mem c (a ++ b) = PyStr.mem c a || PyStr.mem c b.
Proof.
  induction a as [|x a IH]; simpl; [reflexivity|].
  now rewrite IH, orb_assoc.
Qed.

(** None of the four characters is left. *)
Lemma sanitize_clean (raw : string) :
  PyStr.mem PyStr.LF (sanitize raw) = false
  /\ PyStr.mem PyStr.CR (sanitize raw) = false
  /\ PyStr.mem PyStr.TAB (sanitize raw) = false
  /\ PyStr.mem "#" (sanitize raw) = false.
Proof.
  induction raw as [|c r IH].
  - repeat split; reflexivity.
  - change (String c r) with (String c "" ++ r).
    rewrite sanitize_append, !mem_append.
    destruct IH as (I1 & I2 & I3 & I4). rewrite I1, I2, I3, I4.
    rewrite !orb_false_r, sanitize_char.
    destruct (Ascii.eqb_spec c PyStr.LF) as [->|H1]; [repeat split; reflexivity|].
    destruct (Ascii.eqb_spec c PyStr.CR) as [->|H2]; [repeat split; reflexivity|].
    destruct (Ascii.eqb_spec c PyStr.TAB) as [->|H3]; [repeat split; reflexivity|].
    destruct (Ascii.eqb_spec c "#") as [->|H4]; [repeat split; reflexivity|].
    simpl. rewrite !orb_false_r.
    repeat split; now apply Ascii.eqb_neq.
Qed.

Lemma from_first_open_skip (pre rest : string) :
  PyStr.mem "{" pre = false ->
  Re.from_first_open (pre ++ String "{" rest) = Some (String "{" rest).
Proof.
  induction pre as [|x pre IH]; simpl; [reflexivity|].
  intros H. apply orb_false_iff in H as [Hx Hp].
  rewrite Hx. now apply IH.
Qed.

Lemma upto_last_close_none (s : string) :
  PyStr.mem "}" s = false <-> Re.upto_last_close s = None.
Proof.
  induction s as [|x s IH]; simpl; [tauto|].
  rewrite orb_false_iff, IH.
  destruct (Re.upto_last_close s), (Ascii.eqb x "}");
    intuition congruence.
Qed.

Lemma upto_last_close_last (body post : string) :
  PyStr.mem "}" post = false ->
  Re.upto_last_close (body ++ String "}" post) = Some (body ++ "}").
Proof.
  intros H. induction body as [|x body IH]; simpl.
  - apply upto_last_close_none in H. now rewrite H.
  - now rewrite IH.
Qed.

Lemma search_braces_span (pre mid post : string) :
  PyStr.mem "{" pre = false -> PyStr.mem "}" post = false ->
  Re.search_braces (pre ++ "{" ++ mid ++ "}" ++ post)
  = Some ("{" ++ mid ++ "}").
Proof.
  intros Hpre Hpost. unfold Re.search_braces. simpl.
  rewrite (from_first_open_skip pre _ Hpre).
  change (String "{" (mid ++ String "}" post))
    with ((String "{" mid) ++ String "}" post).
  now rewrite (upto_last_close_last _ _ Hpost).
Qed.

Lemma from_first_open_split (s t : string) :
  Re.from_first_open s = Some t ->
  exists pre rest, s = pre ++ String "{" rest /\ t = String "{" rest.
Proof.
  revert t. induction s as [|x s IH]; simpl; [discriminate|].
  intros t. destruct (Ascii.eqb_spec x "{") as [->|Hx].
  - intros H. inversion H; subst. now exists "", s.
  - intros H. destruct (IH _ H) as (pre & rest & -> & ->).
    now exists (String x pre), rest.
Qed.

Lemma mem_split (c : ascii) (s : string) :
  PyStr.mem c s = true -> exists a b, s = a ++ String c b.
Proof.
  induction s as [|x s IH]; simpl; [discriminate|].
  destruct (Ascii.eqb_spec x c) as [->|Hx]; simpl.
  - intros _. now exists "", s.
  - intros H. destruct (IH H) as (a & b & ->). now exists (String x a), b.
Qed.

Lemma from_first_open_none (s : string) :
  Re.from_first_open s = None <-> PyStr.mem "{" s = false.
Proof.
  induction s as [|x s IH]; simpl; [tauto|].
  destruct (Ascii.eqb x "{"); simpl; [split; discriminate | exact IH].
Qed.

Lemma search_braces_found (pre mid post : string) :
  Re.search_braces (pre ++ "{" ++ mid ++ "}" ++ post) <> None.
Proof.
  unfold Re.search_braces.
  assert (M : forall a, PyStr.mem "}" (a ++ "{" ++ mid ++ "}" ++ post) = true).
  { intros a. rewrite mem_append. simpl. rewrite mem_append. simpl.
    now rewrite !orb_true_r. }
  induction pre as [|x pre IH].
  - cbn [append].
    change (Re.from_first_open (String "{" (mid ++ String "}" post)))
      with (Some (String "{" (mid ++ String "}" post))).
    intros H. apply upto_last_close_none in H.
    specialize (M ""). simpl in M, H. congruence.
  - cbn [append Re.from_first_open].
    destruct (Ascii.eqb x "{"); [|exact IH].
    intros H. apply upto_last_close_none in H.
    specialize (M (String x pre)). simpl in M, H. congruence.
Qed.

(** The search fails exactly on the texts that hold no '{' with a '}'
    somewhere after it. *)
Lemma search_braces_none (s : string) :
  Re.search_braces s = None <->
  ~ exists pre mid post, s = pre ++ "{" ++ mid ++ "}" ++ post.
Proof.
  split.
  - intros H (pre & mid & post & ->). now apply search_braces_found in H.
  - intros H. unfold Re.search_braces.
    destruct (Re.from_first_open s) as [t|] eqn:F; [|reflexivity].
    destruct (Re.upto_last_close t) as [m|] eqn:U; [|reflexivity].
    exfalso. apply H.
    apply from_first_open_split in F as (pre & rest & -> & ->).
    assert (M : PyStr.mem "}" (String "{" rest) = true).
    { destruct (PyStr.mem "}" (String "{" rest)) eqn:E; [reflexivity|].
      apply upto_last_close_none in E. congruence. }
    simpl in M. apply mem_split in M as (a & b & ->).
    now exists pre, a, b.
Qed.

(** C6, as amended: sanitization replaces each newline, carriage return and
    tab by one space and each '#' by "(Hashtag)", leaves every other
    character as it is, and so leaves none of the four characters in the
    text.  Parsing takes the span from the first '{' to the last '}' of the
    text and hands this span, whole, to the decoder: wrapper text before it
    that holds no '{' and wrapper text after it that holds no '}' is
    tolerated, and the result is the decoder's result on the span.  It fails
    when the text holds no '{' followed by a '}', and when the decoder
    rejects the span. *)
Theorem sanitize_and_parse (json_loads : string -> loads_result) :
  (forall a b, sanitize (a ++ b) = sanitize a ++ sanitize b)
  /\ (forall c,
        sanitize (String c "")
        = if Ascii.eqb c PyStr.LF || Ascii.eqb c PyStr.CR
             || Ascii.eqb c PyStr.TAB
          then " "
          else if Ascii.eqb c "#" then "(Hashtag)" else String c "")
  /\ (forall raw c,
        In c [PyStr.LF; PyStr.CR; PyStr.TAB; "#"%char] ->
        PyStr.mem c (sanitize raw) = false)
  /\ (forall pre mid post,
        PyStr.mem "{" pre = false -> PyStr.mem "}" post = false ->
        parse_json_from_string json_loads (pre ++ "{" ++ mid ++ "}" ++ post)
        = match json_loads ("{" ++ mid ++ "}") with
          | Decoded v => inr v
          | JSONDecodeError e =>
              inl (ValueError ("Failed to decode JSON: " ++ e))
          | OtherError e => inl (ValueError ("An error occurred: " ++ e))
          end)
  /\ (forall s,
        (~ exists pre mid post, s = pre ++ "{" ++ mid ++ "}" ++ post) ->
        parse_json_from_string json_loads s
        = inl (ValueError
                 "An error occurred: No JSON object found in the input string.")).
Proof.
  split; [exact sanitize_append|].
  split; [exact sanitize_char|].
  split.
  { intros raw c Hc. destruct (sanitize_clean raw) as (H1 & H2 & H3 & H4).
    simpl in Hc. destruct Hc as [<-|[<-|[<-|[<-|[]]]]]; assumption. }
  split.
  { intros pre mid post Hpre Hpost. unfold parse_json_from_string.
    now rewrite (search_braces_span pre mid post Hpre Hpost). }
  intros s H. apply search_braces_none in H.
  unfold parse_json_from_string. now rewrite H.
Qed.

(** A run of the amended statement: the wrapper text around the object is
    dropped and the '#' inside it replaced. *)
Lemma sanitize_and_parse_witness :
  PyStr.mem "{" "Sure! " = false /\ PyStr.mem "}" " Done." = false
  /\ parse_json_from_string Json.loads
       ("Sure! " ++ "{" ++ Demo.dq "'tag': '(Hashtag)x'" ++ "}" ++ " Done.")
     = inr (JObj [("tag", JStr "(Hashtag)x")])
  /\ sanitize (String "#" "") = "(Hashtag)"
  /\ parse_json_from_string Json.loads "no braces"
     = inl (ValueError
              "An error occurred: No JSON object found in the input string.").
Proof.
  destruct (sanitize_and_parse Json.loads) as (_ & Hc & _ & Hp & Hn).
  split; [reflexivity|]. split; [reflexivity|].
  split.
  { rewrite (Hp "Sure! " (Demo.dq "'tag': '(Hashtag)x'") " Done.");
      reflexivity. }
  split; [now rewrite Hc|].
  apply Hn. intros (pre & mid & post & E).
  assert (M : PyStr.mem "{" "no braces" = true).
  { rewrite E, mem_append. simpl. now rewrite orb_true_r. }
  discriminate M.
Defined.

(** C6, the claim as stated fails: the match is greedy.  A response whose
    first top-level object is decodable is rejected when a '}' follows in
    the trailing text, or a '{' precedes in the leading text. *)
Lemma parse_is_greedy :
  Json.loads "{}" = Decoded (JObj [])
  /\ parse_json_from_string Json.loads "{} (see {docs})"
     = inl (ValueError "Failed to decode JSON: Extra data")
  /\ parse_json_from_string Json.loads "use {braces}: {}"
     = inl (ValueError
              "Failed to decode JSON: Expecting property name enclosed in double quotes").
Proof. repeat split; reflexivity. Qed.

(** ** routes/posts.py: the precondition of select *)

Lemma status_is_completed (s : PostStatus) :
  String.eqb (PostStatus_value s) "completed" = PostStatus_eqb s COMPLETED.
Proof. destruct s; reflexivity. Qed.

(** C3, as amended: a select call for an unknown post is rejected with 404
    and one for a post whose status is not completed with 400, both without
    any change of the database.  For a completed post the call goes to
    [create_selection] with the text-variation id as it came: that the
    variation belongs to the post is checked nowhere. *)
Theorem select_rejected_unless_completed
    (fk : bool) (db : DB) (uuid4 : nat -> string) (now : datetime)
    (post_id : string) (request : Routes.ChooseVariationRequest) :
  let r := Routes.choose_variation fk db uuid4 now post_id request in
  match PostService.find_post db post_id with
  | None => r = (Routes.HTTPException 404 "Post not found", db)
  | Some post =>
      if PostStatus_eqb (Post.status post) COMPLETED then
        let c := PostService.create_selection fk db uuid4 now post_id
                   (Routes.text_variation_id request)
                   (Some (Routes.image_ids request))
                   (Some (Routes.video_ids request)) in
        snd r = snd c
        /\ fst r = match fst c with
                   | Some (sid, n) => Routes.ChooseVariationResponse sid n
                   | None =>
                       Routes.HTTPException 500 "Failed to create selection"
                   end
      else
        r = (Routes.HTTPException 400
               ("Post is not completed yet. Current status: "
                ++ PostStatus_value (Post.status post)), db)
  end.
Proof.
  intros r. subst r. unfold Routes.choose_variation, PostService.get_post.
  destruct (PostService.find_post db post_id) as [post|]; [|reflexivity].
  rewrite status_is_completed.
  destruct (PostStatus_eqb (Post.status post) COMPLETED); [|reflexivity].
  simpl.
  destruct (PostService.create_selection _ _ _ _ _ _ _ _) as [[[sid n]|] db'];
    split; reflexivity.
Qed.

(** C3, the claim as stated fails: for the completed post p1 a select with
    the text variation t3, which belongs to post p2, is accepted, whether
    or not the engine enforces foreign keys: a PostSelection row for p1 is
    written and the variation of p2 is flagged. *)
Lemma select_accepts_variation_of_other_post :
  map TextVariation.post_id
    (filter (fun v => String.eqb (TextVariation.id v) "t3")
       (text_variations Demo2.db)) = ["p2"]
  /\ (let r := Routes.choose_variation true Demo2.db (Demo2.uuids "a") 50%Z
                "p1" (Demo2.request "t3" []) in
      fst r = Routes.ChooseVariationResponse "a-0" 2
      /\ post_selections (snd r) = [PostSelection.mk "a-0" "p1" "t3"]
      /\ map TextVariation.id (Spec.selected_variations (snd r) "p2") = ["t3"])
  /\ (let r := Routes.choose_variation false Demo2.db (Demo2.uuids "a") 50%Z
                "p1" (Demo2.request "t3" []) in
      fst r = Routes.ChooseVariationResponse "a-0" 2
      /\ post_selections (snd r) = [PostSelection.mk "a-0" "p1" "t3"]
      /\ map TextVariation.id (Spec.selected_variations (snd r) "p2") = ["t3"]).
Proof. repeat split; reflexivity. Qed.

(** ** PostService.create_selection *)

Lemma delete_existing_selection_frame fk db post_id :
  let db1 := PostService.delete_existing_selection db post_id in
  posts db1 = posts db
  /\ text_variations db1 = text_variations db
  /\ media_contents db1 = media_contents db
  /\ unwanted_media db1 = unwanted_media db
  /\ PostService.find_post db1 post_id = PostService.find_post db post_id
  /\ PostService.post_exists db1 post_id = PostService.post_exists db post_id
  /\ PostService.fk_ok fk true = true.
Proof.
  unfold PostService.delete_existing_selection.
  destruct (find _ (post_selections db)); simpl;
    repeat split; unfold PostService.fk_ok; now rewrite ?orb_true_r.
Qed.

(** What a call leaves of the text variations: the chosen one flagged when
    the call succeeds, nothing changed when it fails. *)
Lemma create_selection_text_variations fk db uuid4 now post_id tv imgs vids :
  let r := PostService.create_selection fk db uuid4 now post_id tv imgs vids in
  text_variations (snd r)
  = match fst r with
    | Some _ =>
        update_where (fun v => String.eqb (TextVariation.id v) tv)
          (TextVariation.set_is_selected true) (text_variations db)
    | None => text_variations db
    end.
Proof.
  unfold PostService.create_selection.
  destruct (delete_existing_selection_frame fk db post_id)
    as (_ & Ht & _).
  destruct (negb _); [simpl; exact Ht|].
  destruct (PostService.unwanted_rows _ _ _ _ _); [|simpl; exact Ht].
  destruct (forallb _ _); simpl; [now rewrite Ht | exact Ht].
Qed.

Lemma set_is_selected_true_id (v : TextVariation.t) :
  TextVariation.is_selected v = true -> TextVariation.set_is_selected true v = v.
Proof. destruct v; simpl; intros ->; reflexivity. Qed.

Lemma update_where_keeps_selected tv (l : list TextVariation.t) v :
  In v l -> TextVariation.is_selected v = true ->
  In v (update_where (fun v => String.eqb (TextVariation.id v) tv)
          (TextVariation.set_is_selected true) l).
Proof.
  intros Hin Hs. unfold update_where. apply in_map_iff. exists v. split; [|exact Hin].
  destruct (String.eqb _ _); [now apply set_is_selected_true_id | reflexivity].
Qed.

Lemma update_where_origin tv (l : list TextVariation.t) v' :
  In v' (update_where (fun v => String.eqb (TextVariation.id v) tv)
           (TextVariation.set_is_selected true) l) ->
  In v' l \/ TextVariation.id v' = tv.
Proof.
  unfold update_where. intros H. apply in_map_iff in H as (x & E & Hin).
  destruct (String.eqb (TextVariation.id x) tv) eqn:T.
  - right. subst v'. destruct x; simpl in *. now apply String.eqb_eq.
  - left. now subst.
Qed.

Lemma choose_variation_text_variations fk db uuid4 now post_id request :
  let db' := snd (Routes.choose_variation fk db uuid4 now post_id request) in
  text_variations db' = text_variations db
  \/ text_variations db'
     = update_where
         (fun v => String.eqb (TextVariation.id v)
                     (Routes.text_variation_id request))
         (TextVariation.set_is_selected true) (text_variations db).
Proof.
  unfold Routes.choose_variation.
  destruct (PostService.get_post db post_id); [|now left].
  destruct (negb _); [now left|].
  pose proof (create_selection_text_variations fk db uuid4 now post_id
                (Routes.text_variation_id request)
                (Some (Routes.image_ids request))
                (Some (Routes.video_ids request))) as H.
  cbv zeta in H.
  destruct (PostService.create_selection _ _ _ _ _ _ _ _) as [[[sid n]|] d];
    simpl in *; [now right | now left].
Qed.

Lemma remove_first_count {A : Type} (test other : A -> bool) (l : list A) :
  List.length (filter other (remove_first test l))
  <= List.length (filter other l).
Proof.
  induction l as [|x l IH]; simpl; [lia|].
  destruct (test x); simpl; destruct (other x); simpl; lia.
Qed.

Lemma existsb_filter_nil {A : Type} (test : A -> bool) (l : list A) :
  existsb test l = false -> filter test l = [].
Proof.
  induction l as [|x l IH]; simpl; [reflexivity|].
  destruct (test x); simpl; [discriminate | exact IH].
Qed.

Lemma selection_of_other post_id q (x : PostSelection.t) :
  PostService.selection_of post_id x = true -> post_id <> q ->
  PostService.selection_of q x = false.
Proof.
  unfold PostService.selection_of. intros H Hq.
  apply String.eqb_eq in H. apply String.eqb_neq. congruence.
Qed.

(** A call never leaves a post with more PostSelection rows than it found,
    or than one. *)
Lemma create_selection_unique fk db uuid4 now post_id tv imgs vids q :
  let db' := snd (PostService.create_selection fk db uuid4 now post_id tv
                    imgs vids) in
  List.length (filter (PostService.selection_of q) (post_selections db')) <= 1
  \/ List.length (filter (PostService.selection_of q) (post_selections db'))
     <= List.length (filter (PostService.selection_of q) (post_selections db)).
Proof.
  cbv zeta.
  assert (D : List.length
                (filter (PostService.selection_of q)
                   (post_selections
                      (PostService.delete_existing_selection db post_id)))
              <= List.length
                   (filter (PostService.selection_of q) (post_selections db))).
  { unfold PostService.delete_existing_selection.
    destruct (find _ (post_selections db)); simpl; [|lia].
    apply remove_first_count. }
  unfold PostService.create_selection.
  destruct (existsb (PostService.selection_of post_id)
              (post_selections
                 (PostService.delete_existing_selection db post_id))) eqn:X.
  { simpl. now right. }
  simpl.
  destruct (_ && _); simpl; [|now right].
  destruct (PostService.unwanted_rows _ _ _ _ _); [|now right].
  destruct (forallb _ _); simpl; [|now right].
  rewrite filter_app, length_app. simpl.
  destruct (String.eqb_spec post_id q) as [->|Hq].
  - left. rewrite (existsb_filter_nil _ _ X).
    destruct (PostService.selection_of q _); simpl; lia.
  - right. unfold PostService.selection_of at 2. simpl.
    rewrite (proj2 (String.eqb_neq _ _) Hq). simpl. lia.
Qed.

Lemma choose_variation_unique fk db uuid4 now post_id request q :
  let db' := snd (Routes.choose_variation fk db uuid4 now post_id request) in
  List.length (filter (PostService.selection_of q) (post_selections db)) <= 1 ->
  List.length (filter (PostService.selection_of q) (post_selections db')) <= 1.
Proof.
  unfold Routes.choose_variation.
  destruct (PostService.get_post db post_id); [|now simpl].
  destruct (negb _); [now simpl|].
  pose proof (create_selection_unique fk db uuid4 now post_id
                (Routes.text_variation_id request)
                (Some (Routes.image_ids request))
                (Some (Routes.video_ids request)) q) as H.
  cbv zeta in H.
  destruct (PostService.create_selection _ _ _ _ _ _ _ _) as [[[sid n]|] d];
    simpl in *; lia.
Qed.

(** C7, as amended: across every sequence of select calls each post keeps
    at most one PostSelection row, but the selected flags of the text
    variations are only ever set: a variation flagged before the calls is
    still flagged, unchanged, after them, and a variation flagged after them
    was flagged before or was chosen by one of the calls.  Re-selection with
    another id therefore leaves the earlier choice flagged as well. *)
Theorem selected_flags_only_grow
    (fk : bool) (calls : list select_call) (db : DB) :
  let db' := select_all fk db calls in
  (forall v, In v (text_variations db) ->
             TextVariation.is_selected v = true ->
             In v (text_variations db'))
  /\ (forall v', In v' (text_variations db') ->
                 TextVariation.is_selected v' = true ->
                 In v' (text_variations db)
                 \/ exists c, In c calls
                              /\ Routes.text_variation_id (sc_request c)
                                 = TextVariation.id v')
  /\ (forall post_id,
        List.length (filter (PostService.selection_of post_id)
                       (post_selections db)) <= 1 ->
        List.length (filter (PostService.selection_of post_id)
                       (post_selections db')) <= 1).
Proof.
  revert db. induction calls as [|c calls IH]; intros db; simpl.
  - repeat split; auto.
  - set (db1 := snd (Routes.choose_variation fk db (sc_uuid4 c) (sc_now c)
                       (sc_post_id c) (sc_request c))).
    destruct (IH db1) as (K & O & U).
    pose proof (choose_variation_text_variations fk db (sc_uuid4 c) (sc_now c)
                  (sc_post_id c) (sc_request c)) as T.
    cbv zeta in T. fold db1 in T.
    split; [|split].
    + intros v Hin Hs. apply K; [|exact Hs].
      destruct T as [-> | ->]; [exact Hin|].
      now apply update_where_keeps_selected.
    + intros v' Hin Hs. destruct (O v' Hin Hs) as [H1 | (c' & Hc & E)].
      * destruct T as [T | T]; rewrite T in H1; [now left|].
        apply update_where_origin in H1 as [H1 | H1]; [now left|].
        right. exists c. split; [now left | now symmetry].
      * right. exists c'. split; [now right | exact E].
    + intros post_id H. apply U.
      now apply choose_variation_unique.
Qed.

(** A run of the amended statement on the re-selection below. *)
Lemma selected_flags_only_grow_witness :
  let calls :=
    [ Build_select_call (Demo2.uuids "a") 50%Z "p1" (Demo2.request "t1" ["m1"]);
      Build_select_call (Demo2.uuids "b") 60%Z "p1" (Demo2.request "t2" ["m1"]) ] in
  List.length (filter (PostService.selection_of "p1")
                 (post_selections Demo2.db)) <= 1
  /\ List.length (filter (PostService.selection_of "p1")
                    (post_selections (select_all true Demo2.db calls))) <= 1.
Proof.
  cbv zeta. split; [simpl; lia|].
  apply (selected_flags_only_grow true _ Demo2.db). simpl. lia.
Defined.

(** C7, the claim as stated fails: after a select of t1 and a re-selection
    of t2 for the same post, both text variations carry the selected flag
    (the PostSelection row was replaced). *)
Lemma reselection_leaves_two_selected :
  let db1 := snd (Routes.choose_variation true Demo2.db (Demo2.uuids "a") 50%Z
                    "p1" (Demo2.request "t1" ["m1"])) in
  let db2 := snd (Routes.choose_variation true db1 (Demo2.uuids "b") 60%Z
                    "p1" (Demo2.request "t2" ["m1"])) in
  map TextVariation.id (Spec.selected_variations Demo2.db "p1") = []
  /\ map TextVariation.id (Spec.selected_variations db1 "p1") = ["t1"]
  /\ map TextVariation.id (Spec.selected_variations db2 "p1") = ["t1"; "t2"]
  /\ post_selections db2 = [PostSelection.mk "b-0" "p1" "t2"].
Proof. repeat split; reflexivity. Qed.

Lemma unwanted_rows_facts uuid4 now post_id (l : list MediaContent.t) :
  forall k rows,
    PostService.unwanted_rows uuid4 k now post_id l = Some rows ->
    map Spec.tombstone_facts rows
    = map (fun m => (MediaContent.id m, MediaContent.file_path m, post_id, now)) l.
Proof.
  induction l as [|m l IH]; simpl; intros k rows H.
  - now inversion H.
  - destruct (MediaContent.file_path m) as [f|] eqn:F; [|discriminate].
    destruct (PostService.unwanted_rows uuid4 (S k) now post_id l) as [rs|] eqn:R;
      [|discriminate].
    inversion H; subst. simpl. unfold Spec.tombstone_facts at 1. simpl.
    now rewrite (IH _ _ R).
Qed.

Lemma unwanted_rows_located uuid4 now post_id (l : list MediaContent.t) :
  forall k rows,
    PostService.unwanted_rows uuid4 k now post_id l = Some rows ->
    forall m, In m l -> MediaContent.file_path m <> None.
Proof.
  induction l as [|x l IH]; simpl; intros k rows H m Hin; [contradiction|].
  destruct (MediaContent.file_path x) as [f|] eqn:F; [|discriminate].
  destruct (PostService.unwanted_rows uuid4 (S k) now post_id l) as [rs|] eqn:R;
    [|discriminate].
  destruct Hin as [<-|Hin]; [congruence | now apply (IH _ _ R)].
Qed.

Lemma filter_ext_in' {A : Type} (f g : A -> bool) (l : list A) :
  (forall x, In x (filter f l) -> g x = true) ->
  (forall x, g x = true -> f x = true) ->
  filter f l = filter g l.
Proof.
  intros H1 H2. induction l as [|x l IH]; simpl in *; [reflexivity|].
  destruct (f x) eqn:F.
  - rewrite (H1 x) by (simpl; now left). f_equal. apply IH.
    intros y Hy. apply H1. now right.
  - destruct (g x) eqn:G; [rewrite (H2 x G) in F; discriminate|].
    now apply IH.
Qed.

Lemma filter_map_commute {A : Type} (P : A -> bool) (f : A -> A) (l : list A) :
  (forall x, P (f x) = P x) -> filter P (map f l) = map f (filter P l).
Proof.
  intros H. induction l as [|x l IH]; simpl; [reflexivity|].
  rewrite H. destruct (P x); simpl; now rewrite IH.
Qed.

Lemma flag_chosen_fields chosen m :
  MediaContent.id (flag_chosen chosen m) = MediaContent.id m
  /\ MediaContent.post_id (flag_chosen chosen m) = MediaContent.post_id m
  /\ MediaContent.file_path (flag_chosen chosen m) = MediaContent.file_path m.
Proof.
  unfold flag_chosen. destruct (PyStr.mem_list _ _); destruct m; now simpl.
Qed.

Lemma tombstones_of_unwanted (chosen : list string) (post_id : string)
    (now : datetime) (l : list MediaContent.t) (rows : list UnwantedMedia.t) :
  NoDup (map MediaContent.id l) ->
  map Spec.tombstone_facts rows
  = map (fun m => (MediaContent.id m, MediaContent.file_path m, post_id, now))
      (filter (Spec.unchosen_located chosen post_id) l) ->
  forall m, In m l ->
    Spec.tombstones_in rows m
    = if Spec.unchosen_located chosen post_id m then 1 else 0.
Proof.
  intros ND E m Hin. unfold Spec.tombstones_in.
  assert (L : forall rs (ms : list MediaContent.t),
             map Spec.tombstone_facts rs
             = map (fun m => (MediaContent.id m, MediaContent.file_path m,
                              post_id, now)) ms ->
             List.length
               (filter (fun u => String.eqb (UnwantedMedia.media_content_id u)
                                   (MediaContent.id m)) rs)
             = List.length
                 (filter (fun x => String.eqb (MediaContent.id x)
                                     (MediaContent.id m)) ms)).
  { induction rs as [|r rs IH]; intros [|x ms] Hm; simpl in *;
      try discriminate; [reflexivity|].
    injection Hm as H1 _ _ _ H5. rewrite H1.
    destruct (String.eqb _ _); simpl; now rewrite (IH _ H5). }
  rewrite (L _ _ E). clear L E rows.
  induction l as [|x l IH]; simpl in *; [contradiction|].
  inversion ND as [|? ? Hx ND']; subst.
  destruct Hin as [->|Hin].
  - assert (Z0 : filter (fun y => String.eqb (MediaContent.id y) (MediaContent.id m))
                  (filter (Spec.unchosen_located chosen post_id) l) = []).
    { apply existsb_filter_nil. apply not_true_is_false. intros Hex.
      apply existsb_exists in Hex as (y & Hy & Ey).
      apply filter_In in Hy as [Hy _]. apply String.eqb_eq in Ey.
      apply Hx. rewrite <- Ey. now apply in_map. }
    destruct (Spec.unchosen_located chosen post_id m); simpl.
    + now rewrite String.eqb_refl, Z0.
    + now rewrite Z0.
  - rewrite <- (IH ND' Hin).
    destruct (Spec.unchosen_located chosen post_id x); simpl; [|reflexivity].
    destruct (String.eqb_spec (MediaContent.id x) (MediaContent.id m)) as [Ex|];
      [|reflexivity].
    exfalso. apply Hx. rewrite Ex. now apply in_map.
Qed.

Lemma flag_chosen_all (chosen : list string) (l : list MediaContent.t) :
  match chosen with
  | [] => l
  | _ :: _ =>
      update_where (fun m => PyStr.mem_list (MediaContent.id m) chosen)
        (MediaContent.set_is_selected true) l
  end = map (flag_chosen chosen) l.
Proof.
  destruct chosen as [|c cs]; [|reflexivity].
  induction l as [|x l IH]; simpl; [reflexivity | now rewrite <- IH].
Qed.

Lemma filter_filter {A : Type} (f g : A -> bool) (l : list A) :
  filter f (filter g l) = filter (fun x => g x && f x) l.
Proof.
  induction l as [|x l IH]; simpl; [reflexivity|].
  destruct (g x); simpl; [destruct (f x); now rewrite IH | exact IH].
Qed.

Lemma unwanted_as_located (chosen : list string) (post_id : string)
    (l : list MediaContent.t) :
  (forall m,
     In m (filter (fun m => String.eqb (MediaContent.post_id m) post_id
                            && PostService.is_unwanted chosen m) l) ->
     MediaContent.file_path m <> None) ->
  filter (fun m => String.eqb (MediaContent.post_id m) post_id
                   && PostService.is_unwanted chosen m) l
  = filter (Spec.unchosen_located chosen post_id) l.
Proof.
  intros H. apply filter_ext_in'.
  - intros x Hx. specialize (H x Hx). apply filter_In in Hx as [_ Hx].
    unfold Spec.unchosen_located, Spec.has_location.
    unfold PostService.is_unwanted in Hx.
    destruct (MediaContent.file_path x) as [[|a f]|]; [| |congruence];
      destruct (String.eqb _ _), (PyStr.mem_list _ _); simpl in *;
      congruence.
  - intros x. unfold Spec.unchosen_located, Spec.has_location,
      PostService.is_unwanted.
    destruct (MediaContent.file_path x) as [[|a f]|];
      destruct (String.eqb _ _), (PyStr.mem_list _ _); simpl;
      congruence.
Qed.

(** C2, as amended: a successful [create_selection] flags every media row
    whose id was chosen, with or without storage location, and leaves the
    flag of every other row as it was.  It inserts one tombstone, recording
    id, location, post and time, for each media row of the post that was not
    chosen and has a non-empty location, in the order of the rows, and no
    other; tombstones of earlier calls stay.  The count it returns is the
    number of tombstones it inserted, and when the media ids are distinct
    each row of the post has one of the inserted tombstones if it was not
    chosen and has a location, and none otherwise. *)
Theorem create_selection_reconciles
    (fk : bool) (db : DB) (uuid4 : nat -> string) (now : datetime)
    (post_id tv : string) (imgs vids : option (list string))
    (sid : string) (n : nat) (db' : DB) :
  PostService.create_selection fk db uuid4 now post_id tv imgs vids
  = (Some (sid, n), db') ->
  let chosen := (or_empty imgs ++ or_empty vids)%list in
  let unwanted :=
    match PostService.find_post db post_id with
    | Some _ =>
        filter (Spec.unchosen_located chosen post_id) (media_contents db)
    | None => []
    end in
  media_contents db' = map (flag_chosen chosen) (media_contents db)
  /\ exists rows,
       unwanted_media db' = (unwanted_media db ++ rows)%list
       /\ map Spec.tombstone_facts rows
          = map (fun m => (MediaContent.id m, MediaContent.file_path m,
                           post_id, now)) unwanted
       /\ n = List.length rows
       /\ (NoDup (map MediaContent.id (media_contents db)) ->
           PostService.find_post db post_id <> None ->
           forall m, In m (media_contents db) ->
             Spec.tombstones_in rows m
             = if Spec.unchosen_located chosen post_id m then 1 else 0).
Proof.
  intros H chosen unwanted.
  unfold PostService.create_selection in H.
  destruct (delete_existing_selection_frame fk db post_id)
    as (_ & _ & Hm & Hu & Hf & _).
  cbv zeta in Hm, Hu, Hf.
  destruct (negb _); [discriminate|].
  fold chosen in H. rewrite Hf, Hm in H.
  rewrite flag_chosen_all in H.
  set (l := media_contents db) in *.
  set (P := fun m => String.eqb (MediaContent.post_id m) post_id
                     && PostService.is_unwanted chosen m).
  assert (EU : forall U rows,
             U = match PostService.find_post db post_id with
                 | Some _ =>
                     filter (PostService.is_unwanted chosen)
                       (filter (fun m => String.eqb (MediaContent.post_id m)
                                           post_id)
                          (map (flag_chosen chosen) l))
                 | None => []
                 end ->
             PostService.unwanted_rows uuid4 (1 + List.length chosen) now
               post_id U = Some rows ->
             U = map (flag_chosen chosen) unwanted).
  { intros U rows -> R. subst unwanted.
    destruct (PostService.find_post db post_id); [|reflexivity].
    rewrite filter_filter in *. fold P in R |- *.
    assert (C : forall x, P (flag_chosen chosen x) = P x).
    { intros x. unfold P, PostService.is_unwanted.
      destruct (flag_chosen_fields chosen x) as (-> & -> & ->). reflexivity. }
    rewrite (filter_map_commute P _ l C) in *.
    f_equal. apply unwanted_as_located. fold P.
    intros m Hin.
    destruct (flag_chosen_fields chosen m) as (_ & _ & <-).
    apply (unwanted_rows_located _ _ _ _ _ _ R). now apply in_map. }
  match type of H with
  | match PostService.unwanted_rows _ _ _ _ ?u with _ => _ end = _ =>
      set (U := u) in *
  end.
  destruct (PostService.unwanted_rows uuid4 (1 + List.length chosen) now
              post_id U) as [rows|] eqn:R; [|discriminate].
  destruct (forallb _ _); [|discriminate].
  specialize (EU U rows eq_refl R).
  assert (F : map Spec.tombstone_facts rows
              = map (fun m => (MediaContent.id m, MediaContent.file_path m,
                               post_id, now)) unwanted).
  { rewrite (unwanted_rows_facts _ _ _ _ _ _ R), EU, map_map.
    apply map_ext. intros x.
    destruct (flag_chosen_fields chosen x) as (-> & _ & ->). reflexivity. }
  inversion H; subst sid n db'; clear H. simpl.
  split; [reflexivity|]. exists rows. rewrite Hu.
  split; [reflexivity|]. split; [exact F|].
  split.
  { apply (f_equal (@List.length _)) in F. rewrite !length_map in F.
    rewrite F, EU. now rewrite length_map. }
  intros ND Hp m Hin. subst unwanted.
  destruct (PostService.find_post db post_id); [|congruence].
  now apply (tombstones_of_unwanted chosen post_id now l rows ND F).
Qed.

(** A run of the amended statement: m1 is chosen, m3 gets the one
    tombstone, m2 (no location) neither flag nor tombstone. *)
Lemma create_selection_reconciles_witness :
  let r := PostService.create_selection true Demo2.db (Demo2.uuids "a") 50%Z
             "p1" "t1" (Some ["m1"]) (Some []) in
  r = (Some ("a-0", 1), snd r)
  /\ media_contents (snd r)
     = map (flag_chosen ["m1"]) (media_contents Demo2.db)
  /\ map MediaContent.is_selected (media_contents (snd r))
     = [true; false; false]
  /\ map Spec.tombstone_facts (unwanted_media (snd r))
     = [("m3", Some "https://cdn/3.jpg", "p1", 50%Z)]
  /\ Spec.reconciled (snd r) "p1" = true.
Proof.
  cbv zeta. split; [reflexivity|].
  split.
  { exact (proj1 (create_selection_reconciles true Demo2.db (Demo2.uuids "a")
                    50%Z "p1" "t1" (Some ["m1"]) (Some []) "a-0" 1
                    (snd (PostService.create_selection true Demo2.db
                            (Demo2.uuids "a") 50%Z "p1" "t1" (Some ["m1"])
                            (Some [])))
                    eq_refl)). }
  repeat split; reflexivity.
Defined.

(** C2, the claim as stated fails.  A chosen media row without storage
    location is flagged selected (m2 below, whose upload left an empty
    location), and after a re-selection an unchosen row has two tombstones
    (m1 below). *)
Lemma select_breaks_reconciliation :
  let r1 := PostService.create_selection true Demo2.db (Demo2.uuids "a") 50%Z
              "p1" "t1" (Some ["m2"]) (Some []) in
  let r2 := PostService.create_selection true (snd r1) (Demo2.uuids "b") 60%Z
              "p1" "t1" (Some ["m2"]) (Some []) in
  fst r1 = Some ("a-0", 2)
  /\ map (fun m => (MediaContent.id m, MediaContent.file_path m,
                    MediaContent.is_selected m)) (media_contents (snd r1))
     = [("m1", Some "https://cdn/1.jpg", false); ("m2", Some "", true);
        ("m3", Some "https://cdn/3.jpg", false)]
  /\ Spec.reconciled (snd r1) "p1" = false
  /\ fst r2 = Some ("b-0", 2)
  /\ map UnwantedMedia.media_content_id (unwanted_media (snd r2))
     = ["m1"; "m3"; "m1"; "m3"]
  /\ Spec.reconciled (snd r2) "p1" = false.
Proof. repeat split; reflexivity. Qed.

(** ** GeminiAgentService: progress delivery does not steer the run *)

Lemma agree_refl w : agree w w.
Proof. now repeat split. Qed.

Lemma agree_trans w1 w2 w3 : agree w1 w2 -> agree w2 w3 -> agree w1 w3.
Proof. unfold agree. intuition congruence. Qed.

Lemma agree_sym w1 w2 : agree w1 w2 -> agree w2 w1.
Proof. unfold agree. intuition congruence. Qed.

Lemma sim_ret {A : Type} (x : A) : sim (ret x) (ret x).
Proof. intros w1 w2 H. now split. Qed.

Lemma sim_lift {A : Type} (r : exn + A) : sim (lift r) (lift r).
Proof. intros w1 w2 H. now split. Qed.

Lemma sim_bind {A B : Type} (m1 m2 : M A) (k1 k2 : A -> M B) :
  sim m1 m2 -> (forall x, sim (k1 x) (k2 x)) -> sim (bind m1 k1) (bind m2 k2).
Proof.
  intros Hm Hk w1 w2 H. unfold bind.
  destruct (Hm w1 w2 H) as [E Ha].
  destruct (m1 w1) as [[e1|x1] w1'], (m2 w2) as [[e2|x2] w2']; simpl in *;
    try discriminate.
  - split; [congruence | exact Ha].
  - inversion E; subst. now apply Hk.
Qed.

Lemma sim_try_except {A : Type} (m1 m2 : M A) (h1 h2 : exn -> M A) :
  sim m1 m2 -> (forall e, sim (h1 e) (h2 e)) ->
  sim (try_except m1 h1) (try_except m2 h2).
Proof.
  intros Hm Hh w1 w2 H. unfold try_except.
  destruct (Hm w1 w2 H) as [E Ha].
  destruct (m1 w1) as [[e1|x1] w1'], (m2 w2) as [[e2|x2] w2']; simpl in *;
    try discriminate.
  - inversion E; subst. now apply Hh.
  - split; [exact E | exact Ha].
Qed.

(** Whatever the callback does, [_send_progress] returns normally and
    changes the record of deliveries only. *)
Lemma send_progress_returns cb step message kwargs w :
  fst (GeminiAgentService._send_progress cb step message kwargs w) = inr tt
  /\ agree w (snd (GeminiAgentService._send_progress cb step message kwargs w)).
Proof.
  unfold GeminiAgentService._send_progress. destruct cb as [f|]; [|split; [reflexivity|apply agree_refl]].
  unfold try_except, GeminiAgentService.invoke.
  destruct (f _ _ _); simpl; split; try reflexivity; now repeat split.
Qed.

Lemma sim_send_progress cb1 cb2 step message kwargs :
  sim (GeminiAgentService._send_progress cb1 step message kwargs)
      (GeminiAgentService._send_progress cb2 step message kwargs).
Proof.
  intros w1 w2 H.
  destruct (send_progress_returns cb1 step message kwargs w1) as [E1 A1].
  destruct (send_progress_returns cb2 step message kwargs w2) as [E2 A2].
  split; [congruence|].
  eapply agree_trans; [apply agree_sym; exact A1|].
  eapply agree_trans; [exact H | exact A2].
Qed.

(** The steps that do not look at the deliveries. *)
Ltac blind_start :=
  let w1 := fresh "w1" in
  let w2 := fresh "w2" in
  intros w1 w2 (Hdb & Hu & Hn & Hc);
  destruct w1, w2; simpl in *; subst.

Ltac blind_end := simpl; split; [reflexivity | now repeat split].

Lemma sim_update_post_status post_id status step err :
  sim (GeminiAgentService.update_post_status post_id status step err)
      (GeminiAgentService.update_post_status post_id status step err).
Proof.
  unfold GeminiAgentService.update_post_status. blind_start.
  destruct (PostService.update_post_status _ _ _ _ _ _) as [[|] d]; blind_end.
Qed.

Lemma sim_add_text_variation env post_id vn tc prompts :
  sim (GeminiAgentService.add_text_variation env post_id vn tc prompts)
      (GeminiAgentService.add_text_variation env post_id vn tc prompts).
Proof.
  unfold GeminiAgentService.add_text_variation. blind_start.
  destruct (PostService.add_text_variation _ _ _ _ _ _ _); blind_end.
Qed.

Lemma sim_add_media_content env post_id mt n f g :
  sim (GeminiAgentService.add_media_content env post_id mt n f g)
      (GeminiAgentService.add_media_content env post_id mt n f g).
Proof.
  unfold GeminiAgentService.add_media_content. blind_start.
  destruct (PostService.add_media_content _ _ _ _ _ _ _ _); blind_end.
Qed.

Lemma sim_external {A : Type} (c : call) (r : exn + A) :
  sim (GeminiAgentService.external c r) (GeminiAgentService.external c r).
Proof. unfold GeminiAgentService.external. blind_start. blind_end. Qed.

Lemma sim_read {A : Type} (f : DB -> A) :
  sim (fun w => (inr (f (w_db w)), w)) (fun w => (inr (f (w_db w)), w)).
Proof. intros w1 w2 H. simpl. split; [|exact H]. destruct H as (-> & _). reflexivity. Qed.

Ltac sim_steps :=
  repeat first
    [ apply sim_ret | apply sim_lift | apply sim_send_progress
    | apply sim_update_post_status | apply sim_add_text_variation
    | apply sim_add_media_content | apply sim_external
    | apply (sim_read (fun db => PostService.get_data_sources db _))
    | apply sim_bind; [|intros ?] ].

Lemma sim_extract_contexts env cb1 cb2 total sources :
  forall idx acc,
    sim (GeminiAgentService.extract_contexts env cb1 idx total sources acc)
        (GeminiAgentService.extract_contexts env cb2 idx total sources acc).
Proof.
  induction sources as [|s sources IH]; intros idx acc; simpl.
  - apply sim_ret.
  - apply sim_bind; [apply sim_send_progress|intros _].
    apply sim_bind; [|intros x; apply IH].
    destruct (DataSource.source_type s); unfold GeminiAgentService.get_text_content_from_website;
      sim_steps.
Qed.

Lemma sim_persist_variations env cb1 cb2 post_id variations :
  sim (GeminiAgentService.persist_variations env cb1 post_id variations)
      (GeminiAgentService.persist_variations env cb2 post_id variations).
Proof.
  induction variations as [|v variations IH]; simpl.
  - apply sim_ret.
  - sim_steps; [|exact IH].
    destruct x1 as [[|a s]|]; sim_steps.
Qed.

Lemma sim_generate_images env post post_id tv prompts :
  forall n, sim (GeminiAgentService.generate_images env post post_id tv prompts n)
                (GeminiAgentService.generate_images env post post_id tv prompts n).
Proof.
  induction prompts as [|p prompts IH]; intros n; simpl.
  - apply sim_ret.
  - sim_steps. apply IH.
Qed.

Lemma sim_produce env cb1 cb2 post post_id :
  sim (GeminiAgentService.produce env cb1 post post_id) (GeminiAgentService.produce env cb2 post post_id).
Proof.
  unfold GeminiAgentService.produce, GeminiAgentService.gather, GeminiAgentService.persist.
  sim_steps.
  - apply sim_extract_contexts.
  - apply sim_persist_variations.
  - destruct (GeminiAgentService.wants_images post); sim_steps. apply sim_generate_images.
Qed.

Lemma sim_finalize env cb1 cb2 post :
  sim (GeminiAgentService.finalize env cb1 post) (GeminiAgentService.finalize env cb2 post).
Proof.
  unfold GeminiAgentService.finalize. sim_steps.
  apply (sim_read (fun db =>
                     str_of_content env
                       (PostService.get_text_variations db (Post.id post))
                       (PostService.get_media_contents db (Post.id post)))).
Qed.

Lemma sim_generate_post env cb1 cb2 post_id :
  sim (GeminiAgentService.generate_post env cb1 post_id) (GeminiAgentService.generate_post env cb2 post_id).
Proof.
  intros w1 w2 H. unfold GeminiAgentService.generate_post.
  destruct H as (Hdb & H'). rewrite Hdb.
  destruct (PostService.find_post (w_db w2) post_id) as [post|].
  - apply sim_try_except; [| |now split].
    + unfold GeminiAgentService.workflow. apply sim_bind; [apply sim_produce|intros _].
      apply sim_finalize.
    + intros e. unfold GeminiAgentService._update_post_error. sim_steps.
  - simpl. split; [reflexivity | now split].
Qed.

(** The callback is really invoked: the deliveries of two runs differ (all
    delivered, all raised) while result and database coincide. *)
Example deliveries_differ :
  let r1 := GeminiAgentService.generate_post (Demo.env (inr Demo.answer))
              (Some Demo.deliver_all) "p1" (Demo.world0 IMAGE PENDING) in
  let r2 := GeminiAgentService.generate_post (Demo.env (inr Demo.answer))
              (Some Demo.raise_always) "p1" (Demo.world0 IMAGE PENDING) in
  let r3 := GeminiAgentService.generate_post (Demo.env (inr Demo.answer))
              None "p1" (Demo.world0 IMAGE PENDING) in
  map d_step (w_sent (snd r1))
  = ["generating_text"; "extracting_context"; "generating_text";
     "generating_media"; "completed"]
  /\ map d_raised (w_sent (snd r1)) = [None; None; None; None; None]
  /\ forallb (fun d => match d_raised d with Some _ => true | None => false end)
       (w_sent (snd r2)) = true
  /\ List.length (w_sent (snd r2)) = 5
  /\ w_sent (snd r3) = []
  /\ fst r1 = inr true /\ fst r2 = inr true /\ fst r3 = inr true
  /\ w_db (snd r1) = w_db (snd r2) /\ w_db (snd r2) = w_db (snd r3).
Proof. repeat split; vm_compute; reflexivity. Qed.

(** C10: a run gives the same result and leaves the same database (the
    post with its status, the text variations, the media contents and every
    other table) whether the progress callback is absent, returns normally on
    every invocation, or raises on some or all of them; the uuids drawn and
    the calls to the outside are the same as well. *)
Theorem progress_delivery_does_not_steer
    (env : Env) (cb1 cb2 : option callback) (post_id : string) (w : world) :
  let r1 := GeminiAgentService.generate_post env cb1 post_id w in
  let r2 := GeminiAgentService.generate_post env cb2 post_id w in
  fst r1 = fst r2
  /\ w_db (snd r1) = w_db (snd r2)
  /\ w_uuids (snd r1) = w_uuids (snd r2)
  /\ w_calls (snd r1) = w_calls (snd r2).
Proof.
  cbv zeta.
  destruct (sim_generate_post env cb1 cb2 post_id w w (agree_refl w))
    as (E & Hdb & Hu & _ & Hc).
  now repeat split.
Qed.

(** ** GeminiAgentService: the shape of a run *)

Lemma preserves_ret (R : world -> world -> Prop) {A : Type} (x : A) :
  (forall w, R w w) -> preserves R (ret x).
Proof. intros H w. apply H. Qed.

Lemma preserves_lift (R : world -> world -> Prop) {A : Type} (r : exn + A) :
  (forall w, R w w) -> preserves R (lift r).
Proof. intros H w. apply H. Qed.

Lemma preserves_read (R : world -> world -> Prop) {A : Type}
    (f : world -> A) :
  (forall w, R w w) -> preserves R (fun w => (inr (f w), w)).
Proof. intros H w. apply H. Qed.

Lemma preserves_bind (R : world -> world -> Prop) {A B : Type}
    (m : M A) (k : A -> M B) :
  (forall a b c, R a b -> R b c -> R a c) ->
  preserves R m -> (forall x, preserves R (k x)) -> preserves R (bind m k).
Proof.
  intros T Hm Hk w. unfold bind. specialize (Hm w).
  destruct (m w) as [[e|x] w1]; simpl in *; [exact Hm|].
  eapply T; [exact Hm | apply Hk].
Qed.

Lemma status_writes_app p (a b : list call) :
  status_writes p (a ++ b) = (status_writes p a ++ status_writes p b)%list.
Proof. unfold status_writes. apply flat_map_app. Qed.

Lemma quiet_refl w : quiet w w.
Proof.
  repeat split. exists []. split; [now rewrite app_nil_r | reflexivity].
Qed.

Lemma quiet_trans a b c : quiet a b -> quiet b c -> quiet a c.
Proof.
  intros (P1 & N1 & cs1 & C1 & S1) (P2 & N2 & cs2 & C2 & S2).
  split; [congruence|]. split; [congruence|].
  exists (cs1 ++ cs2)%list. split.
  - now rewrite C2, C1, app_assoc.
  - intros p. now rewrite status_writes_app, S1, S2.
Qed.

Lemma keeps_text_refl w : keeps_text w w.
Proof. reflexivity. Qed.

Lemma keeps_text_trans a b c : keeps_text a b -> keeps_text b c -> keeps_text a c.
Proof. unfold keeps_text. congruence. Qed.

Lemma quiet_add_text_variation env post_id vn tc prompts :
  preserves quiet (GeminiAgentService.add_text_variation env post_id vn tc prompts).
Proof.
  intros w. unfold GeminiAgentService.add_text_variation, PostService.add_text_variation.
  destruct (bind_integer vn), (bind_text tc); try destruct (PostService.fk_ok _ _);
    simpl; repeat split; exists []; now rewrite app_nil_r.
Qed.

Lemma quiet_add_media_content env post_id mt n f g :
  preserves quiet (GeminiAgentService.add_media_content env post_id mt n f g).
Proof.
  intros w. unfold GeminiAgentService.add_media_content, PostService.add_media_content.
  destruct (PostService.fk_ok _ _);
    simpl; repeat split; exists []; now rewrite app_nil_r.
Qed.

Lemma quiet_external {A : Type} (c : call) (r : exn + A) :
  (forall p, status_writes p [c] = []) -> preserves quiet (GeminiAgentService.external c r).
Proof.
  intros H w. unfold GeminiAgentService.external. simpl. repeat split. now exists [c].
Qed.

Lemma keeps_text_add_media_content env post_id mt n f g :
  preserves keeps_text (GeminiAgentService.add_media_content env post_id mt n f g).
Proof.
  intros w. unfold GeminiAgentService.add_media_content, PostService.add_media_content.
  destruct (PostService.fk_ok _ _); reflexivity.
Qed.

Lemma keeps_text_external {A : Type} (c : call) (r : exn + A) :
  preserves keeps_text (GeminiAgentService.external c r).
Proof. intros w. reflexivity. Qed.

Lemma keeps_text_update_post_status post_id status step err :
  preserves keeps_text (GeminiAgentService.update_post_status post_id status step err).
Proof.
  intros w. unfold GeminiAgentService.update_post_status, PostService.update_post_status.
  destruct (PostService.find_post _ _); reflexivity.
Qed.

Ltac quiet_steps :=
  repeat first
    [ apply (preserves_ret quiet); exact quiet_refl
    | apply (preserves_lift quiet); exact quiet_refl
    | apply (preserves_read quiet); exact quiet_refl
    | apply quiet_add_text_variation | apply quiet_add_media_content
    | apply quiet_external; reflexivity
    | apply (preserves_bind quiet); [exact quiet_trans | | intros ?] ].

Ltac keeps_text_steps :=
  repeat first
    [ apply (preserves_ret keeps_text); exact keeps_text_refl
    | apply (preserves_lift keeps_text); exact keeps_text_refl
    | apply (preserves_read keeps_text); exact keeps_text_refl
    | apply keeps_text_add_media_content | apply keeps_text_external
    | apply keeps_text_update_post_status
    | apply (preserves_bind keeps_text); [exact keeps_text_trans | | intros ?] ].

Lemma quiet_extract_contexts env total sources :
  forall idx acc, preserves quiet (GeminiAgentService.extract_contexts env None idx total sources acc).
Proof.
  induction sources as [|s sources IH]; intros idx acc; simpl; quiet_steps.
  - destruct (DataSource.source_type s);
      unfold GeminiAgentService.get_text_content_from_website; quiet_steps.
  - apply IH.
Qed.

Lemma quiet_persist_variations env post_id variations :
  preserves quiet (GeminiAgentService.persist_variations env None post_id variations).
Proof.
  induction variations as [|v variations IH]; simpl; quiet_steps.
  - destruct x1 as [[|a s]|]; quiet_steps.
  - exact IH.
Qed.

Lemma quiet_generate_images env post post_id tv prompts :
  forall n, preserves quiet (GeminiAgentService.generate_images env post post_id tv prompts n).
Proof.
  induction prompts as [|p prompts IH]; intros n; simpl; quiet_steps.
  apply IH.
Qed.

Lemma quiet_persist env post post_id tv :
  preserves quiet (GeminiAgentService.persist env None post post_id tv).
Proof.
  unfold GeminiAgentService.persist. quiet_steps; [apply quiet_persist_variations|].
  destruct (GeminiAgentService.wants_images post); simpl; quiet_steps.
  apply quiet_generate_images.
Qed.

Lemma quiet_gather env post :
  preserves quiet (GeminiAgentService.gather env None post).
Proof.
  unfold GeminiAgentService.gather. simpl. quiet_steps. apply quiet_extract_contexts.
Qed.

Lemma quiet_produce env post post_id :
  preserves quiet (GeminiAgentService.produce env None post post_id).
Proof.
  unfold GeminiAgentService.produce.
  apply (preserves_bind quiet); [exact quiet_trans | apply quiet_gather |].
  intros raw.
  apply (preserves_bind quiet); [exact quiet_trans | |].
  - apply (preserves_lift quiet); exact quiet_refl.
  - intros tv. apply quiet_persist.
Qed.

Lemma keeps_text_generate_images env post post_id tv prompts :
  forall n, preserves keeps_text (GeminiAgentService.generate_images env post post_id tv prompts n).
Proof.
  induction prompts as [|p prompts IH]; intros n; simpl; keeps_text_steps.
  apply IH.
Qed.

(** A run on an existing post: [produce], then one status write, completed
    when [produce] returned and failed, with the message of the exception,
    when it raised. *)
Lemma generate_post_none env post_id w post :
  PostService.find_post (w_db w) post_id = Some post ->
  let p := GeminiAgentService.produce env None post post_id w in
  GeminiAgentService.generate_post env None post_id w
  = match fst p with
    | inr _ =>
        (inr true,
         status_written post_id COMPLETED (Some "Post generation completed")
           None (snd p))
    | inl e =>
        (inr false,
         status_written post_id FAILED None (Some (str_of_exn e)) (snd p))
    end.
Proof.
  intros F p. unfold GeminiAgentService.generate_post. rewrite F.
  pose proof (find_post_id _ _ _ F) as I.
  destruct (quiet_produce env post post_id w) as (P & _).
  fold p in P.
  assert (F1 : PostService.find_post (w_db (snd p)) post_id = Some post).
  { unfold PostService.find_post in *. now rewrite P. }
  unfold try_except, GeminiAgentService.workflow, bind. fold p.
  destruct p as [[e|[]] w1]; simpl in *.
  - unfold GeminiAgentService._update_post_error, bind, GeminiAgentService.update_post_status, status_written.
    rewrite I.
    destruct (update_post_status_found _ _ FAILED None (Some (str_of_exn e))
                (w_now w1) _ F1) as [-> _].
    reflexivity.
  - unfold GeminiAgentService.finalize, bind, GeminiAgentService.update_post_status, status_written.
    rewrite I.
    destruct (update_post_status_found _ _ COMPLETED
                (Some "Post generation completed") None (w_now w1) _ F1)
      as [-> _].
    reflexivity.
Qed.

Lemma record_calls_nil w : record_calls [] w = w.
Proof. destruct w. unfold record_calls. simpl. now rewrite app_nil_r. Qed.

Lemma record_calls_app a b w :
  record_calls b (record_calls a w) = record_calls (a ++ b) w.
Proof. unfold record_calls. simpl. now rewrite app_assoc. Qed.

Lemma record_call_calls c w : record_call c w = record_calls [c] w.
Proof. reflexivity. Qed.

(** The loop over the sources, without callback: what it collects and the
    fetches it makes. *)
Lemma extract_contexts_none env total sources :
  forall idx acc w,
    GeminiAgentService.extract_contexts env None idx total sources acc w
    = (inr (acc ++ extracted_of env sources)%list,
       record_calls (fetch_calls sources) w).
Proof.
  induction sources as [|s sources IH]; intros idx acc w.
  - simpl. now rewrite app_nil_r, record_calls_nil.
  - cbn [GeminiAgentService.extract_contexts extracted_of fetch_calls flat_map].
    unfold GeminiAgentService._send_progress, bind, ret.
    destruct (DataSource.source_type s) eqn:T.
    + rewrite IH. simpl. now rewrite <- app_assoc.
    + unfold GeminiAgentService.get_text_content_from_website, GeminiAgentService.external.
      fold (website_text env (DataSource.content s)).
      rewrite IH, record_call_calls, record_calls_app.
      destruct (PyStr.truthy (website_text env (DataSource.content s)));
        simpl; now rewrite <- ?app_assoc, ?app_nil_r.
Qed.

Lemma gather_none env post w :
  GeminiAgentService.gather env None post w
  = (generate_text_response env (prompt_of env (w_db w) post),
     record_calls
       (fetch_calls (PostService.get_data_sources (w_db w) (Post.id post))
        ++ [GenerateText (prompt_of env (w_db w) post)])
       w).
Proof.
  unfold GeminiAgentService.gather, GeminiAgentService._send_progress, bind, ret.
  rewrite extract_contexts_none. unfold GeminiAgentService.external.
  rewrite record_call_calls, record_calls_app. reflexivity.
Qed.

(** C1, as amended: a run of the Workflow Engine on an existing post writes
    the status of the post exactly once, at its end: completed when the run
    succeeds, failed when it fails.  It writes none of processing_context,
    generating_text and generating_media, and the write is made whatever the
    status was before the run, a terminal one included. *)
Theorem run_writes_one_status
    (env : Env) (cb : option callback) (post_id : string) (w : world)
    (post : Post.t) :
  PostService.find_post (w_db w) post_id = Some post ->
  let r := GeminiAgentService.generate_post env cb post_id w in
  exists (ok : bool) (cs : list call),
    fst r = inr ok
    /\ w_calls (snd r) = (w_calls w ++ cs)%list
    /\ status_writes post_id cs = [if ok then COMPLETED else FAILED]
    /\ option_map Post.status (PostService.find_post (w_db (snd r)) post_id)
       = Some (if ok then COMPLETED else FAILED).
Proof.
  intros F r.
  destruct (sim_generate_post env cb None post_id w w (agree_refl w))
    as (E & Hdb & _ & _ & Hc).
  fold r in E, Hdb, Hc. rewrite E, Hdb, Hc.
  rewrite (generate_post_none env post_id w post F).
  destruct (quiet_produce env post post_id w) as (P & N & cs & C & S).
  assert (F1 : PostService.find_post
                 (w_db (snd (GeminiAgentService.produce env None post post_id w))) post_id
               = Some post).
  { unfold PostService.find_post in *. now rewrite P. }
  destruct (GeminiAgentService.produce env None post post_id w) as [[e|[]] w1]; simpl in *.
  - exists false, (cs ++ [StatusWrite post_id FAILED])%list.
    split; [reflexivity|]. split; [now rewrite C, app_assoc|].
    split.
    { rewrite status_writes_app, S. simpl. now rewrite String.eqb_refl. }
    destruct (update_post_status_found _ _ FAILED None (Some (str_of_exn e))
                (w_now w1) _ F1) as [_ ->].
    simpl. now by_cases_on_post post FAILED (@None string) (Some (str_of_exn e)).
  - exists true, (cs ++ [StatusWrite post_id COMPLETED])%list.
    split; [reflexivity|]. split; [now rewrite C, app_assoc|].
    split.
    { rewrite status_writes_app, S. simpl. now rewrite String.eqb_refl. }
    destruct (update_post_status_found _ _ COMPLETED
                (Some "Post generation completed") None (w_now w1) _ F1)
      as [_ ->].
    simpl. destruct post; reflexivity.
Qed.

(** A run of the amended statement, on a pending post. *)
Lemma run_writes_one_status_witness :
  PostService.find_post (w_db (Demo.world0 IMAGE PENDING)) "p1"
  = Some (Demo.post IMAGE PENDING)
  /\ exists (ok : bool) (cs : list call),
       fst (GeminiAgentService.generate_post (Demo.env (inr Demo.answer))
              (Some Demo.deliver_all) "p1" (Demo.world0 IMAGE PENDING))
       = inr ok
       /\ w_calls (snd (GeminiAgentService.generate_post
                          (Demo.env (inr Demo.answer))
                          (Some Demo.deliver_all) "p1"
                          (Demo.world0 IMAGE PENDING)))
          = (w_calls (Demo.world0 IMAGE PENDING) ++ cs)%list
       /\ status_writes "p1" cs = [if ok then COMPLETED else FAILED]
       /\ option_map Post.status
            (PostService.find_post
               (w_db (snd (GeminiAgentService.generate_post
                             (Demo.env (inr Demo.answer))
                             (Some Demo.deliver_all) "p1"
                             (Demo.world0 IMAGE PENDING)))) "p1")
          = Some (if ok then COMPLETED else FAILED).
Proof.
  split; [reflexivity|].
  exact (run_writes_one_status (Demo.env (inr Demo.answer))
           (Some Demo.deliver_all) "p1" (Demo.world0 IMAGE PENDING)
           (Demo.post IMAGE PENDING) eq_refl).
Defined.

(** C1, the claim as stated fails.  A successful run on a pending post that
    asks for images takes the status from pending straight to completed,
    through none of the intermediate states; and a run on a post that is
    already completed, when the gateway answers garbage, takes it from
    completed to failed: a transition that leaves a terminal state. *)
Lemma run_does_not_follow_lifecycle :
  (let r := GeminiAgentService.generate_post (Demo.env (inr Demo.answer))
              (Some Demo.deliver_all) "p1" (Demo.world0 IMAGE PENDING) in
   fst r = inr true
   /\ status_writes "p1" (w_calls (snd r)) = [COMPLETED]
   /\ Spec.follows_lifecycle PENDING (status_writes "p1" (w_calls (snd r)))
      = false)
  /\ (let r := GeminiAgentService.generate_post (Demo.env (inr "garbled"))
                 (Some Demo.deliver_all) "p1" (Demo.world0 IMAGE COMPLETED) in
      fst r = inr false
      /\ status_writes "p1" (w_calls (snd r)) = [FAILED]
      /\ Spec.follows_lifecycle COMPLETED
           (status_writes "p1" (w_calls (snd r))) = false).
Proof. repeat split; vm_compute; reflexivity. Qed.

(** C5: when the answer of the text gateway, sanitized, holds no parseable
    JSON object, so that [parse_json_from_string] raises [e], the run
    returns False to its caller (it returns, it does not raise), the post is
    left with status failed, [str(e)] as its error message and the time of
    the run as [completed_at], and the text variations are what they were:
    the run created none. *)
Theorem unparseable_response_fails_run
    (env : Env) (cb : option callback) (post_id : string) (w : world)
    (post : Post.t) (raw : string) (e : exn) :
  PostService.find_post (w_db w) post_id = Some post ->
  generate_text_response env (prompt_of env (w_db w) post) = inr raw ->
  parse_json_from_string (json_loads env) (sanitize raw) = inl e ->
  let r := GeminiAgentService.generate_post env cb post_id w in
  fst r = inr false
  /\ (exists post',
        PostService.find_post (w_db (snd r)) post_id = Some post'
        /\ Post.status post' = FAILED
        /\ Post.error_message post' = Some (str_of_exn e)
        /\ Post.completed_at post' = Some (w_now w))
  /\ text_variations (w_db (snd r)) = text_variations (w_db w).
Proof.
  intros F Hg Hp r.
  destruct (sim_generate_post env cb None post_id w w (agree_refl w))
    as (E & Hdb & _).
  fold r in E, Hdb. rewrite E, Hdb.
  rewrite (generate_post_none env post_id w post F).
  assert (P : GeminiAgentService.produce env None post post_id w
              = (inl e,
                 record_calls
                   (fetch_calls
                      (PostService.get_data_sources (w_db w) (Post.id post))
                    ++ [GenerateText (prompt_of env (w_db w) post)]) w)).
  { unfold GeminiAgentService.produce, bind. rewrite gather_none, Hg.
    unfold lift. now rewrite Hp. }
  rewrite P. simpl.
  split; [reflexivity|].
  destruct (update_post_status_found _ _ FAILED None (Some (str_of_exn e))
              (w_now w) _ F) as [E1 E2].
  split.
  - eexists. split; [exact E2|].
    unfold PostService.assign_status. simpl.
    destruct post; now simpl.
  - now rewrite E1.
Qed.

(** A run of C5: the gateway answers text without braces. *)
Lemma unparseable_response_fails_run_witness :
  let w := Demo.world0 IMAGE PENDING in
  let env := Demo.env (inr "I cannot help with that.") in
  let r := GeminiAgentService.generate_post env (Some Demo.raise_always) "p1" w in
  PostService.find_post (w_db w) "p1" = Some (Demo.post IMAGE PENDING)
  /\ parse_json_from_string (json_loads env)
       (sanitize "I cannot help with that.")
     = inl (ValueError
              "An error occurred: No JSON object found in the input string.")
  /\ fst r = inr false
  /\ text_variations (w_db (snd r)) = [].
Proof.
  cbv zeta. split; [reflexivity|]. split; [reflexivity|].
  destruct (unparseable_response_fails_run
              (Demo.env (inr "I cannot help with that."))
              (Some Demo.raise_always) "p1" (Demo.world0 IMAGE PENDING)
              (Demo.post IMAGE PENDING) "I cannot help with that."
              (ValueError
                 "An error occurred: No JSON object found in the input string.")
              eq_refl eq_refl eq_refl) as (H1 & _ & H3).
  split; [exact H1 | exact H3].
Defined.

Lemma truthy_nonempty (s : string) : PyStr.truthy s = true <-> s <> "".
Proof. destruct s; simpl; split; intros H; congruence. Qed.

(** With the invariant of the data model, the loop collects the non-empty
    results of the extractor. *)
Lemma extracted_of_valid env (sources : list DataSource.t) :
  Forall valid_source sources ->
  extracted_of env sources = filter PyStr.truthy (map (extractor env) sources).
Proof.
  induction 1 as [|s sources V _ IH]; [reflexivity|].
  cbn [extracted_of flat_map map filter]. fold (extracted_of env sources).
  rewrite IH.
  destruct (DataSource.source_type s) eqn:T.
  - assert (X : extractor env s = DataSource.content s)
      by (unfold extractor; now rewrite T).
    apply truthy_nonempty in V. now rewrite X, V.
  - assert (X : extractor env s = website_text env (DataSource.content s))
      by (unfold extractor; now rewrite T).
    rewrite X. destruct (PyStr.truthy _); reflexivity.
Qed.

Lemma produce_calls env post post_id w :
  exists after,
    w_calls (snd (GeminiAgentService.produce env None post post_id w))
    = (w_calls w
       ++ fetch_calls (PostService.get_data_sources (w_db w) (Post.id post))
       ++ GenerateText (prompt_of env (w_db w) post) :: after)%list.
Proof.
  unfold GeminiAgentService.produce, bind. rewrite gather_none.
  destruct (generate_text_response env _) as [e|raw].
  - exists []. simpl. rewrite <- ?app_assoc. reflexivity.
  - unfold lift at 1.
    destruct (parse_json_from_string _ _) as [e|tv].
    + exists []. simpl. rewrite <- ?app_assoc. reflexivity.
    + destruct (quiet_persist env post post_id tv
                  (record_calls
                     (fetch_calls
                        (PostService.get_data_sources (w_db w) (Post.id post))
                      ++ [GenerateText (prompt_of env (w_db w) post)]) w))
        as (_ & _ & cs & C & _).
      exists cs. rewrite C. simpl. rewrite <- ?app_assoc. reflexivity.
Qed.

(** C8: the data sources of the post, which by the invariant of the data
    model have non-empty content, are taken in insertion order; each link is
    fetched, in that order; the non-empty results of the extractor are
    joined with the separator "\n\n---\n\n" into the context, so that a
    source that yields empty text leaves no trace in it; when all sources
    yield empty text the context is the empty string; and in every case the
    run goes on to text generation: the text gateway is called with the
    prompt built from this context. *)
Theorem context_extraction
    (env : Env) (cb : option callback) (post_id : string) (w : world)
    (post : Post.t) :
  PostService.find_post (w_db w) post_id = Some post ->
  let sources := PostService.get_data_sources (w_db w) (Post.id post) in
  Forall valid_source sources ->
  let texts := map (extractor env) sources in
  let context :=
    PyStr.join
      (String PyStr.LF (String PyStr.LF
         ("---" ++ String PyStr.LF (String PyStr.LF ""))))
      (filter PyStr.truthy texts) in
  let r := GeminiAgentService.generate_post env cb post_id w in
  (exists after,
     w_calls (snd r)
     = (w_calls w ++ fetch_calls sources
        ++ GenerateText (GeminiAgentService.text_prompt env post context)
           :: after)%list)
  /\ (Forall (fun t => t = "") texts -> context = "").
Proof.
  intros F sources V texts context r.
  split.
  - destruct (sim_generate_post env cb None post_id w w (agree_refl w))
      as (_ & _ & _ & _ & Hc).
    fold r in Hc. rewrite Hc.
    rewrite (generate_post_none env post_id w post F).
    destruct (produce_calls env post post_id w) as (after & C).
    assert (P : prompt_of env (w_db w) post
                = GeminiAgentService.text_prompt env post context).
    { unfold prompt_of. fold sources. now rewrite (extracted_of_valid env _ V). }
    rewrite P in C. fold sources in C.
    destruct (fst (GeminiAgentService.produce env None post post_id w)); simpl;
      rewrite C, <- !app_assoc; simpl; eexists; reflexivity.
  - intros E. subst context.
    assert (N : filter PyStr.truthy texts = []).
    { clear -E. induction E as [|t l -> _ IH]; [reflexivity | exact IH]. }
    now rewrite N.
Qed.

(** A run of C8: an unreachable link and nothing else; the context is
    empty and the gateway is called. *)
Lemma context_extraction_witness :
  let sources := [DataSource.mk "d1" "p1" LINK "https://unreachable.example" false None] in
  let db := mkDB [Demo.post NONE PENDING] sources [] [] [] [] [] in
  let w := mkWorld db 0 100%Z [] [] in
  let env := Demo.env (inr Demo.answer) in
  let r := GeminiAgentService.generate_post env None "p1" w in
  Forall valid_source sources
  /\ fst r = inr true
  /\ exists after,
       w_calls (snd r)
       = FetchUrl "https://unreachable.example"
         :: GenerateText
              (GeminiAgentService.text_prompt env (Demo.post NONE PENDING) "")
         :: after.
Proof.
  cbv zeta.
  assert (V : Forall valid_source
                [DataSource.mk "d1" "p1" LINK "https://unreachable.example"
                   false None]).
  { constructor; [discriminate | constructor]. }
  split; [exact V|]. split; [vm_compute; reflexivity|].
  exact (proj1 (context_extraction (Demo.env (inr Demo.answer)) None "p1"
                  (mkWorld
                     (mkDB [Demo.post NONE PENDING]
                        [DataSource.mk "d1" "p1" LINK
                           "https://unreachable.example" false None]
                        [] [] [] [] [])
                     0 100%Z [] [])
                  (Demo.post NONE PENDING) eq_refl V)).
Defined.

Lemma find_post_exists db post_id post :
  PostService.find_post db post_id = Some post ->
  PostService.post_exists db post_id = true.
Proof.
  unfold PostService.find_post, PostService.post_exists. intros H.
  apply find_some in H as [Hin Hp].
  apply existsb_exists. now exists post.
Qed.

Lemma persisted_numbers_add db post_id new_id n t prompts :
  Spec.persisted_numbers
    (set_text_variations
       (text_variations db
        ++ [TextVariation.mk new_id post_id n t prompts false]) db) post_id
  = (Spec.persisted_numbers db post_id ++ [n])%list.
Proof.
  unfold Spec.persisted_numbers. simpl.
  rewrite filter_app, map_app. simpl. now rewrite String.eqb_refl.
Qed.

(** The loop over well-formed variations, without callback: it returns, and
    the numbers persisted for the post grow by the [variation_number] values,
    in order. *)
Lemma persist_variations_none env post_id variations :
  forall nts w,
    all_fields variations = Some nts ->
    PostService.post_exists (w_db w) post_id = true ->
    fst (GeminiAgentService.persist_variations env None post_id variations w) = inr tt
    /\ Spec.persisted_numbers
         (w_db (snd (GeminiAgentService.persist_variations env None post_id variations w)))
         post_id
       = (Spec.persisted_numbers (w_db w) post_id ++ map fst nts)%list.
Proof.
  induction variations as [|v variations IH]; intros nts w A X.
  - inversion A; subst. simpl. now rewrite app_nil_r.
  - cbn [all_fields] in A.
    destruct (variation_fields v) as [[n t]|] eqn:V; [|discriminate].
    destruct (all_fields variations) as [fs|] eqn:A'; [|discriminate].
    inversion A; subst nts; clear A.
    unfold variation_fields in V.
    destruct v as [| | | | |l|d]; try discriminate.
    destruct (PyDict.lookup "variation_number" d) as [[| |n'| | | |]|] eqn:L1;
      try discriminate.
    destruct (PyDict.lookup "text_content" d) as [[| | | |t'| |]|] eqn:L2;
      try discriminate.
    inversion V; subst n' t'; clear V.
    set (w1 := draw_uuid
                 (set_db
                    (set_text_variations
                       (text_variations (w_db w)
                        ++ [TextVariation.mk (uuid4 env (w_uuids w)) post_id n t
                              (Some (JObj [("prompts", JArr [])])) false])
                       (w_db w)) w)).
    assert (EQ : GeminiAgentService.persist_variations env None post_id (JObj d :: variations) w
                 = GeminiAgentService.persist_variations env None post_id variations w1).
    { cbn [GeminiAgentService.persist_variations]. unfold bind, lift. cbn [Py.getitem].
      rewrite L1, L2.
      unfold GeminiAgentService.add_text_variation, PostService.add_text_variation.
      cbn [bind_integer bind_text]. unfold PostService.fk_ok.
      rewrite X, orb_true_r.
      subst w1. destruct (uuid4 env (w_uuids w)); reflexivity. }
    rewrite EQ.
    assert (X1 : PostService.post_exists (w_db w1) post_id = true) by exact X.
    destruct (IH fs w1 eq_refl X1) as [R1 R2].
    split; [exact R1|]. rewrite R2. subst w1. simpl.
    rewrite persisted_numbers_add. now rewrite <- app_assoc.
Qed.

Lemma update_post_status_text db post_id status step err now :
  text_variations
    (snd (PostService.update_post_status db post_id status step err now))
  = text_variations db.
Proof.
  unfold PostService.update_post_status.
  destruct (PostService.find_post db post_id); reflexivity.
Qed.

Lemma keeps_text_images env post post_id tv :
  preserves keeps_text
    (if GeminiAgentService.wants_images post then
       GeminiAgentService._send_progress None "generating_media" "Generating images..." [] ;;
       image_prompts <- lift (Py.get tv "image_prompts" (JArr [])) ;;
       image_prompts <- lift (Py.iter image_prompts) ;;
       GeminiAgentService.generate_images env post post_id tv image_prompts 1
     else ret tt).
Proof.
  destruct (GeminiAgentService.wants_images post); simpl; keeps_text_steps.
  apply keeps_text_generate_images.
Qed.

(** C4, as amended: when the sanitized answer of the text gateway decodes
    to an object whose [variations] are a list of K objects, each with an
    integer [variation_number] and a string [text_content], the run adds for
    the post the K sequence numbers the answer carries, in the order of the
    answer, whatever they are: they form {1..K} when the gateway numbered
    its variations 1..K, and not otherwise. *)
Theorem persisted_numbers_follow_answer
    (env : Env) (cb : option callback) (post_id : string) (w : world)
    (post : Post.t) (raw : string) (nts : list (Z * string)) :
  PostService.find_post (w_db w) post_id = Some post ->
  generate_text_response env (prompt_of env (w_db w) post) = inr raw ->
  decoded_variations env raw = Some nts ->
  let r := GeminiAgentService.generate_post env cb post_id w in
  Spec.persisted_numbers (w_db (snd r)) post_id
  = (Spec.persisted_numbers (w_db w) post_id ++ map fst nts)%list.
Proof.
  intros F Hg D r.
  destruct (sim_generate_post env cb None post_id w w (agree_refl w))
    as (_ & Hdb & _).
  fold r in Hdb. rewrite Hdb.
  rewrite (generate_post_none env post_id w post F).
  assert (P : Spec.persisted_numbers
                (w_db (snd (GeminiAgentService.produce env None post post_id w))) post_id
              = (Spec.persisted_numbers (w_db w) post_id ++ map fst nts)%list).
  { unfold GeminiAgentService.produce, bind at 1. rewrite gather_none, Hg.
    unfold decoded_variations in D.
    unfold bind at 1, lift at 1.
    destruct (parse_json_from_string (json_loads env) (sanitize raw))
      as [e|[| | | | | |d]]; try discriminate.
    set (wg := record_calls _ w).
    assert (V : exists l, Py.get (JObj d) "variations" (JArr []) = inr (JArr l)
                          /\ all_fields l = Some nts).
    { unfold Py.get.
      destruct (PyDict.lookup "variations" d) as [[| | | | |l|]|];
        try discriminate.
      - now exists l.
      - exists []. split; [reflexivity | exact D]. }
    destruct V as (l & V1 & V2).
    unfold GeminiAgentService.persist, bind at 1, lift at 1. rewrite V1.
    unfold bind at 1, lift at 1. cbn [Py.iter].
    destruct (persist_variations_none env post_id l nts wg V2
                (find_post_exists _ _ _ F)) as [R1 R2].
    unfold bind at 1.
    destruct (GeminiAgentService.persist_variations env None post_id l wg) as [[e|[]] w2];
      simpl in R1; [discriminate|].
    simpl in R2. rewrite <- R2.
    unfold Spec.persisted_numbers. f_equal. f_equal.
    apply (keeps_text_images env post post_id (JObj d) w2). }
  destruct (fst (GeminiAgentService.produce env None post post_id w)); simpl;
    rewrite <- P; unfold Spec.persisted_numbers;
    now rewrite update_post_status_text.
Qed.

(** A run of the amended statement, on the answer that numbers its one
    variation 2. *)
Lemma persisted_numbers_follow_answer_witness :
  let w := Demo.world0 NONE PENDING in
  let env := Demo.env (inr Demo.answer) in
  PostService.find_post (w_db w) "p1" = Some (Demo.post NONE PENDING)
  /\ decoded_variations env Demo.answer = Some [(2%Z, "Launch (Hashtag)Friday")]
  /\ Spec.persisted_numbers
       (w_db (snd (GeminiAgentService.generate_post env None "p1" w))) "p1"
     = [2%Z].
Proof.
  cbv zeta. split; [reflexivity|]. split; [vm_compute; reflexivity|].
  exact (persisted_numbers_follow_answer (Demo.env (inr Demo.answer)) None
           "p1" (Demo.world0 NONE PENDING) (Demo.post NONE PENDING)
           Demo.answer [(2%Z, "Launch (Hashtag)Friday")]
           eq_refl eq_refl eq_refl).
Defined.

(** C4, the claim as stated fails: the answer holds K = 1 variation,
    numbered 2; the run succeeds and the sequence numbers persisted for the
    post are {2}, not {1}. *)
Lemma persisted_numbers_not_one_to_K :
  let w := Demo.world0 NONE PENDING in
  let env := Demo.env (inr Demo.answer) in
  let r := GeminiAgentService.generate_post env None "p1" w in
  fst r = inr true
  /\ option_map (@List.length _) (decoded_variations env Demo.answer) = Some 1
  /\ Spec.persisted_numbers (w_db (snd r)) "p1" = [2%Z]
  /\ ~ Spec.same_set (Spec.persisted_numbers (w_db (snd r)) "p1")
         (Spec.one_to 1).
Proof.
  cbv zeta.
  assert (E : Spec.persisted_numbers
                (w_db (snd (GeminiAgentService.generate_post
                              (Demo.env (inr Demo.answer)) None "p1"
                              (Demo.world0 NONE PENDING)))) "p1" = [2%Z])
    by (vm_compute; reflexivity).
  split; [vm_compute; reflexivity|]. split; [vm_compute; reflexivity|].
  split; [exact E|].
  rewrite E. intros H. destruct (proj1 (H 2%Z)) as [H2|[]]; [now left|].
  discriminate H2.
Qed.

(** * Properties of the services and the routes *)

(** ** PostService: reset, reading back, isolation *)

Lemma find_update_first_other {A : Type} (test other : A -> bool)
    (f : A -> A) (l : list A) :
  (forall x, other (f x) = other x) ->
  (forall x, test x = true -> other x = false) ->
  find other (update_first test f l) = find other l.
Proof.
  intros Hf Hd. induction l as [|x l IH]; simpl; [reflexivity|].
  destruct (test x) eqn:T; simpl.
  - rewrite Hf, (Hd x T). reflexivity.
  - now rewrite IH.
Qed.

Lemma is_post_other post_id q (p : Post.t) :
  q <> post_id -> PostService.is_post post_id p = true ->
  PostService.is_post q p = false.
Proof.
  unfold PostService.is_post. intros Hq H.
  apply String.eqb_eq in H. apply String.eqb_neq. congruence.
Qed.

Lemma filter_negb_filter {A : Type} (f g : A -> bool) (l : list A) :
  (forall x, g x = true -> f x = false) ->
  filter g (filter (fun x => negb (f x)) l) = filter g l.
Proof.
  intros H. induction l as [|x l IH]; simpl; [reflexivity|].
  destruct (f x) eqn:F; simpl.
  - destruct (g x) eqn:G; [rewrite (H x G) in F; discriminate | exact IH].
  - destruct (g x); now rewrite IH.
Qed.

Lemma filter_negb_self {A : Type} (f : A -> bool) (l : list A) :
  filter f (filter (fun x => negb (f x)) l) = [].
Proof.
  induction l as [|x l IH]; simpl; [reflexivity|].
  destruct (f x) eqn:F; simpl; [exact IH | now rewrite F].
Qed.

Lemma filter_idem {A : Type} (f : A -> bool) (l : list A) :
  filter f (filter f l) = filter f l.
Proof.
  induction l as [|x l IH]; simpl; [reflexivity|].
  destruct (f x) eqn:F; simpl; [now rewrite F, IH | exact IH].
Qed.

Lemma existsb_and_negb_filter {A : Type} (f g : A -> bool) (l : list A) :
  existsb (fun x => f x && g x) (filter (fun x => negb (f x)) l) = false.
Proof.
  induction l as [|x l IH]; simpl; [reflexivity|].
  destruct (f x) eqn:F; simpl; [exact IH | now rewrite F, IH].
Qed.

Lemma find_cleared (post_id : string) (ps : list Post.t) :
  find (PostService.is_post post_id)
    (update_first (PostService.is_post post_id) (Post.set_current_step None) ps)
  = option_map (Post.set_current_step None)
      (find (PostService.is_post post_id) ps).
Proof.
  induction ps as [|p ps IH]; simpl; [reflexivity|].
  destruct (PostService.is_post post_id p) eqn:T; simpl.
  - unfold PostService.is_post in *. destruct p; simpl in *. now rewrite T.
  - now rewrite T.
Qed.

(** What the three statements of the reset leave: a table whose DELETE
    the foreign keys refuse stays as it was. *)
Lemma reset_shape (fk : bool) (db : DB) (post_id : string) :
  reset fk db post_id
  = mkDB
      (update_first (PostService.is_post post_id) (Post.set_current_step None)
         (posts db))
      (data_sources db)
      (if fk && PostService.text_referenced db post_id
       then text_variations db
       else filter (fun v => negb (String.eqb (TextVariation.post_id v) post_id))
              (text_variations db))
      (if fk && PostService.media_referenced db post_id
       then media_contents db
       else filter (fun m => negb (String.eqb (MediaContent.post_id m) post_id))
              (media_contents db))
      (post_selections db) (selected_media db) (unwanted_media db).
Proof.
  destruct db as [ps ds tv mc sel sm um].
  unfold reset, PostService.clear_progress_messages, set_posts.
  cbn [posts data_sources text_variations media_contents post_selections
         selected_media unwanted_media].
  unfold PostService.delete_text_variations.
  change (PostService.text_referenced (mkDB _ ds tv mc sel sm um) post_id)
    with (PostService.text_referenced (mkDB ps ds tv mc sel sm um) post_id).
  destruct (fk && PostService.text_referenced (mkDB ps ds tv mc sel sm um) post_id);
    unfold PostService.delete_media_contents, set_text_variations;
    cbn [posts data_sources text_variations media_contents post_selections
           selected_media unwanted_media];
    change (PostService.media_referenced (mkDB _ ds _ mc sel sm um) post_id)
      with (PostService.media_referenced (mkDB ps ds tv mc sel sm um) post_id);
    destruct (fk && PostService.media_referenced (mkDB ps ds tv mc sel sm um)
                      post_id);
    reflexivity.
Qed.

(** X1. Where no foreign key stands in the way, the reset of
    websocket_updates removes every text variation and every media row of
    the post and clears its progress marker; the rows of any other post
    stay, in their order, and so does its record; a second reset changes
    nothing more. *)
Theorem reset_clears_one_post (fk : bool) (db : DB) (post_id q : string) :
  q <> post_id ->
  fk && (PostService.text_referenced db post_id
         || PostService.media_referenced db post_id) = false ->
  let db' := reset fk db post_id in
  filter (fun v => String.eqb (TextVariation.post_id v) post_id)
    (text_variations db') = []
  /\ filter (fun m => String.eqb (MediaContent.post_id m) post_id)
       (media_contents db') = []
  /\ PostService.find_post db' post_id
     = option_map (Post.set_current_step None)
         (PostService.find_post db post_id)
  /\ filter (fun v => String.eqb (TextVariation.post_id v) q)
       (text_variations db')
     = filter (fun v => String.eqb (TextVariation.post_id v) q)
         (text_variations db)
  /\ filter (fun m => String.eqb (MediaContent.post_id m) q)
       (media_contents db')
     = filter (fun m => String.eqb (MediaContent.post_id m) q)
         (media_contents db)
  /\ PostService.find_post db' q = PostService.find_post db q
  /\ reset fk db' post_id = db'.
Proof.
  intros Hq U db'.
  assert (U1 : fk && PostService.text_referenced db post_id = false)
    by (destruct fk; [apply orb_false_elim in U; apply U | reflexivity]).
  assert (U2 : fk && PostService.media_referenced db post_id = false)
    by (destruct fk; [apply orb_false_elim in U; apply U | reflexivity]).
  assert (E : db' = mkDB
                (update_first (PostService.is_post post_id)
                   (Post.set_current_step None) (posts db))
                (data_sources db)
                (filter (fun v => negb (String.eqb (TextVariation.post_id v)
                                          post_id)) (text_variations db))
                (filter (fun m => negb (String.eqb (MediaContent.post_id m)
                                          post_id)) (media_contents db))
                (post_selections db) (selected_media db) (unwanted_media db)).
  { subst db'. now rewrite reset_shape, U1, U2. }
  assert (F : PostService.find_post db' post_id
              = option_map (Post.set_current_step None)
                  (PostService.find_post db post_id)).
  { rewrite E. apply find_cleared. }
  split; [rewrite E; apply filter_negb_self|].
  split; [rewrite E; apply filter_negb_self|].
  split; [exact F|].
  split.
  { rewrite E. apply filter_negb_filter. intros x H. apply String.eqb_eq in H.
    apply String.eqb_neq. congruence. }
  split.
  { rewrite E. apply filter_negb_filter. intros x H. apply String.eqb_eq in H.
    apply String.eqb_neq. congruence. }
  split.
  { rewrite E. unfold PostService.find_post. cbn [posts].
    apply find_update_first_other.
    - intros x. destruct x; reflexivity.
    - intros x. now apply is_post_other. }
  rewrite reset_shape.
  assert (T1 : PostService.text_referenced db' post_id = false).
  { rewrite E. unfold PostService.text_referenced.
    cbn [text_variations post_selections]. apply existsb_and_negb_filter. }
  assert (T2 : PostService.media_referenced db' post_id = false).
  { rewrite E. unfold PostService.media_referenced.
    cbn [media_contents selected_media]. apply existsb_and_negb_filter. }
  rewrite T1, T2, !andb_false_r. rewrite E at 1 2 3 4 5 6 7.
  cbn [posts data_sources text_variations media_contents post_selections
         selected_media unwanted_media].
  rewrite E. f_equal.
  - rewrite update_first_twice by (intros x; destruct x; now simpl).
    apply update_first_ext. intros x _. destruct x; reflexivity.
  - apply filter_idem.
  - apply filter_idem.
Qed.

Lemma reset_clears_one_post_witness :
  "p2" <> "p1"
  /\ filter (fun v => String.eqb (TextVariation.post_id v) "p1")
       (text_variations (reset false Demo2.db "p1")) = []
  /\ map TextVariation.id (text_variations (reset false Demo2.db "p1")) = ["t3"].
Proof.
  split; [discriminate|].
  split; [|reflexivity].
  destruct (reset_clears_one_post false Demo2.db "p1" "p2") as (H & _);
    [discriminate | reflexivity | exact H].
Defined.

Lemma insert_by_perm {A : Type} (key : A -> Z) (x : A) (l : list A) :
  Permutation (insert_by key x l) (x :: l).
Proof.
  induction l as [|y l IH]; simpl; [apply Permutation_refl|].
  destruct (key x <=? key y)%Z; [apply Permutation_refl|].
  eapply Permutation_trans; [apply perm_skip; exact IH | apply perm_swap].
Qed.

Lemma insert_by_sorted {A : Type} (key : A -> Z) (x : A) (l : list A) :
  Sorted (le_by key) l -> Sorted (le_by key) (insert_by key x l).
Proof.
  induction 1 as [|y l S IH H]; simpl.
  - constructor; constructor.
  - destruct (Z.leb_spec (key x) (key y)) as [L|L].
    + constructor; [now constructor | now constructor].
    + constructor; [exact IH|].
      destruct l as [|z l]; simpl.
      * constructor. unfold le_by. lia.
      * destruct (Z.leb_spec (key x) (key z)); constructor.
        -- unfold le_by. lia.
        -- now inversion H.
Qed.

Lemma order_by_sorted_perm {A : Type} (key : A -> Z) (l : list A) :
  Sorted (le_by key) (order_by key l) /\ Permutation (order_by key l) l.
Proof.
  induction l as [|x l [S P]]; simpl.
  - split; constructor.
  - split; [now apply insert_by_sorted|].
    eapply Permutation_trans; [apply insert_by_perm | now apply perm_skip].
Qed.

(** X2. [get_text_variations] and [get_media_contents] return the rows of
    the post, each of them once and no other, in ascending order of their
    sequence numbers. *)
Theorem variations_read_back_in_order (db : DB) (post_id : string) :
  Sorted (le_by TextVariation.variation_number)
    (PostService.get_text_variations db post_id)
  /\ Permutation (PostService.get_text_variations db post_id)
       (filter (fun v => String.eqb (TextVariation.post_id v) post_id)
          (text_variations db))
  /\ Sorted (le_by MediaContent.variation_number)
       (PostService.get_media_contents db post_id)
  /\ Permutation (PostService.get_media_contents db post_id)
       (filter (fun m => String.eqb (MediaContent.post_id m) post_id)
          (media_contents db)).
Proof.
  unfold PostService.get_text_variations, PostService.get_media_contents.
  destruct (order_by_sorted_perm TextVariation.variation_number
              (filter (fun v => String.eqb (TextVariation.post_id v) post_id)
                 (text_variations db))) as [S1 P1].
  destruct (order_by_sorted_perm MediaContent.variation_number
              (filter (fun m => String.eqb (MediaContent.post_id m) post_id)
                 (media_contents db))) as [S2 P2].
  now repeat split.
Qed.

(** X3. [update_post_status] changes the record of the one post it is
    called for: every other post reads back as before, the ids of the posts
    keep their order, and no other table is touched. *)
Theorem update_post_status_touches_one_post
    (db : DB) (post_id q : string) (status : PostStatus)
    (current_step error_message : option string) (now : datetime) :
  q <> post_id ->
  let db' := snd (PostService.update_post_status db post_id status
                    current_step error_message now) in
  PostService.find_post db' q = PostService.find_post db q
  /\ map Post.id (posts db') = map Post.id (posts db)
  /\ data_sources db' = data_sources db
  /\ text_variations db' = text_variations db
  /\ media_contents db' = media_contents db
  /\ post_selections db' = post_selections db
  /\ selected_media db' = selected_media db
  /\ unwanted_media db' = unwanted_media db.
Proof.
  intros Hq db'. subst db'. unfold PostService.update_post_status.
  destruct (PostService.find_post db post_id) as [post|];
    [|now repeat split].
  simpl. split.
  { unfold PostService.find_post. simpl. apply find_update_first_other.
    - intros x. apply is_post_assign_status.
    - intros x. now apply is_post_other. }
  split; [|now repeat split].
  induction (posts db) as [|p ps IH]; simpl; [reflexivity|].
  destruct (PostService.is_post post_id p) eqn:T; simpl.
  - f_equal.
    pose proof (is_post_assign_status (Post.id p) status current_step
                  error_message now p) as E.
    unfold PostService.is_post in E. rewrite String.eqb_refl in E.
    now apply String.eqb_eq in E.
  - now rewrite IH.
Qed.

Lemma update_post_status_touches_one_post_witness :
  "p2" <> "p1"
  /\ PostService.find_post
       (snd (PostService.update_post_status Demo2.db "p1" FAILED None
               (Some "boom") 7%Z)) "p2"
     = PostService.find_post Demo2.db "p2".
Proof.
  split; [discriminate|].
  destruct (update_post_status_touches_one_post Demo2.db "p1" "p2" FAILED None
              (Some "boom") 7%Z) as (H & _); [discriminate | exact H].
Defined.

(** ** PostService.create_selection: replacement and failure *)

Lemma selected_rows_facts uuid4 sid (ids : list string) :
  forall k,
    map (fun r => (SelectedMedia.selection_id r, SelectedMedia.media_content_id r))
      (PostService.selected_rows uuid4 k sid ids)
    = map (fun i => (sid, i)) ids.
Proof.
  induction ids as [|i ids IH]; intros k; simpl; [reflexivity|].
  now rewrite IH.
Qed.

Lemma remove_first_filter_one {A : Type} (test : A -> bool) (l : list A) :
  List.length (filter test l) <= 1 -> filter test (remove_first test l) = [].
Proof.
  induction l as [|x l IH]; simpl; [reflexivity|].
  destruct (test x) eqn:T; simpl; intros H.
  - destruct (filter test l); [reflexivity | simpl in H; lia].
  - rewrite T. now apply IH.
Qed.

Lemma delete_existing_selection_none db post_id :
  List.length (filter (PostService.selection_of post_id) (post_selections db))
  <= 1 ->
  filter (PostService.selection_of post_id)
    (post_selections (PostService.delete_existing_selection db post_id)) = [].
Proof.
  intros H. unfold PostService.delete_existing_selection.
  destruct (find (PostService.selection_of post_id) (post_selections db))
    as [existing|] eqn:F; simpl.
  - now apply remove_first_filter_one.
  - apply existsb_filter_nil. apply not_true_is_false. intros E.
    apply existsb_exists in E as (x & Hin & Hx).
    now rewrite (find_none _ _ F x Hin) in Hx.
Qed.

(** X4. A successful [create_selection] replaces the selection of the post:
    the post has exactly one PostSelection row afterwards, the new one, whose
    SelectedMedia rows are the chosen ids in the order given; the other
    SelectedMedia rows were there before, and none of them belongs to the
    selection the post had before (uuids being fresh). *)
Theorem select_replaces_selection
    (fk : bool) (db : DB) (uuid4 : nat -> string) (now : datetime)
    (post_id tv : string) (imgs vids : option (list string))
    (sid : string) (n : nat) (db' : DB) :
  PostService.create_selection fk db uuid4 now post_id tv imgs vids
  = (Some (sid, n), db') ->
  (forall s, In s (post_selections db) -> PostSelection.id s <> uuid4 O) ->
  let chosen := (or_empty imgs ++ or_empty vids)%list in
  sid = uuid4 O
  /\ filter (PostService.selection_of post_id) (post_selections db')
     = [PostSelection.mk sid post_id tv]
  /\ (exists kept rows,
        selected_media db' = (kept ++ rows)%list
        /\ incl kept (selected_media db)
        /\ map (fun r => (SelectedMedia.selection_id r,
                          SelectedMedia.media_content_id r)) rows
           = map (fun i => (sid, i)) chosen)
  /\ (forall old r,
        find (PostService.selection_of post_id) (post_selections db) = Some old ->
        In r (selected_media db') ->
        SelectedMedia.selection_id r <> PostSelection.id old).
Proof.
  intros H Fresh chosen.
  unfold PostService.create_selection in H.
  destruct (existsb (PostService.selection_of post_id)
              (post_selections
                 (PostService.delete_existing_selection db post_id))) eqn:X;
    [simpl in H; discriminate|].
  simpl in H. destruct (_ && _); simpl in H; [|discriminate].
  fold chosen in H.
  destruct (PostService.unwanted_rows _ _ _ _ _) as [rows|]; [|discriminate].
  destruct (forallb _ _); [|discriminate].
  inversion H; subst sid n db'; clear H. simpl.
  assert (K : incl (selected_media
                      (PostService.delete_existing_selection db post_id))
                (selected_media db)).
  { unfold PostService.delete_existing_selection.
    destruct (find _ (post_selections db)); simpl.
    - intros r Hr. now apply filter_In in Hr.
    - apply incl_refl. }
  split; [reflexivity|].
  split.
  { rewrite filter_app, (existsb_filter_nil _ _ X). simpl.
    unfold PostService.selection_of at 1. simpl.
    now rewrite String.eqb_refl. }
  split.
  { eexists _, _. split; [reflexivity|]. split; [exact K|].
    apply selected_rows_facts. }
  intros old r F Hin.
  apply in_app_or in Hin as [Hin|Hin].
  - unfold PostService.delete_existing_selection in Hin. rewrite F in Hin.
    simpl in Hin. apply filter_In in Hin as [_ Hr].
    apply negb_true_iff, String.eqb_neq in Hr. exact Hr.
  - assert (E : SelectedMedia.selection_id r = uuid4 O).
    { apply (in_map (fun r => (SelectedMedia.selection_id r,
                               SelectedMedia.media_content_id r))) in Hin.
      rewrite selected_rows_facts in Hin.
      apply in_map_iff in Hin as (i & Ei & _). now inversion Ei. }
    rewrite E. apply find_some in F as [Fin _].
    intros C. apply (Fresh old Fin). now symmetry.
Qed.

Lemma select_replaces_selection_witness :
  let r := PostService.create_selection true Demo3.db (Demo2.uuids "b") 60%Z
             "p1" "t2" (Some ["m3"; "m4"]) (Some []) in
  r = (Some ("b-0", 1), snd r)
  /\ filter (PostService.selection_of "p1") (post_selections (snd r))
     = [PostSelection.mk "b-0" "p1" "t2"]
  /\ map SelectedMedia.media_content_id (selected_media (snd r)) = ["m3"; "m4"].
Proof.
  cbv zeta. split; [reflexivity|]. split; [|reflexivity].
  refine (proj1 (proj2 (select_replaces_selection true Demo3.db
                          (Demo2.uuids "b") 60%Z "p1" "t2"
                          (Some ["m3"; "m4"]) (Some []) "b-0" 1
                          (snd (PostService.create_selection true Demo3.db
                                  (Demo2.uuids "b") 60%Z "p1" "t2"
                                  (Some ["m3"; "m4"]) (Some [])))
                          eq_refl _))).
  intros s [<-|[]]. discriminate.
Defined.

(** X5. A [create_selection] that fails (returns None) flags nothing and
    inserts no tombstone, but the selection the post had is gone all the
    same: its deletion was committed before the new one was written. *)
Theorem failed_select_drops_previous_selection
    (fk : bool) (db : DB) (uuid4 : nat -> string) (now : datetime)
    (post_id tv : string) (imgs vids : option (list string)) (db' : DB) :
  PostService.create_selection fk db uuid4 now post_id tv imgs vids
  = (None, db') ->
  List.length (filter (PostService.selection_of post_id) (post_selections db))
  <= 1 ->
  posts db' = posts db
  /\ text_variations db' = text_variations db
  /\ media_contents db' = media_contents db
  /\ unwanted_media db' = unwanted_media db
  /\ filter (PostService.selection_of post_id) (post_selections db') = []
  /\ (forall old r,
        find (PostService.selection_of post_id) (post_selections db) = Some old ->
        In r (selected_media db') ->
        SelectedMedia.selection_id r <> PostSelection.id old).
Proof.
  intros H U.
  assert (E : db' = PostService.delete_existing_selection db post_id).
  { unfold PostService.create_selection in H.
    destruct (negb _); [now inversion H|].
    destruct (PostService.unwanted_rows _ _ _ _ _); [|now inversion H].
    destruct (forallb _ _); [discriminate | now inversion H]. }
  subst db'.
  destruct (delete_existing_selection_frame fk db post_id)
    as (Hp & Ht & Hm & Hu & _).
  split; [exact Hp|]. split; [exact Ht|]. split; [exact Hm|].
  split; [exact Hu|].
  split; [now apply delete_existing_selection_none|].
  intros old r F Hin.
  unfold PostService.delete_existing_selection in Hin. rewrite F in Hin.
  simpl in Hin. apply filter_In in Hin as [_ Hr].
  apply negb_true_iff, String.eqb_neq in Hr. exact Hr.
Qed.

(** X6. A media row of the post whose [file_path] is NULL and that is not
    among the chosen ids makes [create_selection] fail: [str(None)] is the
    non-empty text "None", so the row is taken as unwanted, and its
    tombstone has no path to store. *)
Theorem null_path_fails_select
    (fk : bool) (db : DB) (uuid4 : nat -> string) (now : datetime)
    (post_id tv : string) (imgs vids : option (list string))
    (post : Post.t) (m : MediaContent.t) :
  PostService.find_post db post_id = Some post ->
  In m (media_contents db) ->
  MediaContent.post_id m = post_id ->
  MediaContent.file_path m = None ->
  PyStr.mem_list (MediaContent.id m) (or_empty imgs ++ or_empty vids) = false ->
  fst (PostService.create_selection fk db uuid4 now post_id tv imgs vids)
  = None.
Proof.
  intros F Hin Hp Hf Hc.
  unfold PostService.create_selection.
  destruct (delete_existing_selection_frame fk db post_id)
    as (_ & _ & Hm & _ & Hfp & _).
  cbv zeta in Hm, Hfp.
  destruct (negb _); [reflexivity|].
  rewrite Hfp, F, Hm, flag_chosen_all.
  set (chosen := (or_empty imgs ++ or_empty vids)%list) in *.
  destruct (PostService.unwanted_rows uuid4 (1 + List.length chosen) now
              post_id _) as [rows|] eqn:R; [|reflexivity].
  exfalso.
  apply (unwanted_rows_located _ _ _ _ _ _ R (flag_chosen chosen m)).
  - apply filter_In. split.
    + apply filter_In. split; [now apply in_map|].
      destruct (flag_chosen_fields chosen m) as (_ & -> & _).
      rewrite Hp. apply String.eqb_refl.
    + unfold PostService.is_unwanted.
      destruct (flag_chosen_fields chosen m) as (-> & _ & ->).
      now rewrite Hc, Hf.
  - destruct (flag_chosen_fields chosen m) as (_ & _ & ->). exact Hf.
Qed.

Lemma null_path_fails_select_witness :
  PostService.find_post Demo3.db "p1" = Some (Demo.post IMAGE COMPLETED)
  /\ In (MediaContent.mk "m4" "p1" IMAGE 4 None None false)
       (media_contents Demo3.db)
  /\ fst (PostService.create_selection true Demo3.db (Demo2.uuids "b") 60%Z
            "p1" "t2" (Some ["m3"]) (Some [])) = None.
Proof.
  split; [reflexivity|]. split; [simpl; tauto|].
  apply (null_path_fails_select true Demo3.db (Demo2.uuids "b") 60%Z "p1"
           "t2" (Some ["m3"]) (Some []) (Demo.post IMAGE COMPLETED)
           (MediaContent.mk "m4" "p1" IMAGE 4 None None false));
    try reflexivity.
  simpl. tauto.
Defined.

Lemma failed_select_drops_previous_selection_witness :
  let r := PostService.create_selection true Demo3.db (Demo2.uuids "b") 60%Z
             "p1" "t2" (Some ["m3"]) (Some []) in
  r = (None, snd r)
  /\ List.length (filter (PostService.selection_of "p1")
                    (post_selections Demo3.db)) = 1
  /\ filter (PostService.selection_of "p1") (post_selections (snd r)) = []
  /\ selected_media (snd r) = [].
Proof.
  cbv zeta. split; [reflexivity|]. split; [reflexivity|].
  split; [|reflexivity].
  refine (proj1 (proj2 (proj2 (proj2 (proj2
            (failed_select_drops_previous_selection true Demo3.db
               (Demo2.uuids "b") 60%Z "p1" "t2" (Some ["m3"]) (Some [])
               (snd (PostService.create_selection true Demo3.db
                       (Demo2.uuids "b") 60%Z "p1" "t2" (Some ["m3"])
                       (Some [])))
               eq_refl _)))))).
  simpl. lia.
Defined.

(** ** jsonhelper.py: the span that is decoded *)

Lemma from_first_open_first (s t : string) :
  Re.from_first_open s = Some t ->
  exists pre rest,
    s = pre ++ String "{" rest /\ t = String "{" rest
    /\ PyStr.mem "{" pre = false.
Proof.
  revert t. induction s as [|x s IH]; simpl; [discriminate|].
  intros t. destruct (Ascii.eqb x "{") eqn:X.
  - intros H. inversion H; subst. apply Ascii.eqb_eq in X. subst x.
    now exists "", s.
  - intros H. destruct (IH _ H) as (pre & rest & -> & -> & M).
    exists (String x pre), rest. simpl. now rewrite X, M.
Qed.

Lemma upto_last_close_split (t m : string) :
  Re.upto_last_close t = Some m ->
  exists body post,
    m = body ++ "}" /\ t = m ++ post /\ PyStr.mem "}" post = false.
Proof.
  revert m. induction t as [|a r IH]; simpl; [discriminate|].
  intros m. destruct (Re.upto_last_close r) as [m'|] eqn:U.
  - intros H. inversion H; subst.
    destruct (IH _ eq_refl) as (body & post & -> & -> & M).
    now exists (String a body), post.
  - destruct (Ascii.eqb a "}") eqn:A; [|discriminate].
    intros H. inversion H; subst. apply Ascii.eqb_eq in A. subst a.
    exists "", r. repeat split. now apply upto_last_close_none.
Qed.

(** X7. When the search of [parse_json_from_string] succeeds, what it hands
    to the decoder is a piece of the text that begins with the first '{' of
    the text and ends with its last '}': no '{' comes before it and no '}'
    after it. *)
Theorem search_braces_widest_span (s m : string) :
  Re.search_braces s = Some m ->
  exists pre mid post,
    s = pre ++ m ++ post
    /\ m = "{" ++ mid ++ "}"
    /\ PyStr.mem "{" pre = false
    /\ PyStr.mem "}" post = false.
Proof.
  unfold Re.search_braces. intros H.
  destruct (Re.from_first_open s) as [t|] eqn:F; [|discriminate].
  apply from_first_open_first in F as (pre & rest & -> & -> & Mpre).
  apply upto_last_close_split in H as (body & post & -> & E & Mpost).
  destruct body as [|b body]; simpl in E; inversion E; subst.
  exists pre, body, post. repeat split; assumption.
Qed.

Lemma search_braces_widest_span_witness :
  Re.search_braces "Sure: {a} and {b}, done" = Some "{a} and {b}"
  /\ exists pre mid post,
       "Sure: {a} and {b}, done" = pre ++ "{a} and {b}" ++ post
       /\ "{a} and {b}" = "{" ++ mid ++ "}"
       /\ PyStr.mem "{" pre = false
       /\ PyStr.mem "}" post = false.
Proof.
  split; [reflexivity|].
  exact (search_braces_widest_span "Sure: {a} and {b}, done" "{a} and {b}"
           eq_refl).
Defined.

Lemma replace_absent (c : ascii) (by_ s : string) :
  PyStr.mem c s = false -> PyStr.replace c by_ s = s.
Proof.
  induction s as [|x s IH]; simpl; [reflexivity|].
  intros H. apply orb_false_iff in H as [Hx Hs].
  now rewrite Hx, IH.
Qed.

Lemma from_first_open_app (p x : string) :
  PyStr.mem "{" p = false ->
  Re.from_first_open (p ++ x) = Re.from_first_open x.
Proof.
  induction p as [|a p IH]; simpl; [reflexivity|].
  intros H. apply orb_false_iff in H as [Ha Hp].
  rewrite Ha. now apply IH.
Qed.

Lemma upto_last_close_app (p x : string) :
  Re.upto_last_close (p ++ x)
  = match Re.upto_last_close x with
    | Some t => Some (p ++ t)
    | None => Re.upto_last_close p
    end.
Proof.
  induction p as [|a p IH]; simpl.
  - now destruct (Re.upto_last_close x).
  - rewrite IH. destruct (Re.upto_last_close x); reflexivity.
Qed.

(** What sanitization makes of a character that is no brace holds no
    brace. *)
Lemma sanitize_char_braces (a : ascii) :
  (Ascii.eqb a "{" = false ->
   PyStr.mem "{" (sanitize (String a "")) = false)
  /\ (Ascii.eqb a "}" = false ->
      PyStr.mem "}" (sanitize (String a "")) = false).
Proof.
  rewrite sanitize_char.
  destruct (Ascii.eqb a PyStr.LF || Ascii.eqb a PyStr.CR
            || Ascii.eqb a PyStr.TAB); [split; reflexivity|].
  destruct (Ascii.eqb a "#"); [split; reflexivity|].
  simpl. split; intros ->; reflexivity.
Qed.

Lemma from_first_open_sanitize (s : string) :
  Re.from_first_open (sanitize s)
  = option_map sanitize (Re.from_first_open s).
Proof.
  induction s as [|a r IH]; [reflexivity|].
  change (String a r) with (String a "" ++ r) at 1.
  rewrite sanitize_append.
  cbn [Re.from_first_open].
  destruct (Ascii.eqb a "{") eqn:A.
  - apply Ascii.eqb_eq in A. subst a. simpl option_map.
    change (sanitize (String "{" r)) with (sanitize (String "{" "" ++ r)).
    rewrite sanitize_append. reflexivity.
  - rewrite (from_first_open_app _ _ (proj1 (sanitize_char_braces a) A)).
    exact IH.
Qed.

Lemma upto_last_close_sanitize (s : string) :
  Re.upto_last_close (sanitize s)
  = option_map sanitize (Re.upto_last_close s).
Proof.
  induction s as [|a r IH]; [reflexivity|].
  change (String a r) with (String a "" ++ r) at 1.
  rewrite sanitize_append, upto_last_close_app, IH.
  cbn [Re.upto_last_close].
  destruct (Re.upto_last_close r) as [t|]; simpl.
  - change (String a t) with (String a "" ++ t).
    now rewrite sanitize_append.
  - destruct (Ascii.eqb a "}") eqn:A.
    + apply Ascii.eqb_eq in A. subst a. reflexivity.
    + apply upto_last_close_none.
      apply (proj2 (sanitize_char_braces a) A).
Qed.

(** X8. Sanitization is idempotent, and it does not move the span that is
    decoded: searching the sanitized text gives the sanitized span of the
    raw text. *)
Theorem sanitize_keeps_span (raw : string) :
  sanitize (sanitize raw) = sanitize raw
  /\ Re.search_braces (sanitize raw)
     = option_map sanitize (Re.search_braces raw).
Proof.
  split.
  - destruct (sanitize_clean raw) as (H1 & H2 & H3 & H4).
    unfold sanitize at 1.
    now rewrite (replace_absent _ _ _ H1), (replace_absent _ _ _ H2),
      (replace_absent _ _ _ H3), (replace_absent _ _ _ H4).
  - unfold Re.search_braces. rewrite from_first_open_sanitize.
    destruct (Re.from_first_open raw) as [t|]; simpl; [|reflexivity].
    apply upto_last_close_sanitize.
Qed.

Lemma members_object (fuel : nat) :
  forall s acc v r,
    Json.members fuel s acc = inr (v, r) -> exists d, v = JObj d.
Proof.
  induction fuel as [|fuel IH]; intros s acc v r; [discriminate|].
  cbn [Json.members].
  destruct (Json.scanstring _ s) as [m|[key r0]]; [discriminate|].
  destruct (Json.skip_ws r0) as [|c r1]; [discriminate|].
  destruct (negb (Ascii.eqb c ":")); [discriminate|].
  destruct (Json.scan_once fuel (Json.skip_ws r1)) as [m|[v2 r2]];
    [discriminate|].
  destruct (Json.skip_ws r2) as [|d r3]; [discriminate|].
  destruct (Ascii.eqb d "}").
  - intros H. inversion H. now eexists.
  - destruct (Ascii.eqb d ","); [|discriminate].
    destruct (Json.skip_ws r3) as [|q r4]; [discriminate|].
    destruct (Ascii.eqb q PyStr.DQUOTE); [|discriminate].
    apply IH.
Qed.

(** X9. With the reference decoder, what [parse_json_from_string] returns,
    when it returns, is a dict: the span it decodes begins with '{'. *)
Theorem parse_returns_dict (s : string) (v : json) :
  parse_json_from_string Json.loads s = inr v -> exists d, v = JObj d.
Proof.
  unfold parse_json_from_string.
  destruct (Re.search_braces s) as [m|] eqn:S; [|discriminate].
  destruct (search_braces_widest_span s m S) as (_ & mid & _ & _ & -> & _).
  unfold Json.loads. simpl Json.skip_ws.
  cbn [Json.scan_once append].
  change (Ascii.eqb "{" PyStr.DQUOTE) with false.
  change (Ascii.eqb "{" "{") with true. cbv iota.
  destruct (Json.skip_ws (mid ++ "}")) as [|b r']; [discriminate|].
  destruct (Ascii.eqb b "}").
  - destruct (Json.skip_ws r'); [|discriminate].
    intros H. inversion H. now eexists.
  - destruct (Ascii.eqb b PyStr.DQUOTE); [|discriminate].
    destruct (Json.members _ r' []) as [e|[v' r]] eqn:M; [discriminate|].
    destruct (members_object _ _ _ _ _ M) as (d & ->).
    destruct (Json.skip_ws r); [|discriminate].
    intros H. inversion H. now eexists.
Qed.

Lemma parse_returns_dict_witness :
  parse_json_from_string Json.loads (Demo.dq "ok {'a': [1, 2]} bye")
  = inr (JObj [("a", JArr [JInt 1; JInt 2])])
  /\ exists d, JObj [("a", JArr [JInt 1; JInt 2])] = JObj d.
Proof.
  split; [reflexivity|].
  exact (parse_returns_dict (Demo.dq "ok {'a': [1, 2]} bye")
           (JObj [("a", JArr [JInt 1; JInt 2])]) eq_refl).
Defined.

(** ** GeminiAgentService: what every run does and never does *)

Lemma generate_post_never_fails
    (env : Env) (cb : option callback) (post_id : string) (w : world) :
  exists ok,
    fst (GeminiAgentService.generate_post env cb post_id w) = inr ok.
Proof.
  destruct (PostService.find_post (w_db w) post_id) as [post|] eqn:F.
  - destruct (sim_generate_post env cb None post_id w w (agree_refl w))
      as (E & _).
    rewrite E, (generate_post_none env post_id w post F).
    destruct (fst (GeminiAgentService.produce env None post post_id w));
      eexists; reflexivity.
  - unfold GeminiAgentService.generate_post. rewrite F. now exists false.
Qed.

(** X10. [generate_post] never raises: for an unknown post it returns
    False and leaves the world as it was, and for a known post it returns a
    boolean whatever the gateway, the decoder, the storage and the progress
    callback do. *)
Theorem generate_post_never_raises
    (env : Env) (cb : option callback) (post_id : string) (w : world) :
  match PostService.find_post (w_db w) post_id with
  | None =>
      GeminiAgentService.generate_post env cb post_id w = (inr false, w)
  | Some _ =>
      exists ok, fst (GeminiAgentService.generate_post env cb post_id w)
                 = inr ok
  end.
Proof.
  destruct (PostService.find_post (w_db w) post_id) as [post|] eqn:F.
  - destruct (sim_generate_post env cb None post_id w w (agree_refl w))
      as (E & _).
    rewrite E, (generate_post_none env post_id w post F).
    destruct (fst (GeminiAgentService.produce env None post post_id w));
      eexists; reflexivity.
  - unfold GeminiAgentService.generate_post. now rewrite F.
Qed.

(** X11. When the text gateway itself raises, the run returns False, the
    post is left failed with the message of the exception, no row is
    written, and after the call to the gateway nothing leaves the process
    any more. *)
Theorem text_gateway_failure_fails_run
    (env : Env) (cb : option callback) (post_id : string) (w : world)
    (post : Post.t) (e : exn) :
  PostService.find_post (w_db w) post_id = Some post ->
  generate_text_response env (prompt_of env (w_db w) post) = inl e ->
  let r := GeminiAgentService.generate_post env cb post_id w in
  fst r = inr false
  /\ PostService.find_post (w_db (snd r)) post_id
     = Some (PostService.assign_status FAILED None (Some (str_of_exn e))
               (w_now w) post)
  /\ text_variations (w_db (snd r)) = text_variations (w_db w)
  /\ media_contents (w_db (snd r)) = media_contents (w_db w)
  /\ w_calls (snd r)
     = (w_calls w
        ++ fetch_calls (PostService.get_data_sources (w_db w) (Post.id post))
        ++ [GenerateText (prompt_of env (w_db w) post);
            StatusWrite post_id FAILED])%list.
Proof.
  intros F Hg r.
  destruct (sim_generate_post env cb None post_id w w (agree_refl w))
    as (E & Hdb & _ & _ & Hc).
  fold r in E, Hdb, Hc. rewrite E, Hdb, Hc.
  rewrite (generate_post_none env post_id w post F).
  assert (P : GeminiAgentService.produce env None post post_id w
              = (inl e,
                 record_calls
                   (fetch_calls
                      (PostService.get_data_sources (w_db w) (Post.id post))
                    ++ [GenerateText (prompt_of env (w_db w) post)]) w)).
  { unfold GeminiAgentService.produce, bind. now rewrite gather_none, Hg. }
  rewrite P. simpl.
  destruct (update_post_status_found _ _ FAILED None (Some (str_of_exn e))
              (w_now w) _ F) as [E1 E2].
  split; [reflexivity|]. split; [exact E2|].
  rewrite E1. simpl. repeat split.
  now rewrite <- !app_assoc.
Qed.

Lemma text_gateway_failure_fails_run_witness :
  let w := Demo.world0 IMAGE PENDING in
  let env := Demo.env (inl (Exception "APIError" "rate limited")) in
  let r := GeminiAgentService.generate_post env (Some Demo.deliver_all) "p1" w in
  PostService.find_post (w_db w) "p1" = Some (Demo.post IMAGE PENDING)
  /\ fst r = inr false
  /\ text_variations (w_db (snd r)) = [].
Proof.
  cbv zeta. split; [reflexivity|].
  destruct (text_gateway_failure_fails_run
              (Demo.env (inl (Exception "APIError" "rate limited")))
              (Some Demo.deliver_all) "p1" (Demo.world0 IMAGE PENDING)
              (Demo.post IMAGE PENDING) (Exception "APIError" "rate limited")
              eq_refl eq_refl) as (H1 & _ & H3 & _).
  split; [exact H1 | exact H3].
Defined.

(** ** GeminiAgentService: the media rows of a run *)

Lemma count_from_S (n : Z) (j : nat) :
  count_from n (S j) = n :: count_from (n + 1) j.
Proof.
  unfold count_from. cbn [seq map]. f_equal; [lia|].
  rewrite <- seq_shift, map_map. apply map_ext. intros i. lia.
Qed.

Lemma count_from_one (j : nat) : count_from 1 j = Spec.one_to j.
Proof.
  unfold count_from, Spec.one_to. rewrite <- seq_shift, map_map.
  apply map_ext. intros i. lia.
Qed.

Lemma media_numbers_add db post_id new_id mt n f g :
  media_numbers
    (set_media_contents
       (media_contents db ++ [MediaContent.mk new_id post_id mt n f g false])
       db) post_id
  = (media_numbers db post_id ++ [n])%list.
Proof.
  unfold media_numbers. simpl.
  rewrite filter_app, map_app. simpl. now rewrite String.eqb_refl.
Qed.

(** The loop over the image prompts: the rows it adds are numbered from
    [mediaCount] on, one for each prompt it got through. *)
Lemma generate_images_numbers env post post_id tv prompts :
  forall n w,
    PostService.post_exists (w_db w) post_id = true ->
    let r := GeminiAgentService.generate_images env post post_id tv prompts n w in
    exists j,
      (j <= List.length prompts)%nat
      /\ media_numbers (w_db (snd r)) post_id
         = (media_numbers (w_db w) post_id ++ count_from n j)%list
      /\ (fst r = inr tt -> j = List.length prompts).
Proof.
  induction prompts as [|p prompts IH]; intros n w X r.
  - exists 0%nat. subst r. simpl. rewrite app_nil_r. now repeat split.
  - assert (Z0 : forall e w',
               w_db w' = w_db w ->
               r = (inl e, w') ->
               exists j,
                 (j <= List.length (p :: prompts))%nat
                 /\ media_numbers (w_db (snd r)) post_id
                    = (media_numbers (w_db w) post_id ++ count_from n j)%list
                 /\ (fst r = inr tt -> j = List.length (p :: prompts))).
    { intros e w' Hw' ->. exists 0%nat. simpl. rewrite Hw', app_nil_r.
      split; [lia|]. split; [reflexivity | discriminate]. }
    subst r. cbn [GeminiAgentService.generate_images] in *.
    unfold bind, lift, GeminiAgentService.external in *.
    destruct (Py.get tv "variations" (JArr [])) as [e|vs];
      [eapply Z0; [|reflexivity]; reflexivity|].
    destruct (Py.iter vs) as [e|l]; [eapply Z0; [|reflexivity]; reflexivity|].
    destruct (GeminiAgentService.text_contents l) as [e|texts];
      [eapply Z0; [|reflexivity]; reflexivity|].
    destruct (GeminiAgentService.str_join ", " texts) as [e|post_text];
      [eapply Z0; [|reflexivity]; reflexivity|].
    destruct (generate_image_freepik env _ _) as [e|image_path];
      [eapply Z0; [|reflexivity]; reflexivity|].
    destruct (upload_image_to_storage env image_path) as [e|image_url];
      [eapply Z0; [|reflexivity]; reflexivity|].
    clear Z0.
    unfold GeminiAgentService.add_media_content, PostService.add_media_content,
      PostService.fk_ok.
    cbn [w_db record_call]. rewrite X, orb_true_r.
    match goal with
    | |- context [GeminiAgentService.generate_images _ _ _ _ _ _ ?w1] =>
        destruct (IH (n + 1)%Z w1 X) as (j & Hj & Hn & Hr)
    end.
    exists (S j). split; [simpl; lia|]. split.
    + rewrite Hn. cbn [w_db draw_uuid set_db record_call].
      rewrite media_numbers_add, count_from_S, <- app_assoc. reflexivity.
    + intros H. simpl. f_equal. exact (Hr H).
Qed.

Lemma keeps_media_refl w : keeps_media w w.
Proof. reflexivity. Qed.

Lemma keeps_media_trans a b c :
  keeps_media a b -> keeps_media b c -> keeps_media a c.
Proof. unfold keeps_media. congruence. Qed.

Lemma keeps_media_add_text_variation env post_id vn tc prompts :
  preserves keeps_media
    (GeminiAgentService.add_text_variation env post_id vn tc prompts).
Proof.
  intros w.
  unfold GeminiAgentService.add_text_variation, PostService.add_text_variation.
  destruct (bind_integer vn), (bind_text tc);
    try destruct (PostService.fk_ok _ _); reflexivity.
Qed.

Lemma keeps_media_persist_variations env post_id variations :
  preserves keeps_media
    (GeminiAgentService.persist_variations env None post_id variations).
Proof.
  induction variations as [|v variations IH]; simpl.
  - apply (preserves_ret keeps_media); exact keeps_media_refl.
  - apply (preserves_bind keeps_media);
      [exact keeps_media_trans
      | apply (preserves_lift keeps_media); exact keeps_media_refl | intros vn].
    apply (preserves_bind keeps_media);
      [exact keeps_media_trans
      | apply (preserves_lift keeps_media); exact keeps_media_refl | intros tc].
    apply (preserves_bind keeps_media);
      [exact keeps_media_trans
      | apply keeps_media_add_text_variation | intros id].
    apply (preserves_bind keeps_media);
      [exact keeps_media_trans | | intros _; exact IH].
    destruct id as [[|a s]|];
      apply (preserves_ret keeps_media); exact keeps_media_refl.
Qed.

Lemma update_post_status_media db post_id status step err now :
  media_contents
    (snd (PostService.update_post_status db post_id status step err now))
  = media_contents db.
Proof.
  unfold PostService.update_post_status.
  destruct (PostService.find_post db post_id); reflexivity.
Qed.

(** The part of a run after the decoding: the media rows it adds. *)
Lemma persist_media env post post_id tv w :
  PostService.post_exists (w_db w) post_id = true ->
  let r := GeminiAgentService.persist env None post post_id tv w in
  exists j,
    media_numbers (w_db (snd r)) post_id
    = (media_numbers (w_db w) post_id ++ count_from 1 j)%list
    /\ (GeminiAgentService.wants_images post = false -> j = 0%nat)
    /\ (forall l,
          GeminiAgentService.wants_images post = true ->
          Py.get tv "image_prompts" (JArr []) = inr (JArr l) ->
          fst r = inr tt -> j = List.length l).
Proof.
  intros X. cbv zeta.
  set (Q := fun r : (exn + unit) * world =>
         exists j,
           media_numbers (w_db (snd r)) post_id
           = (media_numbers (w_db w) post_id ++ count_from 1 j)%list
           /\ (GeminiAgentService.wants_images post = false -> j = 0%nat)
           /\ (forall l,
                 GeminiAgentService.wants_images post = true ->
                 Py.get tv "image_prompts" (JArr []) = inr (JArr l) ->
                 fst r = inr tt -> j = List.length l)).
  change (Q (GeminiAgentService.persist env None post post_id tv w)).
  assert (Z0 : forall e w',
             media_contents (w_db w') = media_contents (w_db w) ->
             Q (inl e, w')).
  { intros e w' Hw'. exists 0%nat. simpl. unfold media_numbers.
    rewrite Hw', app_nil_r. split; [reflexivity|]. split; [reflexivity|].
    discriminate. }
  unfold GeminiAgentService.persist.
  unfold bind at 1, lift at 1.
  destruct (Py.get tv "variations" (JArr [])) as [e|vs];
    [apply Z0; reflexivity|].
  unfold bind at 1, lift at 1.
  destruct (Py.iter vs) as [e|vl]; [apply Z0; reflexivity|].
  unfold bind at 1.
  pose proof (keeps_media_persist_variations env post_id vl w) as K.
  destruct (quiet_persist_variations env post_id vl w) as (P & _).
  destruct (GeminiAgentService.persist_variations env None post_id vl w)
    as [[e|[]] w1]; simpl in K, P; [apply Z0; exact K|].
  assert (X1 : PostService.post_exists (w_db w1) post_id = true).
  { unfold PostService.post_exists in *. now rewrite P. }
  assert (N1 : media_numbers (w_db w1) post_id = media_numbers (w_db w) post_id).
  { unfold media_numbers. now rewrite K. }
  destruct (GeminiAgentService.wants_images post) eqn:W.
  - unfold GeminiAgentService._send_progress, bind at 1, ret.
    unfold bind at 1, lift at 1.
    destruct (Py.get tv "image_prompts" (JArr [])) as [e|ps] eqn:G;
      [apply Z0; exact K|].
    unfold bind at 1, lift at 1.
    destruct (Py.iter ps) as [e|pl] eqn:I; [apply Z0; exact K|].
    destruct (generate_images_numbers env post post_id tv pl 1%Z w1 X1)
      as (j & _ & Hn & Hr).
    exists j. rewrite Hn, N1. split; [reflexivity|].
    split; [discriminate|].
    intros l _ E H. injection E as ->. cbn [Py.iter] in I.
    injection I as <-. exact (Hr H).
  - exists 0%nat. simpl. rewrite N1, app_nil_r. split; [reflexivity|].
    split; [reflexivity | discriminate].
Qed.

(** The media rows of a whole run. *)
Lemma run_media_numbers
    (env : Env) (cb : option callback) (post_id : string) (w : world)
    (post : Post.t) :
  PostService.find_post (w_db w) post_id = Some post ->
  let r := GeminiAgentService.generate_post env cb post_id w in
  exists j,
    media_numbers (w_db (snd r)) post_id
    = (media_numbers (w_db w) post_id ++ Spec.one_to j)%list
    /\ (GeminiAgentService.wants_images post = false -> j = 0%nat).
Proof.
  intros F r.
  destruct (sim_generate_post env cb None post_id w w (agree_refl w))
    as (_ & Hdb & _).
  fold r in Hdb. rewrite Hdb.
  rewrite (generate_post_none env post_id w post F).
  assert (P : exists j,
             media_numbers
               (w_db (snd (GeminiAgentService.produce env None post post_id w)))
               post_id
             = (media_numbers (w_db w) post_id ++ Spec.one_to j)%list
             /\ (GeminiAgentService.wants_images post = false -> j = 0%nat)).
  { unfold GeminiAgentService.produce, bind at 1. rewrite gather_none.
    destruct (generate_text_response env (prompt_of env (w_db w) post))
      as [e|raw].
    - exists 0%nat. simpl. now rewrite app_nil_r.
    - unfold bind at 1, lift at 1.
      destruct (parse_json_from_string (json_loads env) (sanitize raw))
        as [e|tv].
      + exists 0%nat. simpl. now rewrite app_nil_r.
      + destruct (persist_media env post post_id tv
                    (record_calls
                       (fetch_calls
                          (PostService.get_data_sources (w_db w) (Post.id post))
                        ++ [GenerateText (prompt_of env (w_db w) post)]) w)
                    (find_post_exists _ _ _ F)) as (j & Hn & H0 & _).
        exists j. rewrite <- count_from_one. split; [exact Hn | exact H0]. }
  destruct P as (j & Hn & H0). exists j. split; [|exact H0].
  rewrite <- Hn.
  destruct (fst (GeminiAgentService.produce env None post post_id w)); simpl;
    unfold media_numbers; now rewrite update_post_status_media.
Qed.

(** X12. The media rows a run adds for its post are numbered 1, 2, ... in
    the order they are written, whatever happens later in the run, and a
    post that asks for no image gets none. *)
Theorem media_rows_numbered_from_one
    (env : Env) (cb : option callback) (post_id : string) (w : world)
    (post : Post.t) :
  PostService.find_post (w_db w) post_id = Some post ->
  let r := GeminiAgentService.generate_post env cb post_id w in
  exists j,
    media_numbers (w_db (snd r)) post_id
    = (media_numbers (w_db w) post_id ++ Spec.one_to j)%list
    /\ (GeminiAgentService.wants_images post = false -> j = 0%nat).
Proof. exact (run_media_numbers env cb post_id w post). Qed.

Lemma media_rows_numbered_from_one_witness :
  let w := Demo.world0 IMAGE PENDING in
  PostService.find_post (w_db w) "p1" = Some (Demo.post IMAGE PENDING)
  /\ exists j,
       media_numbers
         (w_db (snd (GeminiAgentService.generate_post
                       (Demo.env (inr Demo.answer)) (Some Demo.deliver_all)
                       "p1" w))) "p1"
       = (media_numbers (w_db w) "p1" ++ Spec.one_to j)%list.
Proof.
  cbv zeta. split; [reflexivity|].
  destruct (media_rows_numbered_from_one (Demo.env (inr Demo.answer))
              (Some Demo.deliver_all) "p1" (Demo.world0 IMAGE PENDING)
              (Demo.post IMAGE PENDING) eq_refl) as (j & H & _).
  exists j. exact H.
Defined.

(** X13. A run that succeeds on a post asking for images, on an answer
    whose [image_prompts] are a list of K items, has stored one media row
    for each of them: the media numbers of the post grow by 1..K. *)
Theorem successful_run_stores_every_image
    (env : Env) (cb : option callback) (post_id : string) (w : world)
    (post : Post.t) (raw : string) (l : list json) :
  PostService.find_post (w_db w) post_id = Some post ->
  GeminiAgentService.wants_images post = true ->
  generate_text_response env (prompt_of env (w_db w) post) = inr raw ->
  decoded_image_prompts env raw = Some l ->
  let r := GeminiAgentService.generate_post env cb post_id w in
  fst r = inr true ->
  media_numbers (w_db (snd r)) post_id
  = (media_numbers (w_db w) post_id ++ Spec.one_to (List.length l))%list.
Proof.
  intros F W Hg D r.
  destruct (sim_generate_post env cb None post_id w w (agree_refl w))
    as (E & Hdb & _).
  fold r in E, Hdb. rewrite E, Hdb.
  rewrite (generate_post_none env post_id w post F).
  assert (P : GeminiAgentService.produce env None post post_id w
              = match parse_json_from_string (json_loads env) (sanitize raw) with
                | inl e =>
                    (inl e,
                     record_calls
                       (fetch_calls
                          (PostService.get_data_sources (w_db w) (Post.id post))
                        ++ [GenerateText (prompt_of env (w_db w) post)]) w)
                | inr tv =>
                    GeminiAgentService.persist env None post post_id tv
                      (record_calls
                         (fetch_calls
                            (PostService.get_data_sources (w_db w)
                               (Post.id post))
                          ++ [GenerateText (prompt_of env (w_db w) post)]) w)
                end).
  { unfold GeminiAgentService.produce, bind. rewrite gather_none, Hg.
    unfold lift.
    now destruct (parse_json_from_string (json_loads env) (sanitize raw)). }
  cbv zeta. rewrite P. clear P.
  unfold decoded_image_prompts in D.
  destruct (parse_json_from_string (json_loads env) (sanitize raw))
    as [e|[| | | | | |d]]; try discriminate.
  set (wg := record_calls _ w).
  destruct (persist_media env post post_id (JObj d) wg
              (find_post_exists _ _ _ F)) as (j & Hn & _ & Hl).
  assert (G : Py.get (JObj d) "image_prompts" (JArr []) = inr (JArr l)).
  { unfold Py.get.
    destruct (PyDict.lookup "image_prompts" d) as [[| | | | |l'|]|];
      try discriminate; congruence. }
  specialize (Hl l W G).
  destruct (GeminiAgentService.persist env None post post_id (JObj d) wg)
    as [[e|[]] w1]; simpl in Hl, Hn |- *; [discriminate|].
  intros _. rewrite (Hl eq_refl) in Hn. rewrite <- count_from_one, <- Hn.
  unfold media_numbers. now rewrite update_post_status_media.
Qed.

Lemma successful_run_stores_every_image_witness :
  let w := Demo.world0 IMAGE PENDING in
  let env := Demo.env (inr Demo.answer) in
  let r := GeminiAgentService.generate_post env (Some Demo.raise_always) "p1" w in
  decoded_image_prompts env Demo.answer = Some [JStr "a rocket"]
  /\ fst r = inr true
  /\ media_numbers (w_db (snd r)) "p1" = [1%Z].
Proof.
  cbv zeta. split; [vm_compute; reflexivity|].
  split; [vm_compute; reflexivity|].
  exact (successful_run_stores_every_image (Demo.env (inr Demo.answer))
           (Some Demo.raise_always) "p1" (Demo.world0 IMAGE PENDING)
           (Demo.post IMAGE PENDING) Demo.answer [JStr "a rocket"]
           eq_refl eq_refl eq_refl ltac:(vm_compute; reflexivity)
           ltac:(vm_compute; reflexivity)).
Defined.

(** ** GeminiAgentService: a run only adds rows of its post *)

Lemma appends_refl post_id w : appends post_id w w.
Proof.
  exists [], []. rewrite !app_nil_r. repeat split; constructor.
Qed.

Lemma appends_trans post_id a b c :
  appends post_id a b -> appends post_id b c -> appends post_id a c.
Proof.
  intros (tv1 & mc1 & T1 & F1 & M1 & G1 & D1 & S1 & SM1 & U1 & P1)
         (tv2 & mc2 & T2 & F2 & M2 & G2 & D2 & S2 & SM2 & U2 & P2).
  exists (tv1 ++ tv2)%list, (mc1 ++ mc2)%list.
  rewrite T2, T1, M2, M1, !app_assoc.
  repeat split; try congruence; try (apply Forall_app; now split).
  intros q Hq. now rewrite P2, P1.
Qed.

Lemma appends_same_db post_id w w' : w_db w' = w_db w -> appends post_id w w'.
Proof.
  intros E. exists [], []. rewrite E, !app_nil_r. repeat split; constructor.
Qed.

Lemma appends_add_text_variation env post_id vn tc prompts :
  preserves (appends post_id)
    (GeminiAgentService.add_text_variation env post_id vn tc prompts).
Proof.
  intros w.
  unfold GeminiAgentService.add_text_variation, PostService.add_text_variation.
  destruct (bind_integer vn) as [n|], (bind_text tc) as [t|];
    try destruct (PostService.fk_ok _ _);
    try (apply appends_same_db; reflexivity).
  eexists [_], []. cbn. rewrite app_nil_r.
  repeat split; try reflexivity; repeat constructor.
Qed.

Lemma appends_add_media_content env post_id mt n f g :
  preserves (appends post_id)
    (GeminiAgentService.add_media_content env post_id mt n f g).
Proof.
  intros w.
  unfold GeminiAgentService.add_media_content, PostService.add_media_content.
  destruct (PostService.fk_ok _ _); [|apply appends_same_db; reflexivity].
  eexists [], [_]. cbn. rewrite app_nil_r.
  repeat split; try reflexivity; repeat constructor.
Qed.

Lemma appends_external {A : Type} post_id (c : call) (r : exn + A) :
  preserves (appends post_id) (GeminiAgentService.external c r).
Proof. intros w. apply appends_same_db. reflexivity. Qed.

Lemma appends_status_written post_id status step err w :
  appends post_id w (status_written post_id status step err w).
Proof.
  unfold status_written, PostService.update_post_status.
  destruct (PostService.find_post (w_db w) post_id) eqn:F;
    [|apply appends_same_db; reflexivity].
  exists [], []. cbn. rewrite !app_nil_r.
  repeat split; try reflexivity; try constructor.
  intros q Hq. unfold PostService.find_post. cbn.
  apply find_update_first_other.
  - intros x. apply is_post_assign_status.
  - intros x. now apply is_post_other.
Qed.

Ltac appends_steps p :=
  repeat first
    [ apply (preserves_ret (appends p)); exact (appends_refl p)
    | apply (preserves_lift (appends p)); exact (appends_refl p)
    | apply (preserves_read (appends p)); exact (appends_refl p)
    | apply appends_add_text_variation | apply appends_add_media_content
    | apply appends_external
    | apply (preserves_bind (appends p)); [exact (appends_trans p) | | intros ?] ].

Lemma appends_extract_contexts env post_id total sources :
  forall idx acc,
    preserves (appends post_id)
      (GeminiAgentService.extract_contexts env None idx total sources acc).
Proof.
  induction sources as [|s sources IH]; intros idx acc; simpl;
    appends_steps post_id.
  - destruct (DataSource.source_type s);
      unfold GeminiAgentService.get_text_content_from_website;
      appends_steps post_id.
  - apply IH.
Qed.

Lemma appends_persist_variations env post_id variations :
  preserves (appends post_id)
    (GeminiAgentService.persist_variations env None post_id variations).
Proof.
  induction variations as [|v variations IH]; simpl; appends_steps post_id.
  - destruct x1 as [[|a s]|]; appends_steps post_id.
  - exact IH.
Qed.

Lemma appends_generate_images env post post_id tv prompts :
  forall n,
    preserves (appends post_id)
      (GeminiAgentService.generate_images env post post_id tv prompts n).
Proof.
  induction prompts as [|p prompts IH]; intros n; simpl;
    appends_steps post_id.
  apply IH.
Qed.

Lemma appends_produce env post post_id :
  preserves (appends post_id)
    (GeminiAgentService.produce env None post post_id).
Proof.
  unfold GeminiAgentService.produce.
  apply (preserves_bind (appends post_id)); [exact (appends_trans post_id) | |].
  - unfold GeminiAgentService.gather. simpl. appends_steps post_id.
    apply appends_extract_contexts.
  - intros raw.
    apply (preserves_bind (appends post_id));
      [exact (appends_trans post_id)
      | apply (preserves_lift (appends post_id)); exact (appends_refl post_id)
      |].
    intros tv. unfold GeminiAgentService.persist. appends_steps post_id;
      [apply appends_persist_variations|].
    destruct (GeminiAgentService.wants_images post); simpl;
      appends_steps post_id.
    apply appends_generate_images.
Qed.

Lemma run_appends env cb post_id w :
  appends post_id w
    (snd (GeminiAgentService.generate_post env cb post_id w)).
Proof.
  destruct (sim_generate_post env cb None post_id w w (agree_refl w))
    as (_ & Hdb & _).
  assert (N : appends post_id w
                (snd (GeminiAgentService.generate_post env None post_id w))).
  { destruct (PostService.find_post (w_db w) post_id) as [post|] eqn:F.
    - rewrite (generate_post_none env post_id w post F).
      pose proof (appends_produce env post post_id w) as P.
      destruct (fst (GeminiAgentService.produce env None post post_id w));
        simpl; (eapply appends_trans; [exact P|]);
        apply appends_status_written.
    - unfold GeminiAgentService.generate_post. rewrite F.
      apply appends_refl. }
  destruct N as (tv & mc & N). exists tv, mc. now rewrite Hdb.
Qed.

(** X14. A run never deletes or rewrites a stored row.  The text
    variations and the media rows it leaves are the ones that were there, in
    their order, followed by new rows of its own post, none of them
    selected; data sources, selections, selected media and cleanup records
    are untouched, and so is the record of every other post. *)
Theorem run_only_adds_rows_of_its_post
    (env : Env) (cb : option callback) (post_id : string) (w : world) :
  let db' := w_db (snd (GeminiAgentService.generate_post env cb post_id w)) in
  (exists tv,
     text_variations db' = (text_variations (w_db w) ++ tv)%list
     /\ Forall (fun v => TextVariation.post_id v = post_id
                         /\ TextVariation.is_selected v = false) tv)
  /\ (exists mc,
        media_contents db' = (media_contents (w_db w) ++ mc)%list
        /\ Forall (fun m => MediaContent.post_id m = post_id
                            /\ MediaContent.is_selected m = false) mc)
  /\ data_sources db' = data_sources (w_db w)
  /\ post_selections db' = post_selections (w_db w)
  /\ selected_media db' = selected_media (w_db w)
  /\ unwanted_media db' = unwanted_media (w_db w)
  /\ forall q, q <> post_id ->
       PostService.find_post db' q = PostService.find_post (w_db w) q.
Proof.
  cbv zeta.
  destruct (run_appends env cb post_id w)
    as (tv & mc & T & FT & M & FM & D & S & SM & U & P).
  split; [now exists tv|]. split; [now exists mc|]. now repeat split.
Qed.

(** ** GeminiAgentService: a run that fails midway *)

(** The loop over the variations stops at the first one that lacks a key;
    the rows of the well-formed ones before it are written. *)
Lemma persist_variations_stops env post_id (good : list json) bad rest e :
  variation_error bad = Some e ->
  forall nts w,
    all_fields good = Some nts ->
    PostService.post_exists (w_db w) post_id = true ->
    let r := GeminiAgentService.persist_variations env None post_id
               (good ++ bad :: rest) w in
    fst r = inl e
    /\ Spec.persisted_numbers (w_db (snd r)) post_id
       = (Spec.persisted_numbers (w_db w) post_id ++ map fst nts)%list.
Proof.
  intros B. induction good as [|v good IH]; intros nts w A X.
  - inversion A; subst. cbn [app map]. rewrite app_nil_r.
    cbn [GeminiAgentService.persist_variations]. unfold bind, lift.
    unfold variation_error in B.
    destruct (Py.getitem bad "variation_number") as [e1|n1].
    + inversion B; subst. now split.
    + destruct (Py.getitem bad "text_content") as [e2|t2]; [|discriminate].
      inversion B; subst. now split.
  - cbn [all_fields] in A.
    destruct (variation_fields v) as [[n t]|] eqn:V; [|discriminate].
    destruct (all_fields good) as [fs|] eqn:A'; [|discriminate].
    inversion A; subst nts; clear A.
    unfold variation_fields in V.
    destruct v as [| | | | |l|d]; try discriminate.
    destruct (PyDict.lookup "variation_number" d) as [[| |n'| | | |]|] eqn:L1;
      try discriminate.
    destruct (PyDict.lookup "text_content" d) as [[| | | |t'| |]|] eqn:L2;
      try discriminate.
    inversion V; subst n' t'; clear V.
    set (w1 := draw_uuid
                 (set_db
                    (set_text_variations
                       (text_variations (w_db w)
                        ++ [TextVariation.mk (uuid4 env (w_uuids w)) post_id n t
                              (Some (JObj [("prompts", JArr [])])) false])
                       (w_db w)) w)).
    assert (EQ : GeminiAgentService.persist_variations env None post_id
                   ((JObj d :: good) ++ bad :: rest) w
                 = GeminiAgentService.persist_variations env None post_id
                     (good ++ bad :: rest) w1).
    { cbn [app GeminiAgentService.persist_variations]. unfold bind, lift.
      cbn [Py.getitem]. rewrite L1, L2.
      unfold GeminiAgentService.add_text_variation,
        PostService.add_text_variation.
      cbn [bind_integer bind_text]. unfold PostService.fk_ok.
      rewrite X, orb_true_r.
      subst w1. destruct (uuid4 env (w_uuids w)); reflexivity. }
    cbv zeta. rewrite EQ.
    assert (X1 : PostService.post_exists (w_db w1) post_id = true) by exact X.
    destruct (IH fs w1 eq_refl X1) as [R1 R2].
    split; [exact R1|]. rewrite R2. subst w1. simpl.
    rewrite persisted_numbers_add. now rewrite <- app_assoc.
Qed.

(** X15. A failure in the middle of a run is not undone.  When the decoded
    answer holds well-formed variations followed by one that lacks
    [variation_number] or [text_content], the run returns False and leaves
    the post failed with the text of the KeyError, yet the variations before
    the faulty one stay stored; no image is generated. *)
Theorem malformed_variation_keeps_earlier_rows
    (env : Env) (cb : option callback) (post_id : string) (w : world)
    (post : Post.t) (raw : string) (d : list (string * json))
    (good : list json) (bad : json) (rest : list json)
    (nts : list (Z * string)) (e : exn) :
  PostService.find_post (w_db w) post_id = Some post ->
  generate_text_response env (prompt_of env (w_db w) post) = inr raw ->
  parse_json_from_string (json_loads env) (sanitize raw) = inr (JObj d) ->
  PyDict.lookup "variations" d = Some (JArr (good ++ bad :: rest)) ->
  all_fields good = Some nts ->
  variation_error bad = Some e ->
  let r := GeminiAgentService.generate_post env cb post_id w in
  fst r = inr false
  /\ PostService.find_post (w_db (snd r)) post_id
     = Some (PostService.assign_status FAILED None (Some (str_of_exn e))
               (w_now w) post)
  /\ Spec.persisted_numbers (w_db (snd r)) post_id
     = (Spec.persisted_numbers (w_db w) post_id ++ map fst nts)%list
  /\ media_contents (w_db (snd r)) = media_contents (w_db w).
Proof.
  intros F Hg Hp Hl A B r.
  destruct (sim_generate_post env cb None post_id w w (agree_refl w))
    as (E & Hdb & _).
  fold r in E, Hdb. rewrite E, Hdb.
  rewrite (generate_post_none env post_id w post F). cbv zeta.
  set (wg := record_calls
               (fetch_calls
                  (PostService.get_data_sources (w_db w) (Post.id post))
                ++ [GenerateText (prompt_of env (w_db w) post)]) w).
  destruct (persist_variations_stops env post_id good bad rest e B nts wg A
              (find_post_exists _ _ _ F)) as [R1 R2].
  pose proof (keeps_media_persist_variations env post_id
                (good ++ bad :: rest) wg) as K.
  destruct (quiet_persist_variations env post_id (good ++ bad :: rest) wg)
    as (Q1 & Q2 & _).
  assert (P : GeminiAgentService.produce env None post post_id w
              = (inl e,
                 snd (GeminiAgentService.persist_variations env None post_id
                        (good ++ bad :: rest) wg))).
  { unfold GeminiAgentService.produce, bind at 1. rewrite gather_none, Hg.
    fold wg. unfold bind at 1, lift at 1. rewrite Hp.
    unfold GeminiAgentService.persist, bind at 1, lift at 1.
    cbn [Py.get]. rewrite Hl. unfold bind at 1, lift at 1. cbn [Py.iter].
    unfold bind at 1.
    destruct (GeminiAgentService.persist_variations env None post_id
                (good ++ bad :: rest) wg) as [[e'|[]] w2];
      simpl in R1; [|discriminate].
    now inversion R1. }
  rewrite P. cbn [fst snd].
  set (w2 := snd (GeminiAgentService.persist_variations env None post_id
                    (good ++ bad :: rest) wg)) in *.
  assert (F2 : PostService.find_post (w_db w2) post_id = Some post).
  { unfold PostService.find_post in *. now rewrite Q1. }
  destruct (update_post_status_found _ _ FAILED None (Some (str_of_exn e))
              (w_now w2) _ F2) as [_ U2].
  split; [reflexivity|]. unfold status_written. cbn [w_db record_call set_db].
  split; [rewrite U2; now rewrite Q2|].
  split.
  - change (w_db wg) with (w_db w) in R2. rewrite <- R2.
    unfold Spec.persisted_numbers. now rewrite update_post_status_text.
  - rewrite update_post_status_media. exact K.
Qed.

Lemma malformed_variation_keeps_earlier_rows_witness :
  let raw := Demo.dq "{'variations': [{'variation_number': 1, 'text_content': 'one'}, {'variation_number': 2}, {'variation_number': 3, 'text_content': 'three'}]}" in
  let env := Demo.env (inr raw) in
  let w := Demo.world0 IMAGE PENDING in
  let r := GeminiAgentService.generate_post env (Some Demo.deliver_all) "p1" w in
  fst r = inr false
  /\ option_map Post.error_message (PostService.find_post (w_db (snd r)) "p1")
     = Some (Some "'text_content'")
  /\ Spec.persisted_numbers (w_db (snd r)) "p1" = [1%Z].
Proof.
  cbv zeta.
  destruct (malformed_variation_keeps_earlier_rows
              (Demo.env (inr (Demo.dq "{'variations': [{'variation_number': 1, 'text_content': 'one'}, {'variation_number': 2}, {'variation_number': 3, 'text_content': 'three'}]}")))
              (Some Demo.deliver_all) "p1" (Demo.world0 IMAGE PENDING)
              (Demo.post IMAGE PENDING)
              (Demo.dq "{'variations': [{'variation_number': 1, 'text_content': 'one'}, {'variation_number': 2}, {'variation_number': 3, 'text_content': 'three'}]}")
              [("variations",
                JArr [JObj [("variation_number", JInt 1);
                            ("text_content", JStr "one")];
                      JObj [("variation_number", JInt 2)];
                      JObj [("variation_number", JInt 3);
                            ("text_content", JStr "three")]])]
              [JObj [("variation_number", JInt 1); ("text_content", JStr "one")]]
              (JObj [("variation_number", JInt 2)])
              [JObj [("variation_number", JInt 3);
                     ("text_content", JStr "three")]]
              [(1%Z, "one")] (KeyError "text_content")
              eq_refl eq_refl ltac:(vm_compute; reflexivity) eq_refl eq_refl
              eq_refl) as (H1 & H2 & H3 & _).
  split; [exact H1|]. split; [rewrite H2; reflexivity | exact H3].
Defined.

(** ** websocket_updates: the reset followed by the run *)

(** The numbers of the text variations of a whole run on a well-formed
    answer. *)
Lemma run_text_numbers
    (env : Env) (cb : option callback) (post_id : string) (w : world)
    (post : Post.t) (raw : string) (nts : list (Z * string)) :
  PostService.find_post (w_db w) post_id = Some post ->
  generate_text_response env (prompt_of env (w_db w) post) = inr raw ->
  decoded_variations env raw = Some nts ->
  Spec.persisted_numbers
    (w_db (snd (GeminiAgentService.generate_post env cb post_id w))) post_id
  = (Spec.persisted_numbers (w_db w) post_id ++ map fst nts)%list.
Proof.
  intros F Hg D.
  destruct (sim_generate_post env cb None post_id w w (agree_refl w))
    as (_ & Hdb & _).
  rewrite Hdb.
  rewrite (generate_post_none env post_id w post F).
  assert (P : Spec.persisted_numbers
                (w_db (snd (GeminiAgentService.produce env None post post_id w)))
                post_id
              = (Spec.persisted_numbers (w_db w) post_id ++ map fst nts)%list).
  { unfold GeminiAgentService.produce, bind at 1. rewrite gather_none, Hg.
    unfold decoded_variations in D.
    unfold bind at 1, lift at 1.
    destruct (parse_json_from_string (json_loads env) (sanitize raw))
      as [e|[| | | | | |d]]; try discriminate.
    set (wg := record_calls _ w).
    assert (V : exists l, Py.get (JObj d) "variations" (JArr []) = inr (JArr l)
                          /\ all_fields l = Some nts).
    { unfold Py.get.
      destruct (PyDict.lookup "variations" d) as [[| | | | |l|]|];
        try discriminate.
      - now exists l.
      - exists []. split; [reflexivity | exact D]. }
    destruct V as (l & V1 & V2).
    unfold GeminiAgentService.persist, bind at 1, lift at 1. rewrite V1.
    unfold bind at 1, lift at 1. cbn [Py.iter].
    destruct (persist_variations_none env post_id l nts wg V2
                (find_post_exists _ _ _ F)) as [R1 R2].
    unfold bind at 1.
    destruct (GeminiAgentService.persist_variations env None post_id l wg)
      as [[e|[]] w2]; simpl in R1; [discriminate|].
    simpl in R2. rewrite <- R2.
    unfold Spec.persisted_numbers. f_equal. f_equal.
    apply (keeps_text_images env post post_id (JObj d) w2). }
  cbv zeta.
  destruct (fst (GeminiAgentService.produce env None post post_id w)); simpl;
    rewrite <- P; unfold Spec.persisted_numbers;
    now rewrite update_post_status_text.
Qed.

(** X16. Connecting to the updates endpoint regenerates the post.  After
    the reset and a run on a well-formed answer, the text variations of the
    post carry the numbers of this answer and nothing else, and its media
    rows are numbered 1..j.  The exception: an engine that enforces foreign
    keys refuses to delete rows a selection refers to; then the rows of the
    earlier run stay and the new ones are added to them. *)
Theorem reconnect_regenerates
    (env : Env) (cb : option callback) (post_id : string) (w : world)
    (post : Post.t) (raw : string) (nts : list (Z * string)) :
  let w1 := set_db (reset (foreign_keys env) (w_db w) post_id) w in
  PostService.find_post (w_db w1) post_id = Some post ->
  generate_text_response env (prompt_of env (w_db w1) post) = inr raw ->
  decoded_variations env raw = Some nts ->
  let r := GeminiAgentService.generate_post env cb post_id w1 in
  Spec.persisted_numbers (w_db (snd r)) post_id
  = ((if foreign_keys env && PostService.text_referenced (w_db w) post_id
      then Spec.persisted_numbers (w_db w) post_id else [])
     ++ map fst nts)%list
  /\ exists j,
       media_numbers (w_db (snd r)) post_id
       = ((if foreign_keys env && PostService.media_referenced (w_db w) post_id
           then media_numbers (w_db w) post_id else [])
          ++ Spec.one_to j)%list.
Proof.
  intros w1 F Hg D r. split.
  - subst r. rewrite (run_text_numbers env cb post_id w1 post raw nts F Hg D).
    f_equal. subst w1. cbn [w_db set_db]. rewrite reset_shape.
    unfold Spec.persisted_numbers. cbn [text_variations].
    destruct (foreign_keys env && PostService.text_referenced (w_db w) post_id);
      [reflexivity|].
    now rewrite filter_negb_self.
  - destruct (run_media_numbers env cb post_id w1 post F) as (j & Hj & _).
    exists j. fold r in Hj. rewrite Hj. f_equal.
    subst w1. cbn [w_db set_db]. rewrite reset_shape.
    unfold media_numbers. cbn [media_contents].
    destruct (foreign_keys env && PostService.media_referenced (w_db w) post_id);
      [reflexivity|].
    now rewrite filter_negb_self.
Qed.

(** The rows of an earlier run are replaced where nothing refers to them
    (Demo2), and kept where a selection does and the engine enforces the
    foreign keys (Demo3). *)
Lemma reconnect_regenerates_witness :
  let env := Demo.env (inr Demo.answer) in
  let after db :=
    w_db (snd (GeminiAgentService.generate_post env None "p1"
                 (set_db (reset (foreign_keys env) db "p1")
                    (mkWorld db 0 100%Z [] [])))) in
  Spec.persisted_numbers Demo2.db "p1" = [1%Z; 2%Z]
  /\ Spec.persisted_numbers (after Demo2.db) "p1" = [2%Z]
  /\ Spec.persisted_numbers (after Demo3.db) "p1" = [1%Z; 2%Z; 2%Z].
Proof.
  cbv zeta. split; [reflexivity|]. split.
  - exact (proj1 (reconnect_regenerates (Demo.env (inr Demo.answer)) None "p1"
                    (mkWorld Demo2.db 0 100%Z [] [])
                    (Demo.post IMAGE COMPLETED) Demo.answer
                    [(2%Z, "Launch (Hashtag)Friday")]
                    eq_refl eq_refl ltac:(vm_compute; reflexivity))).
  - exact (proj1 (reconnect_regenerates (Demo.env (inr Demo.answer)) None "p1"
                    (mkWorld Demo3.db 0 100%Z [] [])
                    (Demo.post IMAGE COMPLETED) Demo.answer
                    [(2%Z, "Launch (Hashtag)Friday")]
                    eq_refl eq_refl ltac:(vm_compute; reflexivity))).
Defined.

(** ** Creating a post *)

Lemma DataSourceType_of_value_inv (s : string) (t : DataSourceType) :
  DataSourceType_of_value s = Some t -> DataSourceType_value t = s.
Proof.
  unfold DataSourceType_of_value.
  destruct (String.eqb s "text") eqn:E1;
    [intros H; inversion H; symmetry; now apply String.eqb_eq|].
  destruct (String.eqb s "link") eqn:E2;
    [intros H; inversion H; symmetry; now apply String.eqb_eq|].
  discriminate.
Qed.

Lemma MediaType_of_value_inv (s : string) (t : MediaType) :
  MediaType_of_value s = Some t -> MediaType_value t = s.
Proof.
  unfold MediaType_of_value.
  destruct (String.eqb s "image") eqn:E1;
    [intros H; inversion H; symmetry; now apply String.eqb_eq|].
  destruct (String.eqb s "video") eqn:E2;
    [intros H; inversion H; symmetry; now apply String.eqb_eq|].
  destruct (String.eqb s "both") eqn:E3;
    [intros H; inversion H; symmetry; now apply String.eqb_eq|].
  destruct (String.eqb s "none") eqn:E4;
    [intros H; inversion H; symmetry; now apply String.eqb_eq|].
  discriminate.
Qed.

(** The rows of the loop carry, in the order of the sources, the type and
    the content of each, and belong to the new post. *)
Lemma source_rows_facts uuid4 post_id sources :
  forall k rows,
    PostService.source_rows uuid4 k post_id sources = inr rows ->
    map (fun s => (Some (DataSourceType_value (DataSource.source_type s)),
                   Some (DataSource.content s))) rows
    = map (fun src => (PostService.dict_get "type" src,
                       PostService.dict_get "content" src)) sources
    /\ Forall (fun s => DataSource.post_id s = post_id) rows.
Proof.
  induction sources as [|src sources IH]; intros k rows H; simpl in H.
  - inversion H. split; [reflexivity | constructor].
  - destruct (PostService.dict_get "type" src) as [ty|] eqn:T; [|discriminate].
    destruct (DataSourceType_of_value ty) as [st|] eqn:V; [|discriminate].
    destruct (PostService.dict_get "content" src) as [c|] eqn:C;
      [|discriminate].
    destruct (PostService.source_rows uuid4 (S k) post_id sources)
      as [e|rows'] eqn:R; [discriminate|].
    inversion H; subst rows; clear H.
    destruct (IH (S k) rows' R) as [M F].
    split.
    + cbn [map DataSource.source_type DataSource.content].
      rewrite T, C, M, (DataSourceType_of_value_inv ty st V). reflexivity.
    + constructor; [reflexivity | exact F].
Qed.

Lemma filter_all {A : Type} (f : A -> bool) (l : list A) :
  Forall (fun x => f x = true) l -> filter f l = l.
Proof.
  induction 1 as [|x l H _ IH]; simpl; [reflexivity|]. now rewrite H, IH.
Qed.

Lemma filter_none {A : Type} (f : A -> bool) (l : list A) :
  Forall (fun x => f x = false) l -> filter f l = [].
Proof.
  induction 1 as [|x l H _ IH]; simpl; [reflexivity|]. now rewrite H, IH.
Qed.

Lemma find_app_none {A : Type} (f : A -> bool) (l r : list A) :
  find f l = None -> find f (l ++ r) = find f r.
Proof.
  induction l as [|x l IH]; simpl; [reflexivity|].
  destruct (f x); [discriminate | exact IH].
Qed.

Lemma find_app_some {A : Type} (f : A -> bool) (l r : list A) (x : A) :
  find f l = Some x -> find f (l ++ r) = Some x.
Proof.
  induction l as [|y l IH]; simpl; [discriminate|].
  destruct (f y); [trivial | exact IH].
Qed.

(** X17. A post that [create_post] has created reads back: it is pending,
    nothing has run on it, [get_post] finds it under the id returned, and
    [get_data_sources] gives its sources in the order they were passed, each
    with its type and content.  What was stored for other posts is
    unchanged.  (The uuid drawn for the post is taken to be new.) *)
Theorem created_post_reads_back
    (db : DB) (uuid4 : nat -> string) (now : datetime)
    (sources : list (list (string * string)))
    (tone media ct : string) (n m : Z) (post : Post.t) (db' : DB) :
  PostService.create_post db uuid4 now sources tone media ct n m
  = inr (post, db') ->
  (forall p, In p (posts db) -> Post.id p <> uuid4 O) ->
  (forall s, In s (data_sources db) -> DataSource.post_id s <> uuid4 O) ->
  Post.id post = uuid4 O
  /\ Post.status post = PENDING
  /\ Post.error_message post = None /\ Post.completed_at post = None
  /\ MediaType_value (Post.media_content_needed post) = media
  /\ PostService.get_post db' (Post.id post) = Some post
  /\ map (fun s => (Some (DataSourceType_value (DataSource.source_type s)),
                    Some (DataSource.content s)))
       (PostService.get_data_sources db' (Post.id post))
     = map (fun src => (PostService.dict_get "type" src,
                        PostService.dict_get "content" src)) sources
  /\ (forall q, q <> Post.id post ->
        PostService.get_post db' q = PostService.get_post db q
        /\ PostService.get_data_sources db' q
           = PostService.get_data_sources db q)
  /\ text_variations db' = text_variations db
  /\ media_contents db' = media_contents db
  /\ post_selections db' = post_selections db.
Proof.
  unfold PostService.create_post. intros H Hp Hs.
  destruct (MediaType_of_value media) as [mt|] eqn:M; [|discriminate].
  destruct (ContentType_of_value ct) as [c|] eqn:C; [|discriminate].
  destruct (PostService.source_rows uuid4 1 (uuid4 O) sources) as [e|rows] eqn:R;
    [discriminate|].
  inversion H; subst post db'; clear H.
  destruct (source_rows_facts uuid4 (uuid4 O) sources 1 rows R) as [RM RF].
  cbn [Post.id Post.status Post.error_message Post.completed_at
         Post.media_content_needed text_variations media_contents
         post_selections].
  assert (N : find (PostService.is_post (uuid4 O)) (posts db) = None).
  { destruct (find (PostService.is_post (uuid4 O)) (posts db)) as [p|] eqn:F;
      [|reflexivity].
    apply find_some in F as [Hin Hid]. apply String.eqb_eq in Hid.
    now elim (Hp p Hin). }
  assert (D : filter (fun s => String.eqb (DataSource.post_id s) (uuid4 O))
                (data_sources db) = []).
  { apply filter_none. apply Forall_forall. intros s Hin.
    apply String.eqb_neq. now apply Hs. }
  split; [reflexivity|]. split; [reflexivity|]. split; [reflexivity|].
  split; [reflexivity|].
  split.
  { now apply MediaType_of_value_inv. }
  split.
  { unfold PostService.get_post, PostService.find_post. cbn [posts].
    rewrite (find_app_none _ _ _ N). simpl.
    unfold PostService.is_post. cbn [Post.id]. now rewrite String.eqb_refl. }
  split.
  { unfold PostService.get_data_sources. cbn [data_sources].
    rewrite filter_app, D. cbn [app].
    rewrite filter_all; [exact RM|].
    eapply Forall_impl; [|exact RF]. intros s Hid. now apply String.eqb_eq. }
  split; [|now repeat split].
  intros q Hq. split.
  - unfold PostService.get_post, PostService.find_post. cbn [posts].
    destruct (find (PostService.is_post q) (posts db)) as [p|] eqn:F.
    + now apply find_app_some.
    + rewrite (find_app_none _ _ _ F). simpl.
      unfold PostService.is_post. cbn [Post.id].
      destruct (String.eqb (uuid4 O) q) eqn:Q; [|reflexivity].
      apply String.eqb_eq in Q. now elim Hq.
  - unfold PostService.get_data_sources. cbn [data_sources].
    rewrite filter_app. rewrite (filter_none _ rows), app_nil_r; [reflexivity|].
    eapply Forall_impl; [|exact RF]. intros s Hid. cbv beta.
    apply String.eqb_neq. congruence.
Qed.

Lemma created_post_reads_back_witness :
  let r := PostService.create_post Demo2.db (Demo2.uuids "n") 7%Z
             [[("type", "link"); ("content", "https://example.org")];
              [("content", "plain words"); ("type", "text")]]
             "calm" "both" "ShortForm" 2 1 in
  exists post db',
    r = inr (post, db')
    /\ map DataSource.content (PostService.get_data_sources db' (Post.id post))
       = ["https://example.org"; "plain words"].
Proof.
  cbv zeta.
  eexists _, _. split; [reflexivity|].
  destruct (created_post_reads_back Demo2.db (Demo2.uuids "n") 7%Z
              [[("type", "link"); ("content", "https://example.org")];
               [("content", "plain words"); ("type", "text")]]
              "calm" "both" "ShortForm" 2 1 _ _ eq_refl) as (_ & _ & _ & _ & _ & _ & H & _).
  - intros p [<-|[<-|[]]]; discriminate.
  - intros s [].
  - apply (f_equal (map (fun x => match snd x with Some c => c | None => "" end))) in H.
    rewrite !map_map in H. cbn [snd] in H. exact H.
Defined.

(** X18. The create endpoint answers every validated request with the new
    post: the values of the request enums of schemas_posts.py are values of
    the enums of post_models.py, so the service raises no ValueError and
    the endpoint never answers 400 or 500. *)
Theorem create_post_accepts_validated_requests
    (db : DB) (uuid4 : nat -> string) (now : datetime)
    (request : Routes.CreatePostRequest) :
  fst (Routes.create_post db uuid4 now request)
  = Routes.CreatePostResponse (uuid4 O) "pending"
      "Post created successfully. Connect to WebSocket for live updates."
      ("/api/posts/" ++ uuid4 O ++ "/updates")
  /\ List.length (data_sources (snd (Routes.create_post db uuid4 now request)))
     = (List.length (data_sources db)
        + List.length (Routes.cp_data_sources request))%nat.
Proof.
  unfold Routes.create_post, PostService.create_post.
  assert (M : MediaType_of_value
                (Routes.MediaTypeEnum_value
                   (Routes.cp_media_content_needed request)) <> None)
    by (destruct (Routes.cp_media_content_needed request); discriminate).
  assert (C : ContentType_of_value
                (Routes.ContentTypeEnum_value (Routes.cp_content_type request))
              <> None)
    by (destruct (Routes.cp_content_type request); discriminate).
  destruct (MediaType_of_value _) as [mt|]; [|now elim M].
  destruct (ContentType_of_value _) as [c|]; [|now elim C].
  assert (R : forall l k,
             exists rows,
               PostService.source_rows uuid4 k (uuid4 O)
                 (map (fun ds =>
                         [("type", Routes.DataSourceTypeEnum_value
                                     (Routes.ds_type ds));
                          ("content", Routes.ds_content ds)]) l)
               = inr rows
               /\ List.length rows = List.length l).
  { induction l as [|ds l IH]; intros k.
    - exists []. now split.
    - destruct (IH (S k)) as (rows & E & L).
      cbn [map PostService.source_rows PostService.dict_get String.eqb].
      cbn. rewrite E.
      destruct (Routes.ds_type ds); cbn; eexists; split; try reflexivity;
        simpl; now rewrite L. }
  destruct (R (Routes.cp_data_sources request) 1%nat) as (rows & E & L).
  rewrite E. cbn [fst snd Post.id Post.status PostStatus_value data_sources].
  split; [reflexivity|]. now rewrite length_app, L.
Qed.

(** ** ConnectionManager and websocket_updates *)

Lemma lookup_remove (k : string) (d : list (string * WebSocket)) :
  ConnectionManager.lookup k (ConnectionManager.remove k d) = None.
Proof.
  unfold ConnectionManager.remove.
  induction d as [|[k' v] d IH]; simpl; [reflexivity|].
  destruct (String.eqb k k') eqn:E; simpl; [exact IH | now rewrite E].
Qed.

Lemma lookup_store (k : string) (v : WebSocket) (d : list (string * WebSocket)) :
  ConnectionManager.lookup k (ConnectionManager.store k v d) = Some v.
Proof.
  induction d as [|[k' v'] d IH]; simpl.
  - now rewrite String.eqb_refl.
  - destruct (String.eqb k k') eqn:E; simpl.
    + now rewrite String.eqb_refl.
    + now rewrite E.
Qed.

Lemma lookup_disconnect (post_id : string) (n : net) :
  ConnectionManager.lookup post_id
    (active_connections (ConnectionManager.disconnect post_id n)) = None.
Proof.
  unfold ConnectionManager.disconnect.
  destruct (ConnectionManager.lookup post_id (active_connections n)) eqn:L;
    [apply lookup_remove | exact L].
Qed.

Lemma sends_disconnect (post_id : string) (n : net) :
  sends (ConnectionManager.disconnect post_id n) = sends n.
Proof.
  unfold ConnectionManager.disconnect.
  now destruct (ConnectionManager.lookup post_id (active_connections n)).
Qed.

Lemma lookup_closing websocket post_id raised n :
  ConnectionManager.lookup post_id
    (active_connections (closing websocket post_id raised n)) = None.
Proof. unfold closing. apply lookup_disconnect. Qed.

(** Nothing is sent for a post that is not registered. *)
Lemma send_all_unregistered (post_id : string) (ms : list ws_message) :
  forall n,
    ConnectionManager.lookup post_id (active_connections n) = None ->
    fold_left (fun n m => ConnectionManager.send_message post_id m n) ms n = n.
Proof.
  induction ms as [|m ms IH]; intros n L; simpl; [reflexivity|].
  unfold ConnectionManager.send_message at 2. rewrite L. now apply IH.
Qed.

(** X19. Messages handed to [send_message] for a post go out in their
    order until one fails: the attempts are a prefix of the messages, every
    attempt but the last succeeded, and once an attempt has failed the post
    is no longer registered, so that nothing more is attempted for it.
    [send_message] itself raises nothing. *)
Theorem send_message_stops_at_first_failure
    (post_id : string) (ms : list ws_message) (n : net) :
  let n' :=
    fold_left (fun n m => ConnectionManager.send_message post_id m n) ms n in
  exists new,
    sends n' = (sends n ++ new)%list
    /\ map a_message new = firstn (List.length new) ms
    /\ Forall (fun a => a_raised a = None) (removelast new)
    /\ ((exists a, In a new /\ a_raised a <> None) \/
        (List.length new < List.length ms)%nat ->
        ConnectionManager.lookup post_id (active_connections n') = None).
Proof.
  cbv zeta. revert n. induction ms as [|m ms IH]; intros n.
  - exists []. simpl. rewrite app_nil_r. repeat split; [constructor|].
    intros [(a & [] & _)|H]; simpl in H; lia.
  - cbn [fold_left].
    destruct (ConnectionManager.lookup post_id (active_connections n))
      as [ws|] eqn:L.
    + destruct (ws_send_json ws (List.length (sends n))) as [e|] eqn:O.
      * assert (E : ConnectionManager.send_message post_id m n
                    = ConnectionManager.disconnect post_id
                        (mkNet (active_connections n)
                           (sends n
                            ++ [Build_attempt (ws_id ws) m (Some e)])%list)).
        { unfold ConnectionManager.send_message, ConnectionManager.send_json.
          now rewrite L, O. }
        rewrite E.
        rewrite send_all_unregistered by apply lookup_disconnect.
        eexists [_]. rewrite sends_disconnect. cbn [sends].
        split; [reflexivity|]. split; [reflexivity|].
        split; [constructor|]. intros _. apply lookup_disconnect.
      * assert (E : ConnectionManager.send_message post_id m n
                    = mkNet (active_connections n)
                        (sends n ++ [Build_attempt (ws_id ws) m None])%list).
        { unfold ConnectionManager.send_message, ConnectionManager.send_json.
          now rewrite L, O. }
        rewrite E.
        set (n1 := mkNet _ _).
        destruct (IH n1) as (new & S & M & F & D).
        exists (Build_attempt (ws_id ws) m None :: new).
        split; [rewrite S; subst n1; cbn [sends]; now rewrite <- app_assoc|].
        split; [cbn; now rewrite M|].
        split.
        { destruct new as [|a new]; [constructor|].
          cbn [removelast]. constructor; [reflexivity | exact F]. }
        intros [(a & [<-|Hin] & Hr)|H].
        -- now elim Hr.
        -- apply D. left. now exists a.
        -- apply D. right. cbn [List.length] in H. lia.
    + assert (E : ConnectionManager.send_message post_id m n = n).
      { unfold ConnectionManager.send_message. now rewrite L. }
      rewrite E.
      rewrite send_all_unregistered by exact L.
      exists []. rewrite app_nil_r. repeat split; [constructor|].
      intros _. exact L.
Qed.

(** X20. What a client of the updates endpoint does after the greeting
    has no influence on the generation.  Once the socket is accepted, the
    handler ends without raising and leaves the post unregistered; if the
    greeting could not be sent, the rows of the post have been reset and no
    run has taken place; if it could, the database and the outside calls
    are those of a run without any callback on the reset database, whether
    or not later messages could be delivered. *)
Theorem updates_result_independent_of_socket
    (env : Env) (websocket : WebSocket) (post_id : string) (w : world)
    (n : net) :
  ws_accept websocket = None ->
  let w1 := set_db (reset (foreign_keys env) (w_db w) post_id) w in
  let r := websocket_updates env websocket post_id w n in
  fst (fst r) = None
  /\ ConnectionManager.lookup post_id (active_connections (snd r)) = None
  /\ match ws_send_json websocket (List.length (sends n)) with
     | Some _ =>
         w_db (snd (fst r)) = w_db w1 /\ w_calls (snd (fst r)) = w_calls w
     | None =>
         let run := GeminiAgentService.generate_post env None post_id w1 in
         w_db (snd (fst r)) = w_db (snd run)
         /\ w_calls (snd (fst r)) = w_calls (snd run)
     end.
Proof.
  intros A w1 r. subst r. unfold websocket_updates, ConnectionManager.connect.
  rewrite A. fold w1. unfold ConnectionManager.send_json.
  cbn [sends active_connections].
  destruct (ws_send_json websocket (List.length (sends n))) as [e|].
  - cbn [fst snd]. split; [reflexivity|].
    split; [apply lookup_closing|]. now split.
  - destruct (sim_generate_post env (Some progress_callback) None post_id
                w1 w1 (agree_refl w1)) as (E & Hdb & _ & _ & Hc).
    destruct (generate_post_never_fails env (Some progress_callback) post_id w1)
      as (ok & Hok).
    destruct (GeminiAgentService.generate_post env (Some progress_callback)
                post_id w1) as [res w2].
    cbn [fst snd] in *. clear E. subst res.
    cbn [fst snd]. split; [reflexivity|].
    split; [apply lookup_closing|]. now split.
Qed.

Lemma updates_result_independent_of_socket_witness :
  let ws := Build_WebSocket 1 None
              (fun k => if Nat.leb 2 k
                        then Some (Exception "WebSocketDisconnect" "1006")
                        else None) in
  let r := websocket_updates (Demo.env (inr Demo.answer)) ws "p1"
             (mkWorld Demo2.db 0 100%Z [] []) (mkNet [] []) in
  Spec.persisted_numbers (w_db (snd (fst r))) "p1" = [2%Z]
  /\ List.length (sends (snd r)) = 4%nat
  /\ ConnectionManager.lookup "p1" (active_connections (snd r)) = None.
Proof.
  cbv zeta.
  destruct (updates_result_independent_of_socket
              (Demo.env (inr Demo.answer))
              (Build_WebSocket 1 None
                 (fun k => if Nat.leb 2 k
                           then Some (Exception "WebSocketDisconnect" "1006")
                           else None))
              "p1" (mkWorld Demo2.db 0 100%Z [] []) (mkNet [] []) eq_refl)
    as (_ & H2 & _).
  split; [vm_compute; reflexivity|]. split; [vm_compute; reflexivity|].
  exact H2.
Defined.

(** ** GeminiAgentService: what is stored for an image *)

Lemma generate_images_rows env post post_id tv prompts :
  forall n w,
    exists mc,
      media_contents
        (w_db (snd (GeminiAgentService.generate_images env post post_id tv
                      prompts n w)))
      = (media_contents (w_db w) ++ mc)%list
      /\ Forall (uploaded_image env post_id) mc.
Proof.
  induction prompts as [|p prompts IH]; intros n w.
  - exists []. simpl. rewrite app_nil_r. split; [reflexivity | constructor].
  - assert (Z0 : forall (r : (exn + unit) * world),
               media_contents (w_db (snd r)) = media_contents (w_db w) ->
               exists mc,
                 media_contents (w_db (snd r))
                 = (media_contents (w_db w) ++ mc)%list
                 /\ Forall (uploaded_image env post_id) mc).
    { intros r H. exists []. rewrite app_nil_r. split; [exact H | constructor]. }
    cbn [GeminiAgentService.generate_images].
    unfold bind, lift, GeminiAgentService.external.
    destruct (Py.get tv "variations" (JArr [])) as [e|vs];
      [apply Z0; reflexivity|].
    destruct (Py.iter vs) as [e|l]; [apply Z0; reflexivity|].
    destruct (GeminiAgentService.text_contents l) as [e|texts];
      [apply Z0; reflexivity|].
    destruct (GeminiAgentService.str_join ", " texts) as [e|post_text];
      [apply Z0; reflexivity|].
    destruct (generate_image_freepik env _ _) as [e|image_path] eqn:G;
      [apply Z0; reflexivity|].
    destruct (upload_image_to_storage env image_path) as [e|image_url] eqn:U;
      [apply Z0; reflexivity|].
    clear Z0.
    unfold GeminiAgentService.add_media_content, PostService.add_media_content.
    cbn [w_db record_call].
    destruct (PostService.fk_ok (foreign_keys env) _).
    + match goal with
      | |- context [GeminiAgentService.generate_images _ _ _ _ _ _ ?w1] =>
          destruct (IH (n + 1)%Z w1) as (mc & Hm & Hf)
      end.
      eexists (_ :: mc). rewrite Hm. cbn [w_db draw_uuid set_db media_contents
                                           set_media_contents record_call].
      rewrite <- app_assoc. split; [reflexivity|].
      constructor; [|exact Hf].
      split; [reflexivity|]. split; [reflexivity|].
      eexists _, _, image_path, image_url. now repeat split; eauto.
    + match goal with
      | |- context [GeminiAgentService.generate_images _ _ _ _ _ _ ?w1] =>
          destruct (IH (n + 1)%Z w1) as (mc & Hm & Hf)
      end.
      exists mc. rewrite Hm. split; [reflexivity | exact Hf].
Qed.

Lemma persist_rows env post post_id tv w :
  exists mc,
    media_contents
      (w_db (snd (GeminiAgentService.persist env None post post_id tv w)))
    = (media_contents (w_db w) ++ mc)%list
    /\ Forall (uploaded_image env post_id) mc.
Proof.
  assert (Z0 : forall (r : (exn + unit) * world),
             media_contents (w_db (snd r)) = media_contents (w_db w) ->
             exists mc,
               media_contents (w_db (snd r))
               = (media_contents (w_db w) ++ mc)%list
               /\ Forall (uploaded_image env post_id) mc).
  { intros r H. exists []. rewrite app_nil_r. split; [exact H | constructor]. }
  unfold GeminiAgentService.persist.
  unfold bind at 1, lift at 1.
  destruct (Py.get tv "variations" (JArr [])) as [e|vs];
    [apply Z0; reflexivity|].
  unfold bind at 1, lift at 1.
  destruct (Py.iter vs) as [e|vl]; [apply Z0; reflexivity|].
  unfold bind at 1.
  pose proof (keeps_media_persist_variations env post_id vl w) as K.
  destruct (GeminiAgentService.persist_variations env None post_id vl w)
    as [[e|[]] w1]; simpl in K; [apply Z0; exact K|].
  destruct (GeminiAgentService.wants_images post).
  - unfold GeminiAgentService._send_progress, bind at 1, ret.
    unfold bind at 1, lift at 1.
    destruct (Py.get tv "image_prompts" (JArr [])) as [e|ps];
      [apply Z0; exact K|].
    unfold bind at 1, lift at 1.
    destruct (Py.iter ps) as [e|pl]; [apply Z0; exact K|].
    destruct (generate_images_rows env post post_id tv pl 1%Z w1)
      as (mc & Hm & Hf).
    exists mc. rewrite Hm. unfold keeps_media in K. now rewrite K.
  - apply Z0. exact K.
Qed.

(** X21. Every media row a run stores is an image of its post whose
    [file_path] is what the storage returned for the file the image gateway
    returned: the engine checks neither result, and it never stores a NULL
    path. *)
Theorem stored_images_carry_upload_result
    (env : Env) (cb : option callback) (post_id : string) (w : world) :
  exists mc,
    media_contents
      (w_db (snd (GeminiAgentService.generate_post env cb post_id w)))
    = (media_contents (w_db w) ++ mc)%list
    /\ Forall (uploaded_image env post_id) mc
    /\ Forall (fun m => MediaContent.file_path m <> None) mc.
Proof.
  assert (H : exists mc,
             media_contents
               (w_db (snd (GeminiAgentService.generate_post env cb post_id w)))
             = (media_contents (w_db w) ++ mc)%list
             /\ Forall (uploaded_image env post_id) mc).
  { destruct (sim_generate_post env cb None post_id w w (agree_refl w))
      as (_ & Hdb & _).
    rewrite Hdb.
    destruct (PostService.find_post (w_db w) post_id) as [post|] eqn:F.
    - rewrite (generate_post_none env post_id w post F). cbv zeta.
      assert (P : exists mc,
                 media_contents
                   (w_db (snd (GeminiAgentService.produce env None post
                                 post_id w)))
                 = (media_contents (w_db w) ++ mc)%list
                 /\ Forall (uploaded_image env post_id) mc).
      { unfold GeminiAgentService.produce, bind at 1. rewrite gather_none.
        destruct (generate_text_response env (prompt_of env (w_db w) post))
          as [e|raw].
        - exists []. simpl. rewrite app_nil_r. split; [reflexivity|constructor].
        - unfold bind at 1, lift at 1.
          destruct (parse_json_from_string (json_loads env) (sanitize raw))
            as [e|tv].
          + exists []. simpl. rewrite app_nil_r.
            split; [reflexivity|constructor].
          + match goal with
            | |- context [GeminiAgentService.persist _ _ _ _ _ ?wg] =>
                destruct (persist_rows env post post_id tv wg)
                  as (mc & Hm & Hf)
            end.
            exists mc. split; [exact Hm | exact Hf]. }
      destruct P as (mc & Hm & Hf). exists mc. split; [|exact Hf].
      rewrite <- Hm.
      destruct (fst (GeminiAgentService.produce env None post post_id w));
        simpl; now rewrite update_post_status_media.
    - unfold GeminiAgentService.generate_post. rewrite F.
      exists []. simpl. rewrite app_nil_r. split; [reflexivity|constructor]. }
  destruct H as (mc & Hm & Hf). exists mc. split; [exact Hm|].
  split; [exact Hf|].
  eapply Forall_impl; [|exact Hf].
  intros m (_ & _ & (pr & fn & pa & url & _ & _ & E)). rewrite E. discriminate.
Qed.

(** ** GeminiAgentService: the progress events of a run *)

Lemma send_progress_some (f : callback) step message kwargs w :
  let full_message :=
    match kwargs with
    | _ :: _ => Prompts.get_step_description step kwargs
    | [] => message
    end in
  GeminiAgentService._send_progress (Some f) step message kwargs w
  = (inr tt,
     record_delivery
       (Build_delivery step full_message
          (f (List.length (w_sent w)) step full_message)) w).
Proof.
  cbv zeta.
  unfold GeminiAgentService._send_progress, try_except,
    GeminiAgentService.invoke.
  destruct (f _ _ _); reflexivity.
Qed.

Lemma events_record_delivery d w :
  events_of (record_delivery d w) = (events_of w ++ [event d])%list.
Proof. unfold events_of. simpl. now rewrite map_app. Qed.

Lemma events_extract_contexts env (f : callback) total sources :
  forall idx acc w,
    events_of
      (snd (GeminiAgentService.extract_contexts env (Some f) idx total sources
              acc w))
    = (events_of w ++ source_events idx sources)%list.
Proof.
  induction sources as [|s sources IH]; intros idx acc w.
  - simpl. now rewrite app_nil_r.
  - cbn [GeminiAgentService.extract_contexts source_events].
    unfold bind at 1. rewrite send_progress_some. cbv iota.
    unfold bind at 1.
    destruct (DataSource.source_type s).
    + unfold ret at 1. cbv iota. rewrite IH, events_record_delivery.
      now rewrite <- app_assoc.
    + unfold GeminiAgentService.get_text_content_from_website,
        GeminiAgentService.external, bind at 1, ret at 1.
      cbv iota. rewrite IH.
      change (events_of (record_call ?c ?x)) with (events_of x).
      rewrite events_record_delivery. now rewrite <- app_assoc.
Qed.

Lemma events_persist_variations env (f : callback) post_id variations :
  (forall k, uuid4 env k <> "") ->
  forall nts w,
    all_fields variations = Some nts ->
    PostService.post_exists (w_db w) post_id = true ->
    let r := GeminiAgentService.persist_variations env (Some f) post_id
               variations w in
    fst r = inr tt
    /\ events_of (snd r) = (events_of w ++ map variation_event nts)%list.
Proof.
  intros U. induction variations as [|v variations IH]; intros nts w A X.
  - inversion A; subst. simpl. now rewrite app_nil_r.
  - cbn [all_fields] in A.
    destruct (variation_fields v) as [[n t]|] eqn:V; [|discriminate].
    destruct (all_fields variations) as [fs|] eqn:A'; [|discriminate].
    inversion A; subst nts; clear A.
    unfold variation_fields in V.
    destruct v as [| | | | |l|d]; try discriminate.
    destruct (PyDict.lookup "variation_number" d) as [[| |n'| | | |]|] eqn:L1;
      try discriminate.
    destruct (PyDict.lookup "text_content" d) as [[| | | |t'| |]|] eqn:L2;
      try discriminate.
    inversion V; subst n' t'; clear V.
    set (w1 := draw_uuid
                 (set_db
                    (set_text_variations
                       (text_variations (w_db w)
                        ++ [TextVariation.mk (uuid4 env (w_uuids w)) post_id n t
                              (Some (JObj [("prompts", JArr [])])) false])
                       (w_db w)) w)).
    set (msg := Prompts.get_step_description "generating_text"
                  [("variation_num", PyStr.of_int n)]).
    set (w2 := record_delivery
                 (Build_delivery "generating_text" msg
                    (f (List.length (w_sent w1)) "generating_text" msg)) w1).
    assert (EQ : GeminiAgentService.persist_variations env (Some f) post_id
                   (JObj d :: variations) w
                 = GeminiAgentService.persist_variations env (Some f) post_id
                     variations w2).
    { cbn [GeminiAgentService.persist_variations]. unfold bind at 1, lift at 1.
      cbn [Py.getitem]. rewrite L1. unfold bind at 1, lift at 1. rewrite L2.
      unfold bind at 1.
      unfold GeminiAgentService.add_text_variation,
        PostService.add_text_variation.
      cbn [bind_integer bind_text]. unfold PostService.fk_ok.
      rewrite X, orb_true_r. fold w1.
      unfold bind at 1.
      pose proof (U (w_uuids w)) as Uw.
      destruct (uuid4 env (w_uuids w)) as [|a s] eqn:Eu; [now elim Uw|].
      rewrite send_progress_some. reflexivity. }
    cbv zeta. rewrite EQ.
    assert (X2 : PostService.post_exists (w_db w2) post_id = true) by exact X.
    destruct (IH fs w2 eq_refl X2) as [R1 R2].
    split; [exact R1|]. rewrite R2. subst w2.
    rewrite events_record_delivery. cbn [map]. rewrite <- app_assoc.
    reflexivity.
Qed.

Lemma keeps_sent_refl w : keeps_sent w w.
Proof. reflexivity. Qed.

Lemma keeps_sent_trans a b c :
  keeps_sent a b -> keeps_sent b c -> keeps_sent a c.
Proof. unfold keeps_sent. congruence. Qed.

Lemma keeps_sent_add_media_content env post_id mt n f g :
  preserves keeps_sent
    (GeminiAgentService.add_media_content env post_id mt n f g).
Proof.
  intros w.
  unfold keeps_sent, GeminiAgentService.add_media_content,
    PostService.add_media_content.
  destruct (PostService.fk_ok (foreign_keys env)
              (PostService.post_exists (w_db w) post_id)); reflexivity.
Qed.

Lemma keeps_sent_generate_images env post post_id tv prompts :
  forall n,
    preserves keeps_sent
      (GeminiAgentService.generate_images env post post_id tv prompts n).
Proof.
  induction prompts as [|p prompts IH]; intros n; simpl.
  - apply (preserves_ret keeps_sent); exact keeps_sent_refl.
  - repeat (apply (preserves_bind keeps_sent);
            [exact keeps_sent_trans
            | first [ apply (preserves_lift keeps_sent); exact keeps_sent_refl
                    | apply keeps_sent_add_media_content
                    | intros w; reflexivity ]
            | intros ?]).
    apply IH.
Qed.

Lemma gather_some env (f : callback) post w :
  let r := GeminiAgentService.gather env (Some f) post w in
  fst r = generate_text_response env (prompt_of env (w_db w) post)
  /\ w_db (snd r) = w_db w
  /\ events_of (snd r)
     = (events_of w
        ++ ("generating_text", "Generating text variations...")
           :: source_events 1
                (PostService.get_data_sources (w_db w) (Post.id post)))%list.
Proof.
  cbv zeta.
  set (ds := PostService.get_data_sources (w_db w) (Post.id post)).
  assert (EQ : exists w1,
             GeminiAgentService.gather env (Some f) post w
             = (generate_text_response env (prompt_of env (w_db w) post),
                record_call (GenerateText (prompt_of env (w_db w) post)) w1)
             /\ w_db w1 = w_db w
             /\ events_of w1
                = (events_of w
                   ++ ("generating_text", "Generating text variations...")
                      :: source_events 1 ds)%list).
  { unfold GeminiAgentService.gather.
    unfold bind at 1. rewrite send_progress_some. cbv iota.
    unfold bind at 1. cbv iota. cbn [w_db record_delivery].
    set (w0 := record_delivery _ w). fold ds.
    destruct (sim_extract_contexts env (Some f) None (List.length ds) ds 1%nat
                [] w0 w0 (agree_refl w0)) as (E & Ag & _).
    rewrite extract_contexts_none in E, Ag. cbn [fst snd] in E, Ag.
    pose proof (events_extract_contexts env f (List.length ds) ds 1%nat [] w0)
      as Ev.
    unfold bind at 1.
    destruct (GeminiAgentService.extract_contexts env (Some f) 1
                (List.length ds) ds [] w0) as [res w1].
    cbn [fst snd] in E, Ag, Ev. subst res. cbn [app].
    unfold GeminiAgentService.external.
    exists w1. split; [reflexivity|]. split; [exact Ag|].
    rewrite Ev. subst w0. rewrite events_record_delivery.
    now rewrite <- app_assoc. }
  destruct EQ as (w1 & -> & Hdb & Hev). cbn [fst snd].
  split; [reflexivity|]. split; [exact Hdb | exact Hev].
Qed.

Lemma events_persist env (f : callback) post post_id d l nts w :
  (forall k, uuid4 env k <> "") ->
  Py.get (JObj d) "variations" (JArr []) = inr (JArr l) ->
  all_fields l = Some nts ->
  PostService.post_exists (w_db w) post_id = true ->
  events_of (snd (GeminiAgentService.persist env (Some f) post post_id
                    (JObj d) w))
  = (events_of w ++ map variation_event nts
     ++ (if GeminiAgentService.wants_images post
         then [("generating_media", "Generating images...")] else []))%list.
Proof.
  intros U G A X.
  unfold GeminiAgentService.persist. unfold bind at 1, lift at 1. rewrite G.
  unfold bind at 1, lift at 1. cbn [Py.iter].
  destruct (events_persist_variations env f post_id l U nts w A X) as [R1 R2].
  unfold bind at 1.
  destruct (GeminiAgentService.persist_variations env (Some f) post_id l w)
    as [[e|[]] w1]; cbn [fst snd] in R1, R2; [discriminate|].
  destruct (GeminiAgentService.wants_images post).
  - unfold bind at 1. rewrite send_progress_some. cbv iota.
    set (w2 := record_delivery _ w1).
    assert (E2 : events_of w2
                 = (events_of w ++ map variation_event nts
                    ++ [("generating_media", "Generating images...")])%list).
    { subst w2. rewrite events_record_delivery, R2.
      now rewrite <- app_assoc. }
    unfold bind at 1, lift at 1.
    destruct (Py.get (JObj d) "image_prompts" (JArr [])) as [e|ps];
      [exact E2|].
    unfold bind at 1, lift at 1.
    destruct (Py.iter ps) as [e|pl]; [exact E2|].
    unfold events_of.
    rewrite (keeps_sent_generate_images env post post_id (JObj d) pl 1%Z w2).
    exact E2.
  - cbn [snd ret]. rewrite R2. now rewrite app_nil_r.
Qed.

(** X22. What the progress callback of a run on a well-formed answer is
    called with, whether it returns or raises: the start of the text
    generation, one event for each data source and one for each stored
    variation (with the step description, not the message the workflow
    composed), the start of the image generation if images are wanted, and
    as last event the completion, which is sent exactly when the run
    returns True.  A failure of the image generation produces no event. *)
Theorem progress_events_of_a_run
    (env : Env) (f : callback) (post_id : string) (w : world)
    (post : Post.t) (raw : string) (nts : list (Z * string)) :
  PostService.find_post (w_db w) post_id = Some post ->
  generate_text_response env (prompt_of env (w_db w) post) = inr raw ->
  decoded_variations env raw = Some nts ->
  (forall k, uuid4 env k <> "") ->
  let r := GeminiAgentService.generate_post env (Some f) post_id w in
  events_of (snd r)
  = (events_of w
     ++ ("generating_text", "Generating text variations...")
        :: source_events 1 (PostService.get_data_sources (w_db w) post_id)
     ++ map variation_event nts
     ++ (if GeminiAgentService.wants_images post
         then [("generating_media", "Generating images...")] else [])
     ++ match fst r with
        | inr true =>
            [("completed",
              Prompts.get_step_description "completed"
                [("content",
                  str_of_content env
                    (PostService.get_text_variations (w_db (snd r)) post_id)
                    (PostService.get_media_contents (w_db (snd r)) post_id))])]
        | _ => []
        end)%list.
Proof.
  intros F Hg D U r. subst r.
  pose proof (find_post_id _ _ _ F) as I.
  assert (P : events_of
                (snd (GeminiAgentService.produce env (Some f) post post_id w))
              = (events_of w
                 ++ ("generating_text", "Generating text variations...")
                    :: source_events 1
                         (PostService.get_data_sources (w_db w) post_id)
                 ++ map variation_event nts
                 ++ (if GeminiAgentService.wants_images post
                     then [("generating_media", "Generating images...")]
                     else []))%list).
  { unfold GeminiAgentService.produce. unfold bind at 1.
    destruct (gather_some env f post w) as (G1 & G2 & G3).
    rewrite Hg in G1. rewrite I in G3.
    destruct (GeminiAgentService.gather env (Some f) post w) as [res w1].
    cbn [fst snd] in G1, G2, G3. subst res.
    unfold bind at 1, lift at 1.
    unfold decoded_variations in D.
    destruct (parse_json_from_string (json_loads env) (sanitize raw))
      as [e|[| | | | | |d]]; try discriminate.
    assert (V : exists l, Py.get (JObj d) "variations" (JArr []) = inr (JArr l)
                          /\ all_fields l = Some nts).
    { unfold Py.get.
      destruct (PyDict.lookup "variations" d) as [[| | | | |l|]|];
        try discriminate.
      - now exists l.
      - exists []. split; [reflexivity | exact D]. }
    destruct V as (l & V1 & V2).
    assert (X : PostService.post_exists (w_db w1) post_id = true)
      by (rewrite G2; exact (find_post_exists _ _ _ F)).
    rewrite (events_persist env f post post_id d l nts w1 U V1 V2 X), G3.
    rewrite <- app_assoc. reflexivity. }
  remember (GeminiAgentService.generate_post env (Some f) post_id w) as r
    eqn:R.
  unfold GeminiAgentService.generate_post in R. rewrite F in R.
  unfold try_except, GeminiAgentService.workflow in R.
  unfold bind at 1 in R.
  destruct (GeminiAgentService.produce env (Some f) post post_id w)
    as [[e|[]] w1]; cbn [fst snd] in P.
  - unfold GeminiAgentService._update_post_error, bind,
      GeminiAgentService.update_post_status, ret in R.
    destruct (PostService.update_post_status (w_db w1) (Post.id post) FAILED
                None (Some (str_of_exn e)) (w_now w1)) as [[|] db'];
      subst r; cbn [fst snd];
      change (events_of (record_call ?c ?x)) with (events_of x);
      change (events_of (set_db ?c ?x)) with (events_of x);
      rewrite P; cbn [app]; now rewrite ?app_nil_r.
  - unfold GeminiAgentService.finalize in R. unfold bind at 1 in R.
    unfold GeminiAgentService.update_post_status in R. rewrite I in R.
    destruct (PostService.update_post_status (w_db w1) post_id COMPLETED
                (Some "Post generation completed") None (w_now w1))
      as [[|] db'];
      unfold bind at 1 in R; cbv iota in R; unfold bind at 1 in R;
      rewrite send_progress_some in R; cbv iota in R;
      unfold ret in R; subst r; cbn [fst snd];
      rewrite events_record_delivery;
      change (events_of (record_call ?c ?x)) with (events_of x);
      change (events_of (set_db ?c ?x)) with (events_of x);
      rewrite P; cbn [app]; rewrite <- ?app_assoc; cbn [app];
      rewrite <- ?app_assoc; reflexivity.
Qed.

Lemma progress_events_of_a_run_witness :
  let env := Demo.env (inr Demo.answer) in
  let w := Demo.world0 NONE PENDING in
  map fst
    (events_of
       (snd (GeminiAgentService.generate_post env (Some Demo.raise_always)
               "p1" w)))
  = ["generating_text"; "extracting_context"; "generating_text"; "completed"].
Proof.
  cbv zeta.
  rewrite (progress_events_of_a_run (Demo.env (inr Demo.answer))
             Demo.raise_always "p1" (Demo.world0 NONE PENDING)
             (Demo.post NONE PENDING) Demo.answer
             [(2%Z, "Launch (Hashtag)Friday")] eq_refl eq_refl
             ltac:(vm_compute; reflexivity)
             ltac:(intros k; discriminate)).
  vm_compute. reflexivity.
Defined.

(** ** schemas_posts.py: the validator of the media ids *)

Lemma nodup_length_le (l : list string) :
  (List.length (nodup string_dec l) <= List.length l)%nat.
Proof.
  induction l as [|x l IH]; simpl; [lia|].
  destruct (in_dec string_dec x l); simpl; lia.
Qed.

Lemma nodup_same_length (l : list string) :
  List.length (nodup string_dec l) = List.length l -> NoDup l.
Proof.
  induction l as [|x l IH]; simpl; intros H; [constructor|].
  destruct (in_dec string_dec x l) as [Hin|Hnin].
  - pose proof (nodup_length_le l). lia.
  - simpl in H. constructor; [exact Hnin | apply IH; lia].
Qed.

Lemma validate_media_ids_some (l : list string) :
  l <> [] ->
  validate_media_ids (Some l)
  = if Nat.eqb (List.length l) (List.length (nodup string_dec l))
    then inr l
    else inl (ValueError "Duplicate media IDs are not allowed").
Proof. destruct l; [congruence | reflexivity]. Qed.

(** X23. [validate_media_ids] accepts exactly the lists in which no id
    occurs twice, and returns them as they are; a missing list is accepted
    as the empty one. *)
Theorem validate_media_ids_accepts_distinct (v : option (list string)) :
  (NoDup (or_empty v) -> validate_media_ids v = inr (or_empty v))
  /\ (forall l, validate_media_ids v = inr l -> l = or_empty v /\ NoDup l).
Proof.
  destruct v as [[|x l]|].
  - split; [reflexivity|]. intros l H. inversion H.
    split; [reflexivity|constructor].
  - rewrite validate_media_ids_some by discriminate.
    change (or_empty (Some (x :: l))) with (x :: l).
    generalize (x :: l). clear x l. intros l. split.
    + intros N. rewrite (nodup_fixed_point string_dec N).
      now rewrite Nat.eqb_refl.
    + intros l'.
      destruct (Nat.eqb (List.length l)
                  (List.length (nodup string_dec l))) eqn:E;
        [|discriminate].
      intros H. inversion H; subst l'. split; [reflexivity|].
      apply Nat.eqb_eq in E. apply nodup_same_length. now symmetry.
  - split; [reflexivity|]. intros l H. inversion H.
    split; [reflexivity|constructor].
Qed.
